(** * Carla engine core: event ports, plugin table, naming and options

    A shallow embedding of [source/backend/engine/carla_engine.cpp] and the
    properties its specification states about it.

    Conventions of the embedding.
    - Unsigned machine integers ([uint32_t], [unsigned int], [uint8_t],
      [uint16_t]) are [Z]; arithmetic that can wrap is written with its
      modulus.
    - [float] and [double] values are only stored, copied and compared with
      the constants 0 and 1 by the code modelled here; they are rationals.
    - Heap objects live in finite maps from addresses to contents: event
      arrays in a [gmap positive (list EngineEvent)], plugin objects in a
      [gmap positive CarlaPlugin].  A null pointer is [None].
    - A function returns [None] where the C++ would read or write outside an
      array, dereference a dangling pointer, or where the loop fuel of the
      model runs out; every result stated below is of the form [Some _].
    - [CARLA_ASSERT] only logs: every assertion of the file is followed by an
      explicit test where the code means to return. *)

From Stdlib Require Import ZArith QArith Lia Ascii.
From stdpp Require Import base option list gmap strings.

Set Default Proof Using "Type".
Local Open Scope Z_scope.

(** ** Enumerations of [carla_backend.hpp] and [carla_engine.hpp] *)

Inductive ProcessMode :=
| PROCESS_MODE_SINGLE_CLIENT
| PROCESS_MODE_MULTIPLE_CLIENTS
| PROCESS_MODE_CONTINUOUS_RACK
| PROCESS_MODE_PATCHBAY
| PROCESS_MODE_BRIDGE.

Inductive EngineEventType :=
| kEngineEventTypeNull
| kEngineEventTypeControl
| kEngineEventTypeMidi.

Inductive EngineControlEventType :=
| kEngineControlEventTypeNull
| kEngineControlEventTypeParameter
| kEngineControlEventTypeMidiBank
| kEngineControlEventTypeMidiProgram
| kEngineControlEventTypeAllSoundOff
| kEngineControlEventTypeAllNotesOff.

#[global] Instance ProcessMode_eq_dec : EqDecision ProcessMode.
Proof. solve_decision. Defined.
#[global] Instance EngineEventType_eq_dec : EqDecision EngineEventType.
Proof. solve_decision. Defined.
#[global] Instance EngineControlEventType_eq_dec : EqDecision EngineControlEventType.
Proof. solve_decision. Defined.

(** Modelled from the spec: the integer values of [ProcessMode], whose
    declaration is in a header; the spec lists the modes in this order. *)
Definition ProcessMode_to_Z (m : ProcessMode) : Z :=
  match m with
  | PROCESS_MODE_SINGLE_CLIENT => 0
  | PROCESS_MODE_MULTIPLE_CLIENTS => 1
  | PROCESS_MODE_CONTINUOUS_RACK => 2
  | PROCESS_MODE_PATCHBAY => 3
  | PROCESS_MODE_BRIDGE => 4
  end.

(** [static_cast<ProcessMode>(value)] on the values the enumeration names. *)
Definition ProcessMode_of_Z (v : Z) : option ProcessMode :=
  if v =? 0 then Some PROCESS_MODE_SINGLE_CLIENT
  else if v =? 1 then Some PROCESS_MODE_MULTIPLE_CLIENTS
  else if v =? 2 then Some PROCESS_MODE_CONTINUOUS_RACK
  else if v =? 3 then Some PROCESS_MODE_PATCHBAY
  else if v =? 4 then Some PROCESS_MODE_BRIDGE
  else None.

(** ** Constants of the missing headers *)

(** Modelled from the spec: [MAX_MIDI_CHANNELS] of [carla_midi.h]; the spec
    requires [channel < 16]. *)
Definition MAX_MIDI_CHANNELS : Z := 16.

(** Modelled from the spec: [MIDI_IS_CONTROL_BANK_SELECT] of [carla_midi.h];
    the spec names the bank-select controllers 0 and 32. *)
Definition MIDI_IS_CONTROL_BANK_SELECT (param : Z) : bool :=
  (param =? 0) || (param =? 32).

(** Modelled from the spec: the event capacities of [carla_engine.hpp]; the
    spec gives 512 for a patchbay port and bounds every buffer by 512. *)
Definition RACK_EVENT_COUNT : Z := 512.
Definition PATCHBAY_EVENT_COUNT : Z := 512.

(** ** Engine events *)

Record EngineControlEvent := mkEngineControlEvent {
  ctrl_type : EngineControlEventType;
  ctrl_param : Z;
  ctrl_value : Q
}.

Record EngineMidiEvent := mkEngineMidiEvent {
  midi_port : Z;
  midi_data : Z * Z * Z;
  midi_size : Z
}.

(** Modelled from the spec: [struct EngineEvent] of [carla_engine.hpp], a tag
    with the time and channel common to both payloads.  The two payloads are
    kept side by side; no property below reads a payload other than the one
    written last. *)
Record EngineEvent := mkEngineEvent {
  ev_type : EngineEventType;
  ev_time : Z;
  ev_channel : Z;
  ev_ctrl : EngineControlEvent;
  ev_midi : EngineMidiEvent
}.

(** An event of zeroed memory, which is also what [EngineEvent()] builds. *)
Definition zeroEvent : EngineEvent :=
  mkEngineEvent kEngineEventTypeNull 0 0
    (mkEngineControlEvent kEngineControlEventTypeNull 0 0%Q)
    (mkEngineMidiEvent 0 (0, 0, 0) 0).

(** [static const EngineEvent kFallbackEngineEvent;] *)
Definition kFallbackEngineEvent : EngineEvent := zeroEvent.

Definition is_null_event (e : EngineEvent) : bool :=
  bool_decide (ev_type e = kEngineEventTypeNull).

(** ** Event ports *)

Module EventPort.

Record CarlaEngineEventPort := mkPort {
  kIsInput : bool;
  kProcessMode : ProcessMode;
  kMaxEventCount : Z;
  fBuffer : option positive
}.

Definition set_fBuffer (p : CarlaEngineEventPort) (b : option positive) :=
  mkPort (kIsInput p) (kProcessMode p) (kMaxEventCount p) b.

(** The same port object looked at from the reading side. *)
Definition as_input (p : CarlaEngineEventPort) : CarlaEngineEventPort :=
  mkPort true (kProcessMode p) (kMaxEventCount p) (fBuffer p).

(** [kProcessMode == PROCESS_MODE_CONTINUOUS_RACK || kProcessMode == PROCESS_MODE_PATCHBAY] *)
Definition rack_or_patchbay (m : ProcessMode) : bool :=
  bool_decide (m = PROCESS_MODE_CONTINUOUS_RACK)
  || bool_decide (m = PROCESS_MODE_PATCHBAY).

(** The constructor: the capacity is chosen by the mode, and a patchbay port
    allocates its own array of default-constructed events. *)
Definition new_port (isInput : bool) (processMode : ProcessMode)
    (mem : gmap positive (list EngineEvent))
  : CarlaEngineEventPort * gmap positive (list EngineEvent) :=
  let cap := if bool_decide (processMode = PROCESS_MODE_CONTINUOUS_RACK)
             then RACK_EVENT_COUNT else PATCHBAY_EVENT_COUNT in
  if bool_decide (processMode = PROCESS_MODE_PATCHBAY) then
    let a := fresh (dom mem) in
    (mkPort isInput processMode cap (Some a),
     <[a := replicate (Z.to_nat PATCHBAY_EVENT_COUNT) zeroEvent]> mem)
  else (mkPort isInput processMode cap None, mem).

(** [initBuffer]: [engine] is the engine pointer, given by its
    [getRackEventBuffer]. *)
Definition initBuffer (engine : option (bool → option positive))
    (p : CarlaEngineEventPort) (mem : gmap positive (list EngineEvent))
  : option (CarlaEngineEventPort * gmap positive (list EngineEvent)) :=
  match engine with
  | None => Some (p, mem)
  | Some getRackEventBuffer =>
    if bool_decide (kProcessMode p = PROCESS_MODE_CONTINUOUS_RACK) then
      Some (set_fBuffer p (getRackEventBuffer (kIsInput p)), mem)
    else if bool_decide (kProcessMode p = PROCESS_MODE_PATCHBAY) && negb (kIsInput p) then
      a ← fBuffer p;
      _ ← mem !! a;
      Some (p, <[a := replicate (Z.to_nat PATCHBAY_EVENT_COUNT) zeroEvent]> mem)
    else Some (p, mem)
  end.

(** The scan of [getEventCount]:
    [for (uint32_t i=0; i < kMaxEventCount; i++, count++)
       if (events[i].type == kEngineEventTypeNull) break;] *)
Fixpoint getEventCount_loop (events : list EngineEvent) (kMax : Z)
    (fuel : nat) (i count : Z) : option Z :=
  match fuel with
  | O => None
  | S fuel' =>
    if i <? kMax then
      e ← events !! Z.to_nat i;
      if is_null_event e then Some count
      else getEventCount_loop events kMax fuel' (i + 1) (count + 1)
    else Some count
  end.

Definition getEventCount (mem : gmap positive (list EngineEvent))
    (p : CarlaEngineEventPort) : option Z :=
  if negb (kIsInput p) then Some 0
  else match fBuffer p with
  | None => Some 0
  | Some a =>
    if rack_or_patchbay (kProcessMode p) then
      events ← mem !! a;
      getEventCount_loop events (kMaxEventCount p)
        (S (Z.to_nat (kMaxEventCount p))) 0 0
    else Some 0
  end.

Definition getEvent (mem : gmap positive (list EngineEvent))
    (p : CarlaEngineEventPort) (index : Z) : option EngineEvent :=
  if negb (kIsInput p) then Some kFallbackEngineEvent
  else match fBuffer p with
  | None => Some kFallbackEngineEvent
  | Some a =>
    if kMaxEventCount p <=? index then Some kFallbackEngineEvent
    else if rack_or_patchbay (kProcessMode p) then
      events ← mem !! a;
      events !! Z.to_nat index
    else Some kFallbackEngineEvent
  end.

(** The body of the write loops: the first entry of type Null is replaced by
    [fill] applied to it; a full buffer is left as it is (with a warning). *)
Fixpoint write_loop (fill : EngineEvent → EngineEvent)
    (events : list EngineEvent) (kMax : Z) (fuel : nat) (i : Z)
  : option (list EngineEvent) :=
  match fuel with
  | O => None
  | S fuel' =>
    if i <? kMax then
      e ← events !! Z.to_nat i;
      if negb (is_null_event e) then write_loop fill events kMax fuel' (i + 1)
      else Some (<[Z.to_nat i := fill e]> events)
    else Some events
  end.

Definition fill_control (time channel : Z) (type : EngineControlEventType)
    (param : Z) (value : Q) (e : EngineEvent) : EngineEvent :=
  mkEngineEvent kEngineEventTypeControl time channel
    (mkEngineControlEvent type param value) (ev_midi e).

Definition fill_midi (time channel port : Z) (data : Z * Z * Z) (size : Z)
    (e : EngineEvent) : EngineEvent :=
  mkEngineEvent kEngineEventTypeMidi time channel
    (ev_ctrl e) (mkEngineMidiEvent port data size).

(** [writeControlEvent].  The range of [value] and the bank-select test on
    [param] appear in assertions only, so they do not occur here. *)
Definition writeControlEvent (mem : gmap positive (list EngineEvent))
    (p : CarlaEngineEventPort) (time channel : Z)
    (type : EngineControlEventType) (param : Z) (value : Q)
  : option (gmap positive (list EngineEvent)) :=
  if kIsInput p then Some mem
  else match fBuffer p with
  | None => Some mem
  | Some a =>
    if bool_decide (type = kEngineControlEventTypeNull) then Some mem
    else if MAX_MIDI_CHANNELS <=? channel then Some mem
    else if rack_or_patchbay (kProcessMode p) then
      events ← mem !! a;
      events' ← write_loop (fill_control time channel type param value)
                  events (kMaxEventCount p) (S (Z.to_nat (kMaxEventCount p))) 0;
      Some (<[a := events']> mem)
    else Some mem
  end.

(** [writeMidiEvent]; [data] is the three bytes the code copies, [None] a
    null pointer. *)
Definition writeMidiEvent (mem : gmap positive (list EngineEvent))
    (p : CarlaEngineEventPort) (time channel port : Z)
    (data : option (Z * Z * Z)) (size : Z)
  : option (gmap positive (list EngineEvent)) :=
  if kIsInput p then Some mem
  else match fBuffer p with
  | None => Some mem
  | Some a =>
    if MAX_MIDI_CHANNELS <=? channel then Some mem
    else match data with
    | None => Some mem
    | Some d =>
      if size =? 0 then Some mem
      else if rack_or_patchbay (kProcessMode p) then
        if 3 <? size then Some mem
        else
          events ← mem !! a;
          events' ← write_loop (fill_midi time channel port d size)
                      events (kMaxEventCount p) (S (Z.to_nat (kMaxEventCount p))) 0;
          Some (<[a := events']> mem)
      else Some mem
    end
  end.

(** What the constructor and [initBuffer] establish for a port: the capacity
    follows the mode, and a buffer, when there is one, is an array of
    exactly that many events in one of the two modes that have buffers. *)
Definition port_ok (mem : gmap positive (list EngineEvent))
    (p : CarlaEngineEventPort) : Prop :=
  kMaxEventCount p =
    (if bool_decide (kProcessMode p = PROCESS_MODE_CONTINUOUS_RACK)
     then RACK_EVENT_COUNT else PATCHBAY_EVENT_COUNT)
  ∧ ∀ a, fBuffer p = Some a →
      rack_or_patchbay (kProcessMode p) = true
      ∧ ∃ events, mem !! a = Some events
                  ∧ Z.of_nat (length events) = kMaxEventCount p.

(** Index of the first Null entry, or the length when there is none. *)
Fixpoint first_null (events : list EngineEvent) : nat :=
  match events with
  | [] => O
  | e :: rest => if is_null_event e then O else S (first_null rest)
  end.

End EventPort.

(** ** The engine: options, plugin table, plugin objects *)

Module Engine.

Inductive EngineType :=
| kEngineTypeNull
| kEngineTypeJack
| kEngineTypeRtAudio
| kEngineTypePlugin.

Inductive BinaryType :=
| BINARY_NONE
| BINARY_POSIX32
| BINARY_POSIX64
| BINARY_WIN32
| BINARY_WIN64
| BINARY_OTHER.

Inductive PluginType :=
| PLUGIN_NONE
| PLUGIN_INTERNAL
| PLUGIN_LADSPA
| PLUGIN_DSSI
| PLUGIN_LV2
| PLUGIN_VST
| PLUGIN_GIG
| PLUGIN_SF2
| PLUGIN_SFZ.

Inductive CallbackType :=
| CALLBACK_PLUGIN_ADDED
| CALLBACK_PLUGIN_REMOVED.

Inductive EnginePostAction :=
| EnginePostActionNull
| EnginePostActionIdle
| EnginePostActionRemovePlugin.

(** The UI-bridge paths of the options, one per toolkit. *)
Inductive UiBridge :=
| LV2_GTK2 | LV2_GTK3 | LV2_QT4 | LV2_QT5 | LV2_COCOA | LV2_WINDOWS | LV2_X11
| VST_COCOA | VST_HWND | VST_X11.

Inductive OptionsType :=
| OPTION_PROCESS_NAME
| OPTION_PROCESS_MODE
| OPTION_MAX_PARAMETERS
| OPTION_PREFERRED_BUFFER_SIZE
| OPTION_PREFERRED_SAMPLE_RATE
| OPTION_FORCE_STEREO
| OPTION_USE_DSSI_VST_CHUNKS
| OPTION_PREFER_PLUGIN_BRIDGES
| OPTION_PREFER_UI_BRIDGES
| OPTION_OSC_UI_TIMEOUT
| OPTION_PATH_BRIDGE_NATIVE
| OPTION_PATH_BRIDGE_POSIX32
| OPTION_PATH_BRIDGE_POSIX64
| OPTION_PATH_BRIDGE_WIN32
| OPTION_PATH_BRIDGE_WIN64
| OPTION_PATH_BRIDGE_UI (k : UiBridge).

#[global] Instance EngineType_eq_dec : EqDecision EngineType.
Proof. solve_decision. Defined.
#[global] Instance BinaryType_eq_dec : EqDecision BinaryType.
Proof. solve_decision. Defined.
#[global] Instance UiBridge_eq_dec : EqDecision UiBridge.
Proof. solve_decision. Defined.

Record EngineOptions := mkOptions {
  processMode : ProcessMode;
  maxParameters : Z;
  preferredBufferSize : Z;
  preferredSampleRate : Z;
  forceStereo : bool;
  useDssiVstChunks : bool;
  preferPluginBridges : bool;
  preferUiBridges : bool;
  oscUiTimeout : Z;
  bridge_native : string;
  bridge_posix32 : string;
  bridge_posix64 : string;
  bridge_win32 : string;
  bridge_win64 : string;
  bridge_ui : UiBridge → string
}.

(** Modelled from the spec: the part of [CarlaPlugin] the engine uses; the
    class is in another file.  [p_name] is what [name()] returns, a pointer
    that the engine tests for null. *)
Record CarlaPlugin := mkPlugin {
  p_id : Z;
  p_name : option string;
  p_enabled : bool
}.

Definition setId (pl : CarlaPlugin) (i : Z) : CarlaPlugin :=
  mkPlugin i (p_name pl) (p_enabled pl).

(** [struct EnginePluginData]: a plugin pointer and two pairs of peaks. *)
Record EnginePluginData := mkSlot {
  plugin : option positive;
  insPeak : Q * Q;
  outsPeak : Q * Q
}.

Definition emptySlot : EnginePluginData := mkSlot None (0%Q, 0%Q) (0%Q, 0%Q).

(** The engine: [fOptions], what the virtual [isRunning()] and [type()]
    answer, the protected data, the plugin heap, a log of the calls that
    [callback] makes of the registered function, and the name given to
    [carla_setprocname].  [kData_callback] is the function pointer
    [kData->callback], null until [setCallback] registers one. *)
Record CarlaEngine := mkEngine {
  fOptions : EngineOptions;
  isRunning : bool;
  type : EngineType;
  plugins : option (list EnginePluginData);
  curPluginCount : Z;
  maxPluginNumber : Z;
  heap : gmap positive CarlaPlugin;
  lastError : string;
  nextAction_opcode : EnginePostAction;
  nextAction_pluginId : Z;
  aboutToClose : bool;
  callbacks : list (CallbackType * Z);
  procName : string;
  kData_callback : option positive
}.

Definition set_fOptions (e : CarlaEngine) (o : EngineOptions) : CarlaEngine :=
  mkEngine o (isRunning e) (type e) (plugins e) (curPluginCount e)
    (maxPluginNumber e) (heap e) (lastError e) (nextAction_opcode e)
    (nextAction_pluginId e) (aboutToClose e) (callbacks e) (procName e) (kData_callback e).

Definition setLastError (e : CarlaEngine) (error : string) : CarlaEngine :=
  mkEngine (fOptions e) (isRunning e) (type e) (plugins e) (curPluginCount e)
    (maxPluginNumber e) (heap e) error (nextAction_opcode e)
    (nextAction_pluginId e) (aboutToClose e) (callbacks e) (procName e) (kData_callback e).

Definition set_table (e : CarlaEngine) (slots : option (list EnginePluginData))
    (count : Z) (h : gmap positive CarlaPlugin) : CarlaEngine :=
  mkEngine (fOptions e) (isRunning e) (type e) slots count
    (maxPluginNumber e) h (lastError e) (nextAction_opcode e)
    (nextAction_pluginId e) (aboutToClose e) (callbacks e) (procName e) (kData_callback e).

Definition set_nextAction (e : CarlaEngine) (op : EnginePostAction) (id : Z)
  : CarlaEngine :=
  mkEngine (fOptions e) (isRunning e) (type e) (plugins e) (curPluginCount e)
    (maxPluginNumber e) (heap e) (lastError e) op id
    (aboutToClose e) (callbacks e) (procName e) (kData_callback e).

(** [callback]: [if (kData->callback) kData->callback(...)]. *)
Definition callback (e : CarlaEngine) (action : CallbackType) (pluginId : Z)
  : CarlaEngine :=
  mkEngine (fOptions e) (isRunning e) (type e) (plugins e) (curPluginCount e)
    (maxPluginNumber e) (heap e) (lastError e) (nextAction_opcode e)
    (nextAction_pluginId e) (aboutToClose e)
    (match kData_callback e with
     | Some _ => callbacks e ++ [(action, pluginId)]
     | None => callbacks e
     end)
    (procName e) (kData_callback e).

(** [setCallback]: the function is registered; the pointer handed back to
    it on every call is not modelled. *)
Definition setCallback (e : CarlaEngine) (func : option positive) : CarlaEngine :=
  mkEngine (fOptions e) (isRunning e) (type e) (plugins e) (curPluginCount e)
    (maxPluginNumber e) (heap e) (lastError e) (nextAction_opcode e)
    (nextAction_pluginId e) (aboutToClose e) (callbacks e) (procName e) func.

Definition carla_setprocname (e : CarlaEngine) (name : string) : CarlaEngine :=
  mkEngine (fOptions e) (isRunning e) (type e) (plugins e) (curPluginCount e)
    (maxPluginNumber e) (heap e) (lastError e) (nextAction_opcode e)
    (nextAction_pluginId e) (aboutToClose e) (callbacks e) name
    (kData_callback e).

Definition uint32 (z : Z) : Z := z mod 2 ^ 32.

(** A C++ [int] returned where [bool] is declared. *)
Definition bool_of_int (z : Z) : bool := negb (z =? 0).

Definition isNotEmpty (s : string) : bool := negb (bool_decide (s = "")).

(** *** Plugin management *)

(** What a plugin-format constructor ([CarlaPlugin::newLADSPA] and the
    others, defined elsewhere) hands back: a plugin, or null after setting
    the engine's last error. *)
Inductive CtorResult :=
| CtorOk (name : option string) (enabled : bool)
| CtorFail (err : string).

Record Initializer := mkInit {
  init_id : Z;
  init_filename : string;
  init_name : option string;
  init_label : string
}.

(** Modelled from the spec: the constructors are in other files; the plugin
    they build is identified by the id of its initializer. *)
Definition construct (init : Initializer) (name : option string)
    (enabled : bool) : CarlaPlugin :=
  mkPlugin (init_id init) name enabled.

(** The end of [addPlugin], once a constructor has returned the plugin
    object [pl]: the object is on the heap at a new address, slot [id]
    receives the pointer with zeroed peaks, the count grows, and the callback
    is called. *)
Definition install (e : CarlaEngine) (id : Z) (pl : CarlaPlugin)
  : option (bool * CarlaEngine) :=
  slots ← plugins e;
  _ ← slots !! Z.to_nat id;
  let p := fresh (dom (heap e)) in
  let e := set_table e
             (Some (<[Z.to_nat id := mkSlot (Some p) (0%Q, 0%Q) (0%Q, 0%Q)]> slots))
             (uint32 (curPluginCount e + 1))
             (<[p := pl]> (heap e)) in
  Some (true, callback e CALLBACK_PLUGIN_ADDED id).

Section AddPlugin.

(** [BINARY_NATIVE] is a macro naming the binary type of the build. *)
Variable BINARY_NATIVE : BinaryType.

(** The constructors, by plugin type. *)
Variable newPlugin : PluginType → Initializer → CtorResult.

(** [addPlugin], for a build that is neither the bridge ([BUILD_BRIDGE]) nor
    for Windows ([Q_OS_WIN]).  The two [return -1] of the bridge branch are
    converted to the declared [bool]. *)
Definition addPlugin (e : CarlaEngine) (btype : BinaryType)
    (ptype : PluginType) (filename : string) (name : option string)
    (label : string) : option (bool * CarlaEngine) :=
  if curPluginCount e =? maxPluginNumber e then
    Some (false, setLastError e "Maximum number of plugins reached")
  else
    let id := curPluginCount e in
    let init := mkInit id filename name label in
    let o := fOptions e in
    let bridgeBinary :=
      match btype with
      | BINARY_POSIX32 =>
        if isNotEmpty (bridge_posix32 o) then Some (bridge_posix32 o) else None
      | BINARY_POSIX64 =>
        if isNotEmpty (bridge_posix64 o) then Some (bridge_posix64 o) else None
      | BINARY_WIN32 =>
        if isNotEmpty (bridge_win32 o) then Some (bridge_win32 o) else None
      | BINARY_WIN64 =>
        if isNotEmpty (bridge_win64 o) then Some (bridge_win64 o) else None
      | _ => None
      end in
    let bridgeBinary :=
      if bool_decide (btype = BINARY_NATIVE) && isNotEmpty (bridge_native o)
      then Some (bridge_native o) else bridgeBinary in
    if preferPluginBridges o && bool_decide (is_Some bridgeBinary) then
      if negb (bool_decide (processMode o = PROCESS_MODE_MULTIPLE_CLIENTS)) then
        Some (bool_of_int (-1),
              setLastError e "Can only use bridged plugins in JACK Multi-Client mode")
      else if negb (bool_decide (type e = kEngineTypeJack)) then
        Some (bool_of_int (-1),
              setLastError e "Can only use bridged plugins with JACK backend")
      else
        (* plugin stays null *)
        Some (false, setLastError e "Bridged plugins are not implemented yet")
    else
      match ptype with
      | PLUGIN_NONE => Some (false, e)
      | _ =>
        match newPlugin ptype init with
        | CtorFail err => Some (false, setLastError e err)
        | CtorOk nm en => install e id (construct init nm en)
        end
      end.

(** Whether [addPlugin] finds a bridge binary for a binary type. *)
Definition bridge_configured (e : CarlaEngine) (btype : BinaryType) : bool :=
  let o := fOptions e in
  (bool_decide (btype = BINARY_NATIVE) && isNotEmpty (bridge_native o))
  || match btype with
     | BINARY_POSIX32 => isNotEmpty (bridge_posix32 o)
     | BINARY_POSIX64 => isNotEmpty (bridge_posix64 o)
     | BINARY_WIN32 => isNotEmpty (bridge_win32 o)
     | BINARY_WIN64 => isNotEmpty (bridge_win64 o)
     | _ => false
     end.

End AddPlugin.

(** The loop of [doPluginRemove], "move all plugins 1 spot backwards". *)
Fixpoint doPluginRemove_loop (fuel : nat) (i count : Z)
    (slots : list EnginePluginData) (h : gmap positive CarlaPlugin)
  : option (list EnginePluginData * gmap positive CarlaPlugin) :=
  match fuel with
  | O => None
  | S fuel' =>
    if i <? count then
      next ← slots !! Z.to_nat (i + 1);
      match plugin next with
      | None => Some (slots, h)
      | Some p =>
        pl ← h !! p;
        _ ← slots !! Z.to_nat i;
        doPluginRemove_loop fuel' (i + 1) count
          (<[Z.to_nat i := mkSlot (Some p) (0%Q, 0%Q) (0%Q, 0%Q)]> slots)
          (<[p := setId pl i]> h)
      end
    else Some (slots, h)
  end.

(** [doPluginRemove]; the mutex it may unlock is not modelled. *)
Definition doPluginRemove (e : CarlaEngine) : option CarlaEngine :=
  let count := uint32 (curPluginCount e - 1) in
  let id := nextAction_pluginId e in
  slots ← plugins e;
  cur ← slots !! Z.to_nat id;
  let slots := <[Z.to_nat id := mkSlot None (insPeak cur) (outsPeak cur)]> slots in
  '(slots, h) ← doPluginRemove_loop (S (length slots)) id count slots (heap e);
  Some (set_nextAction (set_table e (Some slots) count h)
          EnginePostActionNull (nextAction_pluginId e)).

Definition doIdle (e : CarlaEngine) : CarlaEngine :=
  set_nextAction e EnginePostActionNull (nextAction_pluginId e).

Definition proccessPendingEvents (e : CarlaEngine) : option CarlaEngine :=
  match nextAction_opcode e with
  | EnginePostActionNull => Some e
  | EnginePostActionIdle => Some (doIdle e)
  | EnginePostActionRemovePlugin => doPluginRemove e
  end.

(** [removePlugin].  When the engine runs, the control thread waits for the
    audio thread to execute the pending action at the top of its next block;
    when it does not, it executes the action itself: in both cases
    [doPluginRemove] runs between the publication of the action and the
    [delete].  The housekeeping thread and OSC are left out. *)
Definition removePlugin (e : CarlaEngine) (id : Z) : option (bool * CarlaEngine) :=
  match plugins e with
  | None =>
    Some (false, setLastError e "Critical error: no plugins are currently loaded!")
  | Some slots =>
    slot ← slots !! Z.to_nat id;
    match plugin slot with
    | Some p =>
      (* CARLA_ASSERT(plugin->id() == id) reads the object *)
      _ ← heap e !! p;
      let e := set_nextAction e EnginePostActionRemovePlugin id in
      e ← (if isRunning e then proccessPendingEvents e else doPluginRemove e);
      (* delete plugin *)
      let e := set_table e (plugins e) (curPluginCount e) (delete p (heap e)) in
      Some (true, callback e CALLBACK_PLUGIN_REMOVED id)
    | None => Some (false, setLastError e "Could not find plugin to remove")
    end
  end.

Section Init.

(** The table sizes, constants of [carla_engine.hpp]. *)
Variables MAX_RACK_PLUGINS MAX_PATCHBAY_PLUGINS MAX_DEFAULT_PLUGINS : Z.

(** The part of [init] that sets up the plugin table. *)
Definition init (e : CarlaEngine) (clientName : string) : CarlaEngine :=
  let max :=
    match processMode (fOptions e) with
    | PROCESS_MODE_CONTINUOUS_RACK => MAX_RACK_PLUGINS
    | PROCESS_MODE_PATCHBAY => MAX_PATCHBAY_PLUGINS
    | PROCESS_MODE_BRIDGE => 1
    | _ => MAX_DEFAULT_PLUGINS
    end in
  mkEngine (fOptions e) (isRunning e) (type e)
    (Some (replicate (Z.to_nat max) emptySlot)) 0 max (heap e) (lastError e)
    EnginePostActionNull (nextAction_pluginId e) false (callbacks e) clientName
    (kData_callback e).

End Init.

(** *** Options *)

Definition set_processMode (o : EngineOptions) (v : ProcessMode) :=
  mkOptions v (maxParameters o) (preferredBufferSize o) (preferredSampleRate o)
    (forceStereo o) (useDssiVstChunks o) (preferPluginBridges o)
    (preferUiBridges o) (oscUiTimeout o) (bridge_native o) (bridge_posix32 o)
    (bridge_posix64 o) (bridge_win32 o) (bridge_win64 o) (bridge_ui o).

(** The unsigned options, in the order of the record: [which] selects
    [maxParameters], [preferredBufferSize], [preferredSampleRate] or
    [oscUiTimeout]. *)
Definition set_uint (o : EngineOptions) (which : nat) (v : Z) :=
  mkOptions (processMode o)
    (if (which =? 0)%nat then v else maxParameters o)
    (if (which =? 1)%nat then v else preferredBufferSize o)
    (if (which =? 2)%nat then v else preferredSampleRate o)
    (forceStereo o) (useDssiVstChunks o) (preferPluginBridges o)
    (preferUiBridges o)
    (if (which =? 3)%nat then v else oscUiTimeout o)
    (bridge_native o) (bridge_posix32 o)
    (bridge_posix64 o) (bridge_win32 o) (bridge_win64 o) (bridge_ui o).

(** The boolean options: [forceStereo], [useDssiVstChunks],
    [preferPluginBridges], [preferUiBridges]. *)
Definition set_flag (o : EngineOptions) (which : nat) (v : bool) :=
  mkOptions (processMode o) (maxParameters o) (preferredBufferSize o)
    (preferredSampleRate o)
    (if (which =? 0)%nat then v else forceStereo o)
    (if (which =? 1)%nat then v else useDssiVstChunks o)
    (if (which =? 2)%nat then v else preferPluginBridges o)
    (if (which =? 3)%nat then v else preferUiBridges o)
    (oscUiTimeout o) (bridge_native o) (bridge_posix32 o)
    (bridge_posix64 o) (bridge_win32 o) (bridge_win64 o) (bridge_ui o).

(** The binary bridge paths: native, posix32, posix64, win32, win64. *)
Definition set_bridge (o : EngineOptions) (which : nat) (v : string) :=
  mkOptions (processMode o) (maxParameters o) (preferredBufferSize o)
    (preferredSampleRate o) (forceStereo o) (useDssiVstChunks o)
    (preferPluginBridges o) (preferUiBridges o) (oscUiTimeout o)
    (if (which =? 0)%nat then v else bridge_native o)
    (if (which =? 1)%nat then v else bridge_posix32 o)
    (if (which =? 2)%nat then v else bridge_posix64 o)
    (if (which =? 3)%nat then v else bridge_win32 o)
    (if (which =? 4)%nat then v else bridge_win64 o)
    (bridge_ui o).

Definition set_bridge_ui (o : EngineOptions) (k : UiBridge) (v : string) :=
  mkOptions (processMode o) (maxParameters o) (preferredBufferSize o)
    (preferredSampleRate o) (forceStereo o) (useDssiVstChunks o)
    (preferPluginBridges o) (preferUiBridges o) (oscUiTimeout o)
    (bridge_native o) (bridge_posix32 o) (bridge_posix64 o) (bridge_win32 o)
    (bridge_win64 o)
    (λ k', if bool_decide (k' = k) then v else bridge_ui o k').

(** [setOption], with every optional format compiled in.  [value] is a C++
    [int]; [CARLA_ENGINE_SET_OPTION_RUNNING_CHECK] returns when the engine is
    running.  A rejected call only logs. *)
Definition setOption (e : CarlaEngine) (option : OptionsType) (value : Z)
    (valueStr : string) : CarlaEngine :=
  let o := fOptions e in
  let unless_running (o' : EngineOptions) :=
    if isRunning e then e else set_fOptions e o' in
  match option with
  | OPTION_PROCESS_NAME => carla_setprocname e valueStr
  | OPTION_PROCESS_MODE =>
    if isRunning e then e
    else if (value <? ProcessMode_to_Z PROCESS_MODE_SINGLE_CLIENT)
            || (ProcessMode_to_Z PROCESS_MODE_PATCHBAY <? value) then e
    else match ProcessMode_of_Z value with
         | Some m => set_fOptions e (set_processMode o m)
         | None => e
         end
  | OPTION_MAX_PARAMETERS =>
    if isRunning e then e
    else if value <? 0 then e
    else set_fOptions e (set_uint o 0 (uint32 value))
  | OPTION_PREFERRED_BUFFER_SIZE => unless_running (set_uint o 1 (uint32 value))
  | OPTION_PREFERRED_SAMPLE_RATE => unless_running (set_uint o 2 (uint32 value))
  | OPTION_FORCE_STEREO => unless_running (set_flag o 0 (negb (value =? 0)))
  | OPTION_USE_DSSI_VST_CHUNKS => unless_running (set_flag o 1 (negb (value =? 0)))
  | OPTION_PREFER_PLUGIN_BRIDGES => unless_running (set_flag o 2 (negb (value =? 0)))
  | OPTION_PREFER_UI_BRIDGES => unless_running (set_flag o 3 (negb (value =? 0)))
  | OPTION_OSC_UI_TIMEOUT => unless_running (set_uint o 3 (uint32 value))
  | OPTION_PATH_BRIDGE_NATIVE => set_fOptions e (set_bridge o 0 valueStr)
  | OPTION_PATH_BRIDGE_POSIX32 => set_fOptions e (set_bridge o 1 valueStr)
  | OPTION_PATH_BRIDGE_POSIX64 => set_fOptions e (set_bridge o 2 valueStr)
  | OPTION_PATH_BRIDGE_WIN32 => set_fOptions e (set_bridge o 3 valueStr)
  | OPTION_PATH_BRIDGE_WIN64 => set_fOptions e (set_bridge o 4 valueStr)
  | OPTION_PATH_BRIDGE_UI k => set_fOptions e (set_bridge_ui o k valueStr)
  end.

(** *** The rack processor *)

(** [carla_zeroFloat(buf, frames)] and [memcpy(dst, src, sizeof(float)*frames)]
    on arrays that must hold [frames] samples. *)
Definition carla_zeroFloat (buf : list Q) (frames : Z) : option (list Q) :=
  if Z.of_nat (length buf) <? frames then None
  else Some (replicate (Z.to_nat frames) 0%Q ++ drop (Z.to_nat frames) buf).

Definition memcpy (dst src : list Q) (frames : Z) : option (list Q) :=
  if (Z.of_nat (length dst) <? frames) || (Z.of_nat (length src) <? frames)
  then None
  else Some (take (Z.to_nat frames) src ++ drop (Z.to_nat frames) dst).

(** The plugin loop of [processRack] as it is compiled: the block between
    [#if 0] and [#endif], which holds the call of [plugin->process], is not
    part of the program.  The state of the loop is [processed] and the list
    of the ids whose [process] was called. *)
Fixpoint processRack_loop (e : CarlaEngine) (fuel : nat) (i : Z)
    (processed : bool) (calls : list Z) : option (bool * list Z) :=
  match fuel with
  | O => None
  | S fuel' =>
    if i <? curPluginCount e then
      slots ← plugins e;
      slot ← slots !! Z.to_nat i;
      match plugin slot with
      | None => processRack_loop e fuel' (i + 1) processed calls
      | Some p =>
        pl ← heap e !! p;
        if negb (p_enabled pl) then processRack_loop e fuel' (i + 1) processed calls
        else processRack_loop e fuel' (i + 1) true calls
      end
    else Some (processed, calls)
  end.

(** The audio arrays live in one memory and are named by pointers, so that
    an input and an output of a block may be the same array.  Two arrays that
    overlap only in part are not represented. *)
Definition zero_at (mem : gmap positive (list Q)) (buf : positive) (frames : Z)
  : option (gmap positive (list Q)) :=
  b ← mem !! buf;
  z ← carla_zeroFloat b frames;
  Some (<[buf := z]> mem).

Definition copy_at (mem : gmap positive (list Q)) (dst src : positive)
    (frames : Z) : option (gmap positive (list Q)) :=
  d ← mem !! dst;
  s ← mem !! src;
  r ← memcpy d s frames;
  Some (<[dst := r]> mem).

(** [processRack]: the audio memory after the block, and the calls of
    [process] made during it.  [inBuf] and [outBuf] are the two pairs of
    pointers. *)
Definition processRack (e : CarlaEngine) (mem : gmap positive (list Q))
    (inBuf outBuf : positive * positive) (frames : Z)
  : option (gmap positive (list Q) * list Z) :=
  mem ← zero_at mem (outBuf.1) frames;
  mem ← zero_at mem (outBuf.2) frames;
  '(processed, calls) ←
    processRack_loop e (S (Z.to_nat (curPluginCount e))) 0 false [];
  if negb processed then
    mem ← copy_at mem (outBuf.1) (inBuf.1) frames;
    mem ← copy_at mem (outBuf.2) (inBuf.2) frames;
    Some (mem, calls)
  else Some (mem, calls).

(** *** Unique plugin names *)

(** Modelled from the spec: the operations of [CarlaString], a class of
    [carla_utils.hpp], that [getNewUniquePluginName] uses: truncation to a
    number of characters, replacement of a character, indexing, and the digit
    test.  Indexing outside the characters of the string has no result. *)
Fixpoint truncate (n : nat) (s : string) : string :=
  match n, s with
  | S n', String c rest => String c (truncate n' rest)
  | _, _ => EmptyString
  end.

Fixpoint replace (before after : Ascii.ascii) (s : string) : string :=
  match s with
  | EmptyString => EmptyString
  | String c rest =>
    String (if bool_decide (c = before) then after else c)
           (replace before after rest)
  end.

Definition at_index (s : string) (pos : Z) : option Ascii.ascii :=
  if (0 <=? pos) && (pos <? Z.of_nat (String.length s))
  then String.get (Z.to_nat pos) s else None.

Fixpoint set_index_nat (s : string) (pos : nat) (c : Ascii.ascii) : string :=
  match s, pos with
  | EmptyString, _ => EmptyString
  | String _ rest, O => String c rest
  | String d rest, S pos' => String d (set_index_nat rest pos' c)
  end.

Definition set_index (s : string) (pos : Z) (c : Ascii.ascii) : option string :=
  if (0 <=? pos) && (pos <? Z.of_nat (String.length s))
  then Some (set_index_nat s (Z.to_nat pos) c) else None.

Definition char_code (c : Ascii.ascii) : Z := Z.of_N (Ascii.N_of_ascii c).
Definition char_of (z : Z) : Ascii.ascii := Ascii.ascii_of_N (Z.to_N (z mod 256)).

Definition isDigit (s : string) (pos : Z) : option bool :=
  c ← at_index s pos;
  Some ((char_code "0"%char <=? char_code c) && (char_code c <=? char_code "9"%char)).

Definition char_is (s : string) (pos : Z) (c : Ascii.ascii) : option bool :=
  d ← at_index s pos; Some (bool_decide (d = c)).

(** The short-circuit conjunction of tests that may read out of bounds. *)
Definition and_then (a b : option bool) : option bool :=
  match a with
  | Some true => b
  | Some false => Some false
  | None => None
  end.

(** What the loop does to [sname] once it has met a plugin of that name. *)
Definition bump_name (sname : string) : option string :=
  let len := Z.of_nat (String.length sname) in
  (* 1 digit, ex: " (2)" *)
  match and_then (char_is sname (len - 4) " "%char)
        (and_then (char_is sname (len - 3) "("%char)
        (and_then (isDigit sname (len - 2))
                  (char_is sname (len - 1) ")"%char))) with
  | None => None
  | Some true =>
    d ← at_index sname (len - 2);
    let number := char_code d - char_code "0"%char in
    if number =? 9 then Some (truncate (Z.to_nat (len - 4)) sname +:+ " (10)")
    else set_index sname (len - 2) (char_of (char_code "0"%char + number + 1))
  | Some false =>
    (* 2 digits, ex: " (11)" *)
    match and_then (char_is sname (len - 5) " "%char)
          (and_then (char_is sname (len - 4) "("%char)
          (and_then (isDigit sname (len - 3))
          (and_then (isDigit sname (len - 2))
                    (char_is sname (len - 1) ")"%char)))) with
    | None => None
    | Some true =>
      n2 ← at_index sname (len - 2);
      n3 ← at_index sname (len - 3);
      let n23 :=
        if bool_decide (n2 = "9"%char)
        then ("0"%char, char_of (char_code n3 + 1))
        else (char_of (char_code n2 + 1), n3) in
      s ← set_index sname (len - 2) (n23.1);
      set_index s (len - 3) (n23.2)
    | Some false => Some (sname +:+ " (2)")
    end
  end.

(** [for (unsigned short i=0; i < kData->curPluginCount; i++)] *)
Fixpoint getNewUniquePluginName_loop (e : CarlaEngine)
    (slots : list EnginePluginData) (fuel : nat) (i : Z) (sname : string)
  : option string :=
  match fuel with
  | O => None
  | S fuel' =>
    if i <? curPluginCount e then
      slot ← slots !! Z.to_nat i;
      p ← plugin slot;
      pl ← heap e !! p;
      let next := (i + 1) mod 2 ^ 16 in
      if match p_name pl with
         | Some pluginName => negb (bool_decide (sname = pluginName))
         | None => false
         end
      then getNewUniquePluginName_loop e slots fuel' next sname
      else
        sname ← bump_name sname;
        getNewUniquePluginName_loop e slots fuel' next sname
    else Some sname
  end.

Section Naming.

(** [STR_MAX], a constant of [carla_utils.hpp]. *)
Variable STR_MAX : Z.

Definition maxClientNameSize : Z := STR_MAX / 2.

Definition getNewUniquePluginName (e : CarlaEngine) (name : string)
  : option string :=
  match plugins e with
  | None => Some "(No name)"
  | Some slots =>
    if bool_decide (name = "") then Some "(No name)"
    else
      let sname := truncate (Z.to_nat (uint32 (maxClientNameSize - 5 - 1))) name in
      let sname := replace ":"%char "."%char sname in
      getNewUniquePluginName_loop e slots (S (Z.to_nat (curPluginCount e))) 0 sname
  end.

End Naming.

(** *** Plugin lookup and peaks *)

(** [getPlugin]: the pointer of slot [id] when [id] is below the count and
    there is a table, null otherwise. *)
Definition getPlugin (e : CarlaEngine) (id : Z) : option (option positive) :=
  match plugins e with
  | Some slots =>
    if id <? curPluginCount e then
      slot ← slots !! Z.to_nat id; Some (plugin slot)
    else Some None
  | None => Some None
  end.

(** [getPluginUnchecked]: the pointer of slot [id], whatever the count. *)
Definition getPluginUnchecked (e : CarlaEngine) (id : Z)
  : option (option positive) :=
  slots ← plugins e;
  slot ← slots !! Z.to_nat id;
  Some (plugin slot).

(** Entry [id] of an array of [MAX_PEAKS] = 2 peaks. *)
Definition peak_at (peaks : Q * Q) (id : Z) : option Q :=
  if id =? 0 then Some (peaks.1)
  else if id =? 1 then Some (peaks.2)
  else None.

Definition getInputPeak (e : CarlaEngine) (pluginId id : Z) : option Q :=
  slots ← plugins e;
  slot ← slots !! Z.to_nat pluginId;
  peak_at (insPeak slot) id.

Definition getOutputPeak (e : CarlaEngine) (pluginId id : Z) : option Q :=
  slots ← plugins e;
  slot ← slots !! Z.to_nat pluginId;
  peak_at (outsPeak slot) id.

(** [setPeaks]: the two arrays the pointers give are copied into the slot. *)
Definition setPeaks (e : CarlaEngine) (pluginId : Z) (inPeaks outPeaks : Q * Q)
  : option CarlaEngine :=
  slots ← plugins e;
  slot ← slots !! Z.to_nat pluginId;
  Some (set_table e
          (Some (<[Z.to_nat pluginId := mkSlot (plugin slot) inPeaks outPeaks]> slots))
          (curPluginCount e) (heap e)).

(** *** Removing every plugin, closing *)

(** [waitForProccessEnd]: the idle action is published and then executed,
    by the audio thread at its next block when the engine runs, by the caller
    when it does not. *)
Definition waitForProccessEnd (e : CarlaEngine) : option CarlaEngine :=
  let e := set_nextAction e EnginePostActionIdle 0 in
  if isRunning e then proccessPendingEvents e else Some (doIdle e).

(** The loop of [removeAllPlugins]: each plugin of the old prefix is deleted
    and its slot cleared.  Deleting an object that is not on the heap has no
    result. *)
Fixpoint removeAllPlugins_loop (fuel : nat) (i oldCount : Z)
    (slots : list EnginePluginData) (h : gmap positive CarlaPlugin)
  : option (list EnginePluginData * gmap positive CarlaPlugin) :=
  match fuel with
  | O => None
  | S fuel' =>
    if i <? oldCount then
      slot ← slots !! Z.to_nat i;
      h ← match plugin slot with
          | Some p => _ ← h !! p; Some (delete p h)
          | None => Some h
          end;
      removeAllPlugins_loop fuel' (i + 1) oldCount
        (<[Z.to_nat i := emptySlot]> slots) h
    else Some (slots, h)
  end.

Definition removeAllPlugins (e : CarlaEngine) : option CarlaEngine :=
  let oldCount := curPluginCount e in
  let e := set_table e (plugins e) 0 (heap e) in
  e ← waitForProccessEnd e;
  if 0 <? oldCount then
    slots ← plugins e;
    '(slots, h) ← removeAllPlugins_loop (S (Z.to_nat oldCount)) 0 oldCount
                    slots (heap e);
    Some (set_table e (Some slots) (curPluginCount e) h)
  else Some e.

(** [close]: the table is given up; the plugin objects are not touched.
    The threads, the mutex and OSC are left out. *)
Definition close (e : CarlaEngine) : bool * CarlaEngine :=
  (true,
   mkEngine (fOptions e) (isRunning e) (type e) None 0 0 (heap e)
     (lastError e) (nextAction_opcode e) (nextAction_pluginId e) true
     (callbacks e) (procName e) (kData_callback e)).

(** *** Calls forwarded to the enabled plugins *)

(** The loop shared by [idle], [bufferSizeChanged] and [sampleRateChanged]:
    [for (i=0; i < curPluginCount; i++)
       if (plugin != nullptr && plugin->enabled()) plugin->...;]
    The result is the list of the ids of the slots whose plugin was called,
    in the order of the calls. *)
Fixpoint forward_loop (e : CarlaEngine) (fuel : nat) (i : Z) (calls : list Z)
  : option (list Z) :=
  match fuel with
  | O => None
  | S fuel' =>
    if i <? curPluginCount e then
      slots ← plugins e;
      slot ← slots !! Z.to_nat i;
      match plugin slot with
      | None => forward_loop e fuel' (i + 1) calls
      | Some p =>
        pl ← heap e !! p;
        if p_enabled pl then forward_loop e fuel' (i + 1) (calls ++ [i])
        else forward_loop e fuel' (i + 1) calls
      end
    else Some calls
  end.

(** [idle]: the slots whose plugin had [idleGui] called. *)
Definition idle (e : CarlaEngine) : option (list Z) :=
  forward_loop e (S (Z.to_nat (curPluginCount e))) 0 [].

(** [bufferSizeChanged]: the calls of [plugin->bufferSizeChanged], each with
    the slot and the argument. *)
Definition bufferSizeChanged (e : CarlaEngine) (newBufferSize : Z)
  : option (list (Z * Z)) :=
  match forward_loop e (S (Z.to_nat (curPluginCount e))) 0 [] with
  | Some calls => Some (map (λ i, (i, newBufferSize)) calls)
  | None => None
  end.

(** [sampleRateChanged]: the calls of [plugin->sampleRateChanged]. *)
Definition sampleRateChanged (e : CarlaEngine) (newSampleRate : Q)
  : option (list (Z * Q)) :=
  match forward_loop e (S (Z.to_nat (curPluginCount e))) 0 [] with
  | Some calls => Some (map (λ i, (i, newSampleRate)) calls)
  | None => None
  end.

(** *** Projects *)

(** [loadProject]: the body is commented out. *)
Definition loadProject (e : CarlaEngine) (filename : string) : bool := true.

(** The character that [\n] stands for in a C++ string. *)
Definition newline : string := String (Ascii.ascii_of_nat 10) EmptyString.

(** [saveProject]: the result, the text given to the stream [out], one
    piece per [<<], and the slots whose plugin had [getSaveState] called.
    The state obtained is not used.  Whether the file could be opened is not
    tested. *)
Definition saveProject (e : CarlaEngine) (filename : string)
  : option (bool * list string * list Z) :=
  let out := ["<?xml version='1.0' encoding='UTF-8'?>" +:+ newline;
              "<!DOCTYPE CARLA-PRESET>" +:+ newline;
              "<CARLA-PRESET VERSION='0.5.0'>" +:+ newline] in
  match forward_loop e (S (Z.to_nat (curPluginCount e))) 0 [] with
  | Some calls => Some (true, out ++ ["</CARLA-PRESET>" +:+ newline], calls)
  | None => None
  end.

(** *** Drivers *)

Section Drivers.

(** Whether [WANT_JACK] is defined, and, when [WANT_RTAUDIO] is, the names
    that [getRtAudioApiName] gives for the indices below
    [getRtAudioApiCount()]; both functions are in another file. *)
Variable WANT_JACK : bool.
Variable RtAudioApis : option (list string).

Definition getDriverCount : Z :=
  let count := 0 in
  let count := if WANT_JACK then uint32 (count + 1) else count in
  match RtAudioApis with
  | Some apis => uint32 (count + Z.of_nat (length apis))
  | None => count
  end.

(** [getDriverName]; a null result is [None]. *)
Definition getDriverName (index : Z) : option string :=
  let after_jack : option string + Z :=
    if WANT_JACK then
      if index =? 0 then inl (Some "JACK") else inr (uint32 (index - 1))
    else inr index in
  match after_jack with
  | inl r => r
  | inr index =>
    match RtAudioApis with
    | Some apis =>
      if index <? Z.of_nat (length apis) then apis !! Z.to_nat index else None
    | None => None
    end
  end.

End Drivers.

End Engine.

(** ** OSC messages to the control surface *)

Module Osc.

(** An argument of [lo_send], by its type tag: [i], [s], [d], [h]. *)
Inductive OscArg :=
| OscInt (i : Z)
| OscStr (s : string)
| OscDouble (d : Q)
| OscInt64 (h : Z).

(** What one [lo_send] gives to the network: the address, the type tags and
    the arguments. *)
Record OscMessage := mkMessage {
  osc_address : string;
  osc_types : string;
  osc_args : list OscArg
}.

(** [CarlaOscData]: the base path and the target address, which may be
    null. *)
Record CarlaOscData := mkOscData {
  path : string;
  target : option positive
}.

(** The body every sender shares:
    [if (oscData != nullptr && oscData->target != nullptr) {
       char target_path[strlen(oscData->path)+size];
       strcpy(target_path, oscData->path);
       strcat(target_path, suffix);
       lo_send(oscData->target, target_path, types, ...); }]
    The two copies write the characters of the path and of the suffix and a
    terminating zero; writing beyond the array has no result. *)
Definition send (oscData : option CarlaOscData) (size : Z) (suffix : string)
    (types : string) (args : list OscArg) : option (list OscMessage) :=
  match oscData with
  | None => Some []
  | Some d =>
    match target d with
    | None => Some []
    | Some _ =>
      let room := Z.of_nat (String.length (path d)) + size in
      if room <? Z.of_nat (String.length (path d))
                 + Z.of_nat (String.length suffix) + 1
      then None
      else Some [mkMessage (path d +:+ suffix) types args]
    end
  end.

Section Senders.

Variable oscData : option CarlaOscData.

Definition osc_send_control_add_plugin_start (pluginId : Z) (pluginName : string) :=
  send oscData 18 "/add_plugin_start" "is" [OscInt pluginId; OscStr pluginName].

Definition osc_send_control_add_plugin_end (pluginId : Z) :=
  send oscData 16 "/add_plugin_end" "i" [OscInt pluginId].

Definition osc_send_control_remove_plugin (pluginId : Z) :=
  send oscData 15 "/remove_plugin" "i" [OscInt pluginId].

Definition osc_send_control_set_plugin_data (pluginId type category hints : Z)
    (realName label maker copyright : string) (uniqueId : Z) :=
  send oscData 17 "/set_plugin_data" "iiiissssh"
    [OscInt pluginId; OscInt type; OscInt category; OscInt hints;
     OscStr realName; OscStr label; OscStr maker; OscStr copyright;
     OscInt64 uniqueId].

Definition osc_send_control_set_plugin_ports
    (pluginId audioIns audioOuts midiIns midiOuts cIns cOuts cTotals : Z) :=
  send oscData 18 "/set_plugin_ports" "iiiiiiii"
    [OscInt pluginId; OscInt audioIns; OscInt audioOuts; OscInt midiIns;
     OscInt midiOuts; OscInt cIns; OscInt cOuts; OscInt cTotals].

Definition osc_send_control_set_parameter_data (pluginId index type hints : Z)
    (name label : string) (current : Q) :=
  send oscData 20 "/set_parameter_data" "iiiissd"
    [OscInt pluginId; OscInt index; OscInt type; OscInt hints;
     OscStr name; OscStr label; OscDouble current].

Definition osc_send_control_set_parameter_ranges (pluginId index : Z)
    (min max def step stepSmall stepLarge : Q) :=
  send oscData 22 "/set_parameter_ranges" "iidddddd"
    [OscInt pluginId; OscInt index; OscDouble min; OscDouble max;
     OscDouble def; OscDouble step; OscDouble stepSmall; OscDouble stepLarge].

Definition osc_send_control_set_parameter_midi_cc (pluginId index cc : Z) :=
  send oscData 23 "/set_parameter_midi_cc" "iii"
    [OscInt pluginId; OscInt index; OscInt cc].

Definition osc_send_control_set_parameter_midi_channel (pluginId index channel : Z) :=
  send oscData 28 "/set_parameter_midi_channel" "iii"
    [OscInt pluginId; OscInt index; OscInt channel].

Definition osc_send_control_set_parameter_value (pluginId index : Z) (value : Q) :=
  send oscData 21 "/set_parameter_value" "iid"
    [OscInt pluginId; OscInt index; OscDouble value].

Definition osc_send_control_set_default_value (pluginId index : Z) (value : Q) :=
  send oscData 19 "/set_default_value" "iid"
    [OscInt pluginId; OscInt index; OscDouble value].

Definition osc_send_control_set_program (pluginId index : Z) :=
  send oscData 13 "/set_program" "ii" [OscInt pluginId; OscInt index].

Definition osc_send_control_set_program_count (pluginId count : Z) :=
  send oscData 19 "/set_program_count" "ii" [OscInt pluginId; OscInt count].

Definition osc_send_control_set_program_name (pluginId index : Z) (name : string) :=
  send oscData 18 "/set_program_name" "iis"
    [OscInt pluginId; OscInt index; OscStr name].

Definition osc_send_control_set_midi_program (pluginId index : Z) :=
  send oscData 18 "/set_midi_program" "ii" [OscInt pluginId; OscInt index].

Definition osc_send_control_set_midi_program_count (pluginId count : Z) :=
  send oscData 24 "/set_midi_program_count" "ii" [OscInt pluginId; OscInt count].

Definition osc_send_control_set_midi_program_data
    (pluginId index bank program : Z) (name : string) :=
  send oscData 23 "/set_midi_program_data" "iiiis"
    [OscInt pluginId; OscInt index; OscInt bank; OscInt program; OscStr name].

Definition osc_send_control_note_on (pluginId channel note velo : Z) :=
  send oscData 9 "/note_on" "iiii"
    [OscInt pluginId; OscInt channel; OscInt note; OscInt velo].

Definition osc_send_control_note_off (pluginId channel note : Z) :=
  send oscData 10 "/note_off" "iii"
    [OscInt pluginId; OscInt channel; OscInt note].

(** The two peak senders read the slot of the plugin, and only when there
    is a target. *)
Definition osc_send_control_set_input_peak_value (e : Engine.CarlaEngine)
    (pluginId portId : Z) : option (list OscMessage) :=
  match oscData ≫= target with
  | None => Some []
  | Some _ =>
    peak ← Engine.getInputPeak e pluginId (portId - 1);
    send oscData 22 "/set_input_peak_value" "iid"
      [OscInt pluginId; OscInt portId; OscDouble peak]
  end.

Definition osc_send_control_set_output_peak_value (e : Engine.CarlaEngine)
    (pluginId portId : Z) : option (list OscMessage) :=
  match oscData ≫= target with
  | None => Some []
  | Some _ =>
    peak ← Engine.getOutputPeak e pluginId (portId - 1);
    send oscData 23 "/set_output_peak_value" "iid"
      [OscInt pluginId; OscInt portId; OscDouble peak]
  end.

Definition osc_send_control_exit :=
  send oscData 6 "/exit" "" [].

(** [osc_send_peaks] of the build that is not the bridge; the two counts
    are what [plugin->audioInCount()] and [plugin->audioOutCount()] answer. *)
Definition osc_send_peaks (e : Engine.CarlaEngine)
    (audioInCount audioOutCount : Z) (id : Z) : option (list OscMessage) :=
  ins ← (if 0 <? audioInCount then
           m1 ← osc_send_control_set_input_peak_value e id 1;
           m2 ← osc_send_control_set_input_peak_value e id 2;
           Some (m1 ++ m2)
         else Some []);
  outs ← (if 0 <? audioOutCount then
            m1 ← osc_send_control_set_output_peak_value e id 1;
            m2 ← osc_send_control_set_output_peak_value e id 2;
            Some (m1 ++ m2)
          else Some []);
  Some (ins ++ outs).

End Senders.

(** The senders without an engine argument, as one type of requests. *)
Inductive ControlRequest :=
| AddPluginStart (pluginId : Z) (pluginName : string)
| AddPluginEnd (pluginId : Z)
| RemovePluginMsg (pluginId : Z)
| SetPluginData (pluginId type category hints : Z)
    (realName label maker copyright : string) (uniqueId : Z)
| SetPluginPorts (pluginId audioIns audioOuts midiIns midiOuts cIns cOuts cTotals : Z)
| SetParameterData (pluginId index type hints : Z) (name label : string) (current : Q)
| SetParameterRanges (pluginId index : Z) (min max def step stepSmall stepLarge : Q)
| SetParameterMidiCC (pluginId index cc : Z)
| SetParameterMidiChannel (pluginId index channel : Z)
| SetParameterValue (pluginId index : Z) (value : Q)
| SetDefaultValue (pluginId index : Z) (value : Q)
| SetProgram (pluginId index : Z)
| SetProgramCount (pluginId count : Z)
| SetProgramName (pluginId index : Z) (name : string)
| SetMidiProgram (pluginId index : Z)
| SetMidiProgramCount (pluginId count : Z)
| SetMidiProgramData (pluginId index bank program : Z) (name : string)
| NoteOn (pluginId channel note velo : Z)
| NoteOff (pluginId channel note : Z)
| Exit.

Definition perform (oscData : option CarlaOscData) (r : ControlRequest)
  : option (list OscMessage) :=
  match r with
  | AddPluginStart a b => osc_send_control_add_plugin_start oscData a b
  | AddPluginEnd a => osc_send_control_add_plugin_end oscData a
  | RemovePluginMsg a => osc_send_control_remove_plugin oscData a
  | SetPluginData a b c d e f g h i =>
    osc_send_control_set_plugin_data oscData a b c d e f g h i
  | SetPluginPorts a b c d e f g h =>
    osc_send_control_set_plugin_ports oscData a b c d e f g h
  | SetParameterData a b c d e f g =>
    osc_send_control_set_parameter_data oscData a b c d e f g
  | SetParameterRanges a b c d e f g h =>
    osc_send_control_set_parameter_ranges oscData a b c d e f g h
  | SetParameterMidiCC a b c => osc_send_control_set_parameter_midi_cc oscData a b c
  | SetParameterMidiChannel a b c =>
    osc_send_control_set_parameter_midi_channel oscData a b c
  | SetParameterValue a b c => osc_send_control_set_parameter_value oscData a b c
  | SetDefaultValue a b c => osc_send_control_set_default_value oscData a b c
  | SetProgram a b => osc_send_control_set_program oscData a b
  | SetProgramCount a b => osc_send_control_set_program_count oscData a b
  | SetProgramName a b c => osc_send_control_set_program_name oscData a b c
  | SetMidiProgram a b => osc_send_control_set_midi_program oscData a b
  | SetMidiProgramCount a b => osc_send_control_set_midi_program_count oscData a b
  | SetMidiProgramData a b c d e =>
    osc_send_control_set_midi_program_data oscData a b c d e
  | NoteOn a b c d => osc_send_control_note_on oscData a b c d
  | NoteOff a b c => osc_send_control_note_off oscData a b c
  | Exit => osc_send_control_exit oscData
  end.

(** The type tag that stands for an argument. *)
Definition tag_of (a : OscArg) : Ascii.ascii :=
  match a with
  | OscInt _ => "i"%char
  | OscStr _ => "s"%char
  | OscDouble _ => "d"%char
  | OscInt64 _ => "h"%char
  end.

End Osc.

(** ** OSC messages of the bridge build *)

(** The senders of the build with [BUILD_BRIDGE], which replace the control
    senders there; they share the body of [Osc.send].  The two peak senders
    of that build are compiled out. *)
Module OscBridge.

Import Osc.

Section Senders.

Variable oscData : option CarlaOscData.

Definition osc_send_bridge_audio_count (ins outs total : Z) :=
  send oscData 20 "/bridge_audio_count" "iii" [OscInt ins; OscInt outs; OscInt total].

Definition osc_send_bridge_midi_count (ins outs total : Z) :=
  send oscData 19 "/bridge_midi_count" "iii" [OscInt ins; OscInt outs; OscInt total].

Definition osc_send_bridge_parameter_count (ins outs total : Z) :=
  send oscData 24 "/bridge_parameter_count" "iii"
    [OscInt ins; OscInt outs; OscInt total].

Definition osc_send_bridge_program_count (count : Z) :=
  send oscData 22 "/bridge_program_count" "i" [OscInt count].

Definition osc_send_bridge_midi_program_count (count : Z) :=
  send oscData 27 "/bridge_midi_program_count" "i" [OscInt count].

Definition osc_send_bridge_plugin_info (category hints : Z)
    (name label maker copyright : string) (uniqueId : Z) :=
  send oscData 20 "/bridge_plugin_info" "iissssh"
    [OscInt category; OscInt hints; OscStr name; OscStr label; OscStr maker;
     OscStr copyright; OscInt64 uniqueId].

Definition osc_send_bridge_parameter_info (index : Z) (name unit : string) :=
  send oscData 23 "/bridge_parameter_info" "iss"
    [OscInt index; OscStr name; OscStr unit].

Definition osc_send_bridge_parameter_data
    (index type rindex hints midiChannel midiCC : Z) :=
  send oscData 23 "/bridge_parameter_data" "iiiiii"
    [OscInt index; OscInt type; OscInt rindex; OscInt hints;
     OscInt midiChannel; OscInt midiCC].

Definition osc_send_bridge_parameter_ranges (index : Z)
    (def min max step stepSmall stepLarge : Q) :=
  send oscData 25 "/bridge_parameter_ranges" "idddddd"
    [OscInt index; OscDouble def; OscDouble min; OscDouble max;
     OscDouble step; OscDouble stepSmall; OscDouble stepLarge].

Definition osc_send_bridge_program_info (index : Z) (name : string) :=
  send oscData 21 "/bridge_program_info" "is" [OscInt index; OscStr name].

Definition osc_send_bridge_midi_program_info (index bank program : Z)
    (label : string) :=
  send oscData 26 "/bridge_midi_program_info" "iiis"
    [OscInt index; OscInt bank; OscInt program; OscStr label].

Definition osc_send_bridge_configure (key value : string) :=
  send oscData 18 "/bridge_configure" "ss" [OscStr key; OscStr value].

Definition osc_send_bridge_set_parameter_value (index : Z) (value : Q) :=
  send oscData 28 "/bridge_set_parameter_value" "id"
    [OscInt index; OscDouble value].

Definition osc_send_bridge_set_default_value (index : Z) (value : Q) :=
  send oscData 26 "/bridge_set_default_value" "id"
    [OscInt index; OscDouble value].

Definition osc_send_bridge_set_program (index : Z) :=
  send oscData 20 "/bridge_set_program" "i" [OscInt index].

Definition osc_send_bridge_set_midi_program (index : Z) :=
  send oscData 25 "/bridge_set_midi_program" "i" [OscInt index].

Definition osc_send_bridge_set_custom_data (type key value : string) :=
  send oscData 24 "/bridge_set_custom_data" "sss"
    [OscStr type; OscStr key; OscStr value].

Definition osc_send_bridge_set_chunk_data (chunkFile : string) :=
  send oscData 23 "/bridge_set_chunk_data" "s" [OscStr chunkFile].

End Senders.

(** The bridge senders as one type of requests. *)
Inductive BridgeRequest :=
| AudioCount (ins outs total : Z)
| MidiCount (ins outs total : Z)
| ParameterCount (ins outs total : Z)
| ProgramCount (count : Z)
| MidiProgramCount (count : Z)
| PluginInfo (category hints : Z) (name label maker copyright : string)
    (uniqueId : Z)
| ParameterInfo (index : Z) (name unit : string)
| ParameterData (index type rindex hints midiChannel midiCC : Z)
| ParameterRanges (index : Z) (def min max step stepSmall stepLarge : Q)
| ProgramInfo (index : Z) (name : string)
| MidiProgramInfo (index bank program : Z) (label : string)
| Configure (key value : string)
| SetParameterValueB (index : Z) (value : Q)
| SetDefaultValueB (index : Z) (value : Q)
| SetProgramB (index : Z)
| SetMidiProgramB (index : Z)
| SetCustomData (type key value : string)
| SetChunkData (chunkFile : string).

Definition perform (oscData : option CarlaOscData) (r : BridgeRequest)
  : option (list OscMessage) :=
  match r with
  | AudioCount a b c => osc_send_bridge_audio_count oscData a b c
  | MidiCount a b c => osc_send_bridge_midi_count oscData a b c
  | ParameterCount a b c => osc_send_bridge_parameter_count oscData a b c
  | ProgramCount a => osc_send_bridge_program_count oscData a
  | MidiProgramCount a => osc_send_bridge_midi_program_count oscData a
  | PluginInfo a b c d e f g => osc_send_bridge_plugin_info oscData a b c d e f g
  | ParameterInfo a b c => osc_send_bridge_parameter_info oscData a b c
  | ParameterData a b c d e f => osc_send_bridge_parameter_data oscData a b c d e f
  | ParameterRanges a b c d e f g =>
    osc_send_bridge_parameter_ranges oscData a b c d e f g
  | ProgramInfo a b => osc_send_bridge_program_info oscData a b
  | MidiProgramInfo a b c d => osc_send_bridge_midi_program_info oscData a b c d
  | Configure a b => osc_send_bridge_configure oscData a b
  | SetParameterValueB a b => osc_send_bridge_set_parameter_value oscData a b
  | SetDefaultValueB a b => osc_send_bridge_set_default_value oscData a b
  | SetProgramB a => osc_send_bridge_set_program oscData a
  | SetMidiProgramB a => osc_send_bridge_set_midi_program oscData a
  | SetCustomData a b c => osc_send_bridge_set_custom_data oscData a b c
  | SetChunkData a => osc_send_bridge_set_chunk_data oscData a
  end.

End OscBridge.

(** ** Sequences of table operations *)

Inductive TableOp :=
| AddPlugin (btype : Engine.BinaryType) (ptype : Engine.PluginType)
    (filename : string) (name : option string) (label : string)
| RemovePlugin (id : Z).

Section Run.

Variable BINARY_NATIVE : Engine.BinaryType.
Variable newPlugin : Engine.PluginType → Engine.Initializer → Engine.CtorResult.

Definition step (e : Engine.CarlaEngine) (op : TableOp)
  : option (bool * Engine.CarlaEngine) :=
  match op with
  | AddPlugin btype ptype filename name label =>
    Engine.addPlugin BINARY_NATIVE newPlugin e btype ptype filename name label
  | RemovePlugin id => Engine.removePlugin e id
  end.

Fixpoint run (e : Engine.CarlaEngine) (ops : list TableOp)
  : option Engine.CarlaEngine :=
  match ops with
  | [] => Some e
  | op :: ops' => r ← step e op; run (r.2) ops'
  end.

End Run.

(** ** Concrete ports and engines for the examples *)

(** A fresh patchbay output port in an empty event memory, and the memory
    after one control write. *)
Definition demo_port : EventPort.CarlaEngineEventPort :=
  (EventPort.new_port false PROCESS_MODE_PATCHBAY ∅).1.

Definition demo_mem : gmap positive (list EngineEvent) :=
  (EventPort.new_port false PROCESS_MODE_PATCHBAY ∅).2.

Definition demo_mem1 : gmap positive (list EngineEvent) :=
  default ∅ (EventPort.writeControlEvent demo_mem demo_port 5 3
               kEngineControlEventTypeParameter 7 (1 # 2)).

Definition demo_events1 : list EngineEvent :=
  default [] (demo_mem1 !! 1%positive).

(** An engine in rack mode after [init], with room for 16 plugins and a
    callback function registered, and constructors that always succeed with
    an enabled plugin of the name asked for. *)
Definition demo_options : Engine.EngineOptions :=
  Engine.mkOptions PROCESS_MODE_CONTINUOUS_RACK 200 512 44100
    false false false false 4000 "" "" "" "" "" (λ _, "").

Definition demo_engine : Engine.CarlaEngine :=
  Engine.init 16 999 99
    (Engine.mkEngine demo_options false Engine.kEngineTypeJack None 0 0 ∅ ""
       Engine.EnginePostActionNull 0 false [] "" (Some 1%positive))
    "Carla".

Definition demo_ctor (_ : Engine.PluginType) (i : Engine.Initializer)
  : Engine.CtorResult :=
  Engine.CtorOk (Engine.init_name i) true.

Definition add (name : string) : TableOp :=
  AddPlugin Engine.BINARY_POSIX64 Engine.PLUGIN_INTERNAL "file" (Some name) "label".

(** The engine after adding plugins of the given names in order. *)
Definition demo_with (names : list string) : Engine.CarlaEngine :=
  default demo_engine
    (run Engine.BINARY_POSIX64 demo_ctor demo_engine (add <$> names)).

(** The rack-mode engine with bridges preferred and a 32-bit bridge set,
    both through [setOption]. *)
Definition demo_bridged : Engine.CarlaEngine :=
  Engine.setOption
    (Engine.setOption demo_engine Engine.OPTION_PREFER_PLUGIN_BRIDGES 1 "")
    Engine.OPTION_PATH_BRIDGE_POSIX32 0 "carla-bridge-posix32".

(** Three plugins added, the first removed twice, a fourth added: the table
    is then [C; D] with a copy of the pointer to C left in slot 2.  Then the
    removal of id 2, which is not below the count. *)
Definition demo_six : Engine.CarlaEngine :=
  default demo_engine
    (run Engine.BINARY_POSIX64 demo_ctor demo_engine
       [add "A"; add "B"; add "C"; RemovePlugin 0; RemovePlugin 0; add "D"]).

Definition demo_seven : Engine.CarlaEngine :=
  (default (false, demo_six) (Engine.removePlugin demo_six 2)).2.

(** ** The plugin table invariant *)

(** The occupied prefix is dense: every slot below [curPluginCount] points
    to a live plugin object whose id is the index of the slot. *)
Definition dense (e : Engine.CarlaEngine) : Prop :=
  ∀ i, 0 ≤ i < Engine.curPluginCount e →
    ∃ slots slot p pl,
      Engine.plugins e = Some slots
      ∧ slots !! Z.to_nat i = Some slot
      ∧ Engine.plugin slot = Some p
      ∧ Engine.heap e !! p = Some pl
      ∧ Engine.p_id pl = i.

(** The table of an initialised engine: the array has [maxPluginNumber]
    slots, the count is within it, and the prefix is dense. *)
Definition table_ok (e : Engine.CarlaEngine) : Prop :=
  (∃ slots, Engine.plugins e = Some slots
            ∧ Z.of_nat (length slots) = Engine.maxPluginNumber e)
  ∧ 0 ≤ Engine.curPluginCount e ≤ Engine.maxPluginNumber e
  ∧ Engine.maxPluginNumber e < 2 ^ 32
  ∧ dense e.

(** The plugin object slot [i] points to, when it points to a live one. *)
Definition plugin_at (e : Engine.CarlaEngine) (i : Z) : option Engine.CarlaPlugin :=
  slots ← Engine.plugins e;
  slot ← slots !! Z.to_nat i;
  p ← Engine.plugin slot;
  Engine.heap e !! p.

Definition enabled_at (e : Engine.CarlaEngine) (i : Z) : bool :=
  match plugin_at e i with
  | Some pl => Engine.p_enabled pl
  | None => false
  end.

(** The names of the plugins of the occupied prefix, in slot order. *)
Definition plugin_names (e : Engine.CarlaEngine) : list (option string) :=
  omap (λ i, Engine.p_name <$> plugin_at e i) (seqZ 0 (Engine.curPluginCount e)).

(** What the specification says of a rack block: [process] is called once
    for each enabled plugin, by ascending id. *)
Definition spec_process_calls (e : Engine.CarlaEngine) : list Z :=
  filter (λ i, enabled_at e i = true) (seqZ 0 (Engine.curPluginCount e)).

(** An operation that respects what [removePlugin] asserts of its argument,
    [id < curPluginCount]. *)
Definition in_range (e : Engine.CarlaEngine) (op : TableOp) : Prop :=
  match op with
  | AddPlugin _ _ _ _ _ => True
  | RemovePlugin id => 0 ≤ id < Engine.curPluginCount e
  end.

Section InRange.

Variable BINARY_NATIVE : Engine.BinaryType.
Variable newPlugin : Engine.PluginType → Engine.Initializer → Engine.CtorResult.

(** A sequence all of whose removals are in range when they are made. *)
Fixpoint all_in_range (e : Engine.CarlaEngine) (ops : list TableOp) : Prop :=
  match ops with
  | [] => True
  | op :: ops' =>
    in_range e op
    ∧ ∀ r, step BINARY_NATIVE newPlugin e op = Some r → all_in_range (r.2) ops'
  end.

End InRange.

(** ** Vocabulary for the statements about the engine *)

(** The options that [setOption] guards with
    [CARLA_ENGINE_SET_OPTION_RUNNING_CHECK]. *)
Definition gated (option : Engine.OptionsType) : bool :=
  match option with
  | Engine.OPTION_PROCESS_MODE | Engine.OPTION_MAX_PARAMETERS
  | Engine.OPTION_PREFERRED_BUFFER_SIZE | Engine.OPTION_PREFERRED_SAMPLE_RATE
  | Engine.OPTION_FORCE_STEREO | Engine.OPTION_USE_DSSI_VST_CHUNKS
  | Engine.OPTION_PREFER_PLUGIN_BRIDGES | Engine.OPTION_PREFER_UI_BRIDGES
  | Engine.OPTION_OSC_UI_TIMEOUT => true
  | _ => false
  end.

(** The bridge path an option stores, for the options that store one. *)
Definition stored_path (o : Engine.EngineOptions) (opt : Engine.OptionsType)
  : option string :=
  match opt with
  | Engine.OPTION_PATH_BRIDGE_NATIVE => Some (Engine.bridge_native o)
  | Engine.OPTION_PATH_BRIDGE_POSIX32 => Some (Engine.bridge_posix32 o)
  | Engine.OPTION_PATH_BRIDGE_POSIX64 => Some (Engine.bridge_posix64 o)
  | Engine.OPTION_PATH_BRIDGE_WIN32 => Some (Engine.bridge_win32 o)
  | Engine.OPTION_PATH_BRIDGE_WIN64 => Some (Engine.bridge_win64 o)
  | Engine.OPTION_PATH_BRIDGE_UI k => Some (Engine.bridge_ui o k)
  | _ => None
  end.

(** The additions minus the removals that a list of callbacks reports. *)
Fixpoint balance (cbs : list (Engine.CallbackType * Z)) : Z :=
  match cbs with
  | [] => 0
  | (Engine.CALLBACK_PLUGIN_ADDED, _) :: rest => balance rest + 1
  | (Engine.CALLBACK_PLUGIN_REMOVED, _) :: rest => balance rest - 1
  end.

(** The driver names in the order of their indices. *)
Definition drivers (WANT_JACK : bool) (RtAudioApis : option (list string))
  : list string :=
  (if WANT_JACK then ["JACK"] else []) ++ default [] RtAudioApis.

(** An OSC target for the examples. *)
Definition demo_osc : Osc.CarlaOscData :=
  Osc.mkOscData "/Carla" (Some 1%positive).

(** ** Sequences of writes on an event port *)

(** The arguments of one call of [writeControlEvent]. *)
Record ControlWrite := mkWrite {
  w_time : Z;
  w_channel : Z;
  w_type : EngineControlEventType;
  w_param : Z;
  w_value : Q
}.

(** The calls that pass the two tests on the arguments. *)
Definition accepted (w : ControlWrite) : bool :=
  negb (bool_decide (w_type w = kEngineControlEventTypeNull))
  && (w_channel w <? MAX_MIDI_CHANNELS).

(** The event a call stores into a zeroed entry. *)
Definition control_event (w : ControlWrite) : EngineEvent :=
  EventPort.fill_control (w_time w) (w_channel w) (w_type w) (w_param w)
    (w_value w) zeroEvent.

(** The calls made one after the other on the same port. *)
Fixpoint write_all (mem : gmap positive (list EngineEvent))
    (p : EventPort.CarlaEngineEventPort) (ws : list ControlWrite)
  : option (gmap positive (list EngineEvent)) :=
  match ws with
  | [] => Some mem
  | w :: ws' =>
    mem' ← EventPort.writeControlEvent mem p (w_time w) (w_channel w)
             (w_type w) (w_param w) (w_value w);
    write_all mem' p ws'
  end.

(** Three writes for the examples: the second has the Null type and the
    third a channel that does not exist. *)
Definition demo_writes : list ControlWrite :=
  [mkWrite 0 0 kEngineControlEventTypeParameter 7 (1 # 2);
   mkWrite 1 0 kEngineControlEventTypeNull 7 (1 # 2);
   mkWrite 2 16 kEngineControlEventTypeParameter 7 (1 # 2);
   mkWrite 3 15 kEngineControlEventTypeMidiProgram 5 0].

(** The memory after a short MIDI message was written to the fresh port. *)
Definition demo_mem_midi : gmap positive (list EngineEvent) :=
  default ∅ (EventPort.writeMidiEvent demo_mem demo_port 9 2 1
               (Some (144, 60, 100)) 3).

(** A patchbay port whose 512 entries are all taken. *)
Definition demo_mem_full : gmap positive (list EngineEvent) :=
  <[1%positive :=
      replicate 512 (control_event
                       (mkWrite 0 0 kEngineControlEventTypeParameter 7 0))]>
    demo_mem.

(** ** Engines for the examples of the peaks and of closing *)

(** The one-plugin engine after the peaks of slot 0 were set. *)
Definition demo_peaks : Engine.CarlaEngine :=
  default demo_engine
    (Engine.setPeaks (demo_with ["a"]) 0 (1 # 2, 1 # 4) (3 # 4, 1%Q)).

(** An audio memory with two input arrays, at 1 and 2, and two output
    arrays, at 3 and 4, of two samples each. *)
Definition demo_audio : gmap positive (list Q) :=
  <[4%positive := [9%Q; 9%Q]]>
    (<[3%positive := [9%Q; 9%Q]]>
       (<[2%positive := [(-1)%Q; (-1)%Q]]>
          (<[1%positive := [1%Q; 1%Q]]> ∅))).

(** The fresh engine before any callback function is registered. *)
Definition demo_unregistered : Engine.CarlaEngine :=
  Engine.setCallback demo_engine None.

(** The one-plugin engine while it runs. *)
Definition demo_running : Engine.CarlaEngine :=
  Engine.mkEngine demo_options true Engine.kEngineTypeJack
    (Engine.plugins (demo_with ["a"])) 1 16 (Engine.heap (demo_with ["a"])) ""
    Engine.EnginePostActionNull 0 false [] "Carla" (Some 1%positive).

(** The one-plugin engine with the removal of plugin 0 pending, as the
    audio thread finds it at the top of a block. *)
Definition demo_pending : Engine.CarlaEngine :=
  Engine.set_nextAction (demo_with ["a"]) Engine.EnginePostActionRemovePlugin 0.



(** ** Facts about event ports *)

Section EventPortFacts.

Import EventPort.

Implicit Types (events : list EngineEvent) (mem : gmap positive (list EngineEvent)).
Implicit Types (p : CarlaEngineEventPort).

Lemma first_null_le events : (first_null events ≤ length events)%nat.
Proof.
  induction events as [|e rest IH]; simpl; [lia|].
  destruct (is_null_event e); lia.
Qed.

Lemma first_null_lookup events :
  (first_null events < length events)%nat →
  ∃ e, events !! first_null events = Some e ∧ ev_type e = kEngineEventTypeNull.
Proof.
  induction events as [|e rest IH]; simpl; [lia|].
  destruct (is_null_event e) eqn:Hn; simpl.
  - intros _. exists e. split; [done|].
    unfold is_null_event in Hn. by apply bool_decide_eq_true in Hn.
  - intros H. apply IH. lia.
Qed.

Lemma first_null_before events j e :
  (j < first_null events)%nat → events !! j = Some e →
  ev_type e ≠ kEngineEventTypeNull.
Proof.
  revert j. induction events as [|e0 rest IH]; simpl; intros j; [lia|].
  destruct (is_null_event e0) eqn:Hn; [lia|].
  destruct j as [|j]; simpl.
  - intros _ [= ->]. unfold is_null_event in Hn.
    by apply bool_decide_eq_false in Hn.
  - intros Hj. apply IH. lia.
Qed.

Lemma first_null_exists events k e :
  events !! k = Some e → ev_type e = kEngineEventTypeNull →
  (first_null events < length events)%nat.
Proof.
  revert k. induction events as [|e0 rest IH]; intros k; [done|]. simpl.
  destruct (is_null_event e0) eqn:Hn; [lia|].
  destruct k as [|k]; simpl.
  - intros [= ->] He. unfold is_null_event in Hn.
    apply bool_decide_eq_false in Hn. done.
  - intros Hk He. specialize (IH _ Hk He). lia.
Qed.

Lemma first_null_full events :
  Forall (λ e, ev_type e ≠ kEngineEventTypeNull) events →
  first_null events = length events.
Proof.
  induction 1 as [|e rest He _ IH]; [done|]. simpl.
  unfold is_null_event. rewrite bool_decide_eq_false_2 by done. by rewrite IH.
Qed.

(** The scan of an array of exactly [kMax] events ends at the first Null
    entry at or after its starting index. *)
Lemma getEventCount_loop_spec events fuel (i : nat) count :
  (i ≤ length events)%nat → (length events - i < fuel)%nat →
  getEventCount_loop events (Z.of_nat (length events)) fuel (Z.of_nat i) count
  = Some (count + Z.of_nat (first_null (drop i events))).
Proof.
  revert i count. induction fuel as [|fuel IH]; intros i count Hi Hf; [lia|].
  simpl. destruct (Z.ltb_spec (Z.of_nat i) (Z.of_nat (length events))) as [Hlt|Hge].
  - rewrite Nat2Z.id.
    destruct (lookup_lt_is_Some_2 events i) as [e He]; [lia|].
    rewrite He. simpl. rewrite (drop_S _ _ _ He). simpl.
    destruct (is_null_event e).
    + f_equal. lia.
    + replace (Z.of_nat i + 1) with (Z.of_nat (S i)) by lia.
      rewrite IH by lia. f_equal. lia.
  - rewrite drop_ge by lia. simpl. f_equal. lia.
Qed.

(** The scan reads the array: on one that is shorter than [kMax] and has no
    Null entry it runs off the end, which the model reports as no result. *)
Lemma getEventCount_loop_overrun events kMax fuel (i : nat) count :
  Forall (λ e, ev_type e ≠ kEngineEventTypeNull) events →
  (i ≤ length events)%nat → Z.of_nat (length events) < kMax →
  getEventCount_loop events kMax fuel (Z.of_nat i) count = None.
Proof.
  intros Hall. revert i count.
  induction fuel as [|fuel IH]; intros i count Hi Hk; [done|].
  simpl. destruct (Z.ltb_spec (Z.of_nat i) kMax) as [Hlt|Hge]; [|lia].
  rewrite Nat2Z.id. destruct (events !! i) as [e|] eqn:He; [|done]. simpl.
  assert (ev_type e ≠ kEngineEventTypeNull) as Hne.
  { rewrite Forall_forall in Hall. apply Hall. by eapply list_elem_of_lookup_2. }
  unfold is_null_event. rewrite bool_decide_eq_false_2 by done.
  replace (Z.of_nat i + 1) with (Z.of_nat (S i)) by lia.
  apply IH; [|done]. apply lookup_lt_Some in He. lia.
Qed.

(** On a port the constructor made, an input with a buffer is counted by
    [first_null]. *)
Lemma getEventCount_ok mem p a events :
  port_ok mem p → kIsInput p = true → fBuffer p = Some a →
  mem !! a = Some events →
  getEventCount mem p = Some (Z.of_nat (first_null events))
  ∧ Z.of_nat (length events) = kMaxEventCount p.
Proof.
  intros [_ Hbuf] Hin Ha Hm.
  destruct (Hbuf a Ha) as (Hmode & events' & Hm' & Hlen).
  assert (events' = events) as -> by congruence.
  split; [|done].
  pose proof (getEventCount_loop_spec events (S (length events)) 0 0) as Hloop.
  rewrite drop_0 in Hloop.
  unfold getEventCount. rewrite Hin, Ha, Hmode, Hm.
  cbn [negb mbind option_bind].
  rewrite <- Hlen, Nat2Z.id. apply Hloop; lia.
Qed.

(** C7: on an input port whose buffer holds a Null entry, [getEventCount]
    returns the index of the first Null entry, which is the number of
    non-Null entries met from index 0; on an output port and on a port
    without a buffer it returns 0. *)
Theorem getEventCount_first_null mem p :
  (kIsInput p = false → getEventCount mem p = Some 0)
  ∧ (fBuffer p = None → getEventCount mem p = Some 0)
  ∧ (∀ a events k e,
       port_ok mem p → kIsInput p = true → fBuffer p = Some a →
       mem !! a = Some events →
       events !! k = Some e → ev_type e = kEngineEventTypeNull →
       ∃ n : nat,
         getEventCount mem p = Some (Z.of_nat n)
         ∧ (∃ e', events !! n = Some e' ∧ ev_type e' = kEngineEventTypeNull)
         ∧ (∀ j e', (j < n)%nat → events !! j = Some e' →
              ev_type e' ≠ kEngineEventTypeNull)).
Proof.
  split; [|split].
  - intros H. unfold getEventCount. by rewrite H.
  - intros H. unfold getEventCount. rewrite H. by destruct (kIsInput p).
  - intros a events k e Hok Hin Ha Hm Hk He.
    exists (first_null events). split; [|split].
    + by apply (getEventCount_ok mem p a events).
    + apply first_null_lookup. by eapply first_null_exists.
    + intros j e' Hj Hje. by eapply first_null_before.
Qed.

(** C8: [getEvent] always has a result; it is the Null fallback event when
    the port is an output, has no buffer, or the index is at or beyond the
    capacity, and the entry of the buffer at that index otherwise. *)
Theorem getEvent_total mem p index :
  port_ok mem p → 0 ≤ index →
  ∃ e, getEvent mem p index = Some e
    ∧ (kIsInput p = false ∨ fBuffer p = None ∨ kMaxEventCount p ≤ index →
       e = kFallbackEngineEvent ∧ ev_type e = kEngineEventTypeNull)
    ∧ (∀ a, kIsInput p = true → fBuffer p = Some a → index < kMaxEventCount p →
       ∃ events, mem !! a = Some events ∧ events !! Z.to_nat index = Some e).
Proof.
  intros [_ Hbuf] Hidx. unfold getEvent.
  destruct (kIsInput p) eqn:Hin; simpl.
  2:{ eexists. split; [done|]. split; [done|]. intros; done. }
  destruct (fBuffer p) as [a|] eqn:Ha.
  2:{ eexists. split; [done|]. split; [done|]. intros; done. }
  destruct (Hbuf a eq_refl) as (Hmode & events & Hm & Hlen).
  destruct (Z.leb_spec (kMaxEventCount p) index) as [Hge|Hlt].
  { eexists. split; [done|]. split; [done|]. intros; lia. }
  rewrite Hmode, Hm. simpl.
  destruct (lookup_lt_is_Some_2 events (Z.to_nat index)) as [e He]; [lia|].
  exists e. split; [done|]. split.
  - intros [?|[?|?]]; [done|done|lia].
  - intros a' _ [= <-] _. by exists events.
Qed.

(** C10: on an input port in rack or patchbay mode [getEventCount] has a
    result, which is at most the capacity; no entry outside the array is
    read, since such a read leaves the model without a result.  When no entry
    is Null the result is the capacity, [RACK_EVENT_COUNT] or
    [PATCHBAY_EVENT_COUNT] by the mode. *)
Theorem getEventCount_bounded mem p :
  port_ok mem p → kIsInput p = true →
  rack_or_patchbay (kProcessMode p) = true →
  ∃ n, getEventCount mem p = Some n
    ∧ 0 ≤ n ≤ kMaxEventCount p
    ∧ (∀ a events, fBuffer p = Some a → mem !! a = Some events →
         Forall (λ e, ev_type e ≠ kEngineEventTypeNull) events →
         n = kMaxEventCount p
         ∧ n = if bool_decide (kProcessMode p = PROCESS_MODE_CONTINUOUS_RACK)
               then RACK_EVENT_COUNT else PATCHBAY_EVENT_COUNT).
Proof.
  intros Hok Hin Hmode.
  destruct (fBuffer p) as [a|] eqn:Ha.
  - destruct Hok as [Hcap Hbuf].
    destruct (Hbuf a Ha) as (_ & events & Hm & Hlen).
    destruct (getEventCount_ok mem p a events) as [Hc _]; [done..|].
    exists (Z.of_nat (first_null events)). split; [done|].
    pose proof (first_null_le events). split; [lia|].
    intros a' events' [= <-] Hm' Hall.
    assert (events' = events) as -> by congruence.
    rewrite (first_null_full _ Hall). split; [done|]. by rewrite Hlen.
  - exists 0. split.
    + unfold getEventCount. by rewrite Hin, Ha.
    + split; [|intros; done].
      destruct Hok as [-> _]. unfold RACK_EVENT_COUNT, PATCHBAY_EVENT_COUNT.
      case_bool_decide; lia.
Qed.

(** A write loop that changed the array filled the entry at which the
    counting scan of the same array stops. *)
Lemma write_loop_changed fill events kMax fuel i count events' :
  0 ≤ i →
  write_loop fill events kMax fuel i = Some events' → events' ≠ events →
  ∃ (j : nat) e,
    i ≤ Z.of_nat j < kMax
    ∧ events !! j = Some e
    ∧ events' = <[j := fill e]> events
    ∧ getEventCount_loop events kMax fuel i count
      = Some (count + (Z.of_nat j - i)).
Proof.
  revert i count. induction fuel as [|fuel IH]; intros i count Hi; [done|].
  cbn [write_loop getEventCount_loop].
  destruct (Z.ltb_spec i kMax) as [Hlt|Hge]; [|by intros [= ->]].
  destruct (events !! Z.to_nat i) as [e|] eqn:He; [|done].
  cbn [mbind option_bind].
  destruct (is_null_event e) eqn:Hn; cbn [negb].
  - intros [= <-] _. exists (Z.to_nat i), e.
    repeat split; [lia|lia|done|f_equal; lia].
  - intros Hw Hne.
    destruct (IH (i + 1) (count + 1) ltac:(lia) Hw Hne)
      as (j & e' & Hj & Hje & Hev & Hc).
    exists j, e'. repeat split; [lia|lia|done|done|].
    rewrite Hc. f_equal. lia.
Qed.

(** C6: when [writeControlEvent] has written into the buffer of a port that
    held [n] events, reading that port as an input gives at index [n] a
    control event with the time, channel, type, parameter and value of the
    call. *)
Theorem writeControlEvent_read_back mem mem' p n time channel type param value :
  getEventCount mem (as_input p) = Some n →
  writeControlEvent mem p time channel type param value = Some mem' →
  mem' ≠ mem →
  ∃ e, getEvent mem' (as_input p) n = Some e
    ∧ ev_type e = kEngineEventTypeControl
    ∧ ev_time e = time
    ∧ ev_channel e = channel
    ∧ ctrl_type (ev_ctrl e) = type
    ∧ ctrl_param (ev_ctrl e) = param
    ∧ ctrl_value (ev_ctrl e) = value.
Proof.
  unfold getEventCount, writeControlEvent, getEvent, as_input.
  cbn [kIsInput fBuffer kProcessMode kMaxEventCount negb].
  intros Hc Hw Hne.
  destruct (kIsInput p); [by inversion Hw|].
  destruct (fBuffer p) as [a|]; [|by inversion Hw].
  destruct (bool_decide (type = kEngineControlEventTypeNull)); [by inversion Hw|].
  destruct (MAX_MIDI_CHANNELS <=? channel); [by inversion Hw|].
  destruct (rack_or_patchbay (kProcessMode p)); [|by inversion Hw].
  destruct (mem !! a) as [events|] eqn:Hm; [|done].
  cbn [mbind option_bind] in Hc, Hw.
  destruct (write_loop _ events _ _ 0) as [events'|] eqn:Hloop; [|done].
  cbn [mbind option_bind] in Hw. injection Hw as <-.
  assert (events' ≠ events) as Hchg.
  { intros ->. apply Hne. by apply insert_id. }
  destruct (write_loop_changed _ _ _ _ 0 0 _ ltac:(lia) Hloop Hchg)
    as (j & e & Hj & Hje & -> & Hcount).
  rewrite Hcount in Hc. injection Hc as <-.
  replace (0 + (Z.of_nat j - 0)) with (Z.of_nat j) by lia.
  destruct (Z.leb_spec (kMaxEventCount p) (Z.of_nat j)); [lia|].
  rewrite lookup_insert_eq. cbn [mbind option_bind].
  rewrite Nat2Z.id, list_lookup_insert_eq by (by eapply lookup_lt_Some).
  eexists. split; [done|]. by repeat split.
Qed.

(** [port_ok] is what the code maintains: the constructor establishes it,
    and [initBuffer] and the writes keep it. *)
Lemma new_port_ok isInput processMode mem :
  port_ok (new_port isInput processMode mem).2 (new_port isInput processMode mem).1.
Proof.
  unfold new_port, port_ok.
  destruct (bool_decide_reflect (processMode = PROCESS_MODE_PATCHBAY)) as [->|Hm];
    cbn [fst snd kMaxEventCount kProcessMode fBuffer].
  - split; [done|]. intros a [= <-]. split; [done|].
    eexists. rewrite lookup_insert_eq. split; [done|].
    by rewrite length_replicate.
  - split; [done|]. intros a [=].
Qed.

Lemma write_loop_length fill events kMax fuel i events' :
  write_loop fill events kMax fuel i = Some events' →
  length events' = length events.
Proof.
  revert i. induction fuel as [|fuel IH]; intros i; [done|].
  cbn [write_loop]. destruct (i <? kMax); [|by intros [= <-]].
  destruct (events !! Z.to_nat i) as [e|]; [|done]. cbn [mbind option_bind].
  destruct (negb (is_null_event e)); [apply IH|].
  intros [= <-]. by rewrite length_insert.
Qed.

Lemma port_ok_insert mem q a events events' :
  mem !! a = Some events → length events' = length events →
  port_ok mem q → port_ok (<[a := events']> mem) q.
Proof.
  intros Hm Hlen [Hcap Hbuf]. split; [done|]. intros b Hb.
  destruct (Hbuf b Hb) as (Hmode & evs & Hmb & Hl). split; [done|].
  destruct (decide (a = b)) as [->|Hne].
  - exists events'. rewrite lookup_insert_eq. split; [done|]. congruence.
  - exists evs. by rewrite lookup_insert_ne.
Qed.

Lemma writeControlEvent_port_ok mem mem' p q time channel type param value :
  writeControlEvent mem p time channel type param value = Some mem' →
  port_ok mem q → port_ok mem' q.
Proof.
  unfold writeControlEvent. intros Hw Hq.
  repeat match type of Hw with
  | (if ?b then _ else _) = _ => destruct b
  | match ?o with Some _ => _ | None => _ end = _ => destruct o as [a|]
  | Some _ = Some _ => injection Hw as <-
  end; try done.
  destruct (mem !! a) as [events|] eqn:Hm; [|done]. cbn [mbind option_bind] in Hw.
  destruct (write_loop _ _ _ _ _) as [events'|] eqn:Hl; [|done].
  injection Hw as <-. eapply port_ok_insert; [done| |done].
  by eapply write_loop_length.
Qed.


(** What the code does right among the preconditions of a control write: a
    channel of 16 or more and the Null type leave the memory as it is, and a
    value of exactly 1 is written. *)
Lemma writeControlEvent_rejects mem p time channel type param value :
  MAX_MIDI_CHANNELS ≤ channel ∨ type = kEngineControlEventTypeNull →
  writeControlEvent mem p time channel type param value = Some mem.
Proof.
  intros H. unfold writeControlEvent.
  destruct (kIsInput p); [done|]. destruct (fBuffer p); [|done].
  case_bool_decide; [done|]. destruct H as [H|H]; [|done].
  by destruct (Z.leb_spec MAX_MIDI_CHANNELS channel); [|lia].
Qed.

(** A value of exactly 1 is within the range and is written. *)
Example writeControlEvent_value_one :
  ∃ mem',
    writeControlEvent demo_mem demo_port 0 0 kEngineControlEventTypeParameter 7 1
    = Some mem'
    ∧ getEventCount mem' (as_input demo_port) = Some 1
    ∧ (ctrl_value ∘ ev_ctrl) <$> getEvent mem' (as_input demo_port) 0 = Some 1%Q.
Proof.
  eexists. split; [vm_compute; reflexivity|]. split; vm_compute; reflexivity.
Qed.

Lemma demo_port_ok : port_ok demo_mem demo_port.
Proof. apply new_port_ok. Qed.

Lemma demo_port_ok1 : port_ok demo_mem1 (as_input demo_port).
Proof.
  split; [vm_compute; reflexivity|]. intros a Ha.
  assert (a = 1%positive) as ->.
  { vm_compute in Ha. by injection Ha as <-. }
  split; [vm_compute; reflexivity|].
  exists demo_events1. split; vm_compute; reflexivity.
Defined.

(** C3: a control write whose value is outside [0,1], or whose type is
    Parameter with a bank-select controller (0 or 32), is not rejected: the
    event is stored at the first free index with the value given. *)
Theorem writeControlEvent_asserted_only :
  let written type param value :=
    ∃ mem',
      writeControlEvent demo_mem demo_port 0 0 type param value = Some mem'
      ∧ getEventCount mem' (as_input demo_port) = Some 1
      ∧ getEvent mem' (as_input demo_port) 0
        = Some (mkEngineEvent kEngineEventTypeControl 0 0
                  (mkEngineControlEvent type param value)
                  (mkEngineMidiEvent 0 (0, 0, 0) 0)) in
  Qle_bool (3 # 2) 1 = false
  ∧ written kEngineControlEventTypeParameter 7 (3 # 2)
  ∧ Qle_bool 0 (-1 # 2) = false
  ∧ written kEngineControlEventTypeParameter 7 (-1 # 2)
  ∧ MIDI_IS_CONTROL_BANK_SELECT 0 = true
  ∧ written kEngineControlEventTypeParameter 0 (1 # 2)
  ∧ MIDI_IS_CONTROL_BANK_SELECT 32 = true
  ∧ written kEngineControlEventTypeParameter 32 (1 # 2).
Proof.
  cbv zeta. repeat split;
    try (eexists; split; [vm_compute; reflexivity|];
         split; vm_compute; reflexivity).
Qed.

Lemma writeControlEvent_read_back_witness :
  ∃ e, getEvent demo_mem1 (as_input demo_port) 0 = Some e
    ∧ ev_type e = kEngineEventTypeControl
    ∧ ev_time e = 5
    ∧ ev_channel e = 3
    ∧ ctrl_type (ev_ctrl e) = kEngineControlEventTypeParameter
    ∧ ctrl_param (ev_ctrl e) = 7
    ∧ ctrl_value (ev_ctrl e) = (1 # 2)%Q.
Proof.
  apply (writeControlEvent_read_back demo_mem demo_mem1 demo_port 0 5 3
           kEngineControlEventTypeParameter 7 (1 # 2)).
  - vm_compute; reflexivity.
  - vm_compute; reflexivity.
  - intros H.
    apply (f_equal (λ m : gmap positive (list EngineEvent),
                      is_null_event <$> (m !! 1%positive ≫= (.!! 0%nat)))) in H.
    vm_compute in H. discriminate H.
Defined.

Lemma getEventCount_first_null_witness :
  getEventCount demo_mem1 demo_port = Some 0
  ∧ getEventCount ∅ (mkPort true PROCESS_MODE_PATCHBAY PATCHBAY_EVENT_COUNT None)
    = Some 0
  ∧ ∃ n : nat,
      getEventCount demo_mem1 (as_input demo_port) = Some (Z.of_nat n)
      ∧ (∃ e', demo_events1 !! n = Some e' ∧ ev_type e' = kEngineEventTypeNull)
      ∧ (∀ j e', (j < n)%nat → demo_events1 !! j = Some e' →
           ev_type e' ≠ kEngineEventTypeNull).
Proof.
  split; [|split].
  - apply (proj1 (getEventCount_first_null demo_mem1 demo_port)).
    vm_compute; reflexivity.
  - apply (proj1 (proj2 (getEventCount_first_null ∅
             (mkPort true PROCESS_MODE_PATCHBAY PATCHBAY_EVENT_COUNT None)))).
    vm_compute; reflexivity.
  - apply (proj2 (proj2 (getEventCount_first_null demo_mem1 (as_input demo_port)))
             1%positive demo_events1 1%nat zeroEvent).
    + exact demo_port_ok1.
    + vm_compute; reflexivity.
    + vm_compute; reflexivity.
    + vm_compute; reflexivity.
    + vm_compute; reflexivity.
    + vm_compute; reflexivity.
Defined.

Lemma getEvent_total_witness :
  (∃ e, getEvent demo_mem1 (as_input demo_port) 0 = Some e
        ∧ ∃ events, demo_mem1 !! 1%positive = Some events
                    ∧ events !! 0%nat = Some e)
  ∧ (∃ e, getEvent demo_mem1 (as_input demo_port) 512 = Some e
          ∧ e = kFallbackEngineEvent).
Proof.
  split.
  - destruct (getEvent_total demo_mem1 (as_input demo_port) 0 demo_port_ok1
                ltac:(lia)) as (e & He & _ & Hin).
    exists e. split; [exact He|].
    apply Hin; vm_compute; reflexivity.
  - destruct (getEvent_total demo_mem1 (as_input demo_port) 512 demo_port_ok1
                ltac:(lia)) as (e & He & Hout & _).
    exists e. split; [exact He|].
    apply Hout. right. right. vm_compute. discriminate.
Defined.

Lemma getEventCount_bounded_witness :
  ∃ n, getEventCount demo_mem1 (as_input demo_port) = Some n
       ∧ 0 ≤ n ≤ kMaxEventCount (as_input demo_port).
Proof.
  destruct (getEventCount_bounded demo_mem1 (as_input demo_port) demo_port_ok1
              ltac:(vm_compute; reflexivity) ltac:(vm_compute; reflexivity))
    as (n & Hn & Hb & _).
  exists n. split; [exact Hn|exact Hb].
Defined.

End EventPortFacts.

(** ** Facts about the options *)

Section OptionFacts.

Import Engine.

(** C9: while the engine runs, [setOption] on the process mode changes
    nothing; when it does not run, a value outside
    [[PROCESS_MODE_SINGLE_CLIENT, PROCESS_MODE_PATCHBAY]] changes nothing
    either, and a value inside sets [processMode] to the mode of that value
    and nothing else. *)
Theorem setOption_process_mode e value valueStr :
  (isRunning e = true →
     setOption e OPTION_PROCESS_MODE value valueStr = e)
  ∧ (isRunning e = false →
     value < ProcessMode_to_Z PROCESS_MODE_SINGLE_CLIENT
     ∨ ProcessMode_to_Z PROCESS_MODE_PATCHBAY < value →
     setOption e OPTION_PROCESS_MODE value valueStr = e)
  ∧ (isRunning e = false →
     ProcessMode_to_Z PROCESS_MODE_SINGLE_CLIENT ≤ value
       ≤ ProcessMode_to_Z PROCESS_MODE_PATCHBAY →
     ∃ m, ProcessMode_to_Z m = value
        ∧ processMode (fOptions (setOption e OPTION_PROCESS_MODE value valueStr)) = m
        ∧ setOption e OPTION_PROCESS_MODE value valueStr
          = set_fOptions e (set_processMode (fOptions e) m)).
Proof.
  unfold setOption. cbn [ProcessMode_to_Z]. split; [|split].
  - by intros ->.
  - intros -> [H|H].
    + by destruct (Z.ltb_spec value 0); [|lia].
    + destruct (Z.ltb_spec 3 value); [|lia]. by rewrite orb_true_r.
  - intros -> [H0 H3].
    destruct (Z.ltb_spec value 0); [lia|].
    destruct (Z.ltb_spec 3 value); [lia|]. cbn [orb].
    assert (value = 0 ∨ value = 1 ∨ value = 2 ∨ value = 3) as Hv by lia.
    destruct Hv as [-> | [-> | [-> | ->]]]; cbn;
      [exists PROCESS_MODE_SINGLE_CLIENT | exists PROCESS_MODE_MULTIPLE_CLIENTS
      |exists PROCESS_MODE_CONTINUOUS_RACK | exists PROCESS_MODE_PATCHBAY];
      (split; [|split]); reflexivity.
Qed.

Lemma setOption_process_mode_witness :
  setOption (mkEngine demo_options true kEngineTypeJack None 0 0 ∅ ""
               EnginePostActionNull 0 false [] "" None)
    OPTION_PROCESS_MODE 3 ""
  = mkEngine demo_options true kEngineTypeJack None 0 0 ∅ ""
      EnginePostActionNull 0 false [] "" None
  ∧ setOption demo_engine OPTION_PROCESS_MODE 4 "" = demo_engine
  ∧ ∃ m, ProcessMode_to_Z m = 3
       ∧ processMode (fOptions (setOption demo_engine OPTION_PROCESS_MODE 3 "")) = m
       ∧ setOption demo_engine OPTION_PROCESS_MODE 3 ""
         = set_fOptions demo_engine (set_processMode (fOptions demo_engine) m).
Proof.
  split; [|split].
  - apply (proj1 (setOption_process_mode _ 3 "")). reflexivity.
  - apply (proj1 (proj2 (setOption_process_mode demo_engine 4 ""))).
    + reflexivity.
    + right. vm_compute. reflexivity.
  - apply (proj2 (proj2 (setOption_process_mode demo_engine 3 ""))).
    + reflexivity.
    + split; vm_compute; discriminate.
Defined.

(** The options marked as needing a stopped engine are all left alone while
    it runs. *)
Lemma setOption_running_frame e option value valueStr :
  isRunning e = true →
  match option with
  | OPTION_PROCESS_MODE | OPTION_MAX_PARAMETERS | OPTION_PREFERRED_BUFFER_SIZE
  | OPTION_PREFERRED_SAMPLE_RATE | OPTION_FORCE_STEREO
  | OPTION_USE_DSSI_VST_CHUNKS | OPTION_PREFER_PLUGIN_BRIDGES
  | OPTION_PREFER_UI_BRIDGES | OPTION_OSC_UI_TIMEOUT =>
    setOption e option value valueStr = e
  | _ => True
  end.
Proof. intros H. destruct option; try done; unfold setOption; by rewrite H. Qed.

End OptionFacts.

(** ** Facts about [addPlugin] and the bridge policy *)

Section BridgeFacts.

Import Engine.

Variable BINARY_NATIVE : BinaryType.
Variable newPlugin : PluginType → Initializer → CtorResult.

(** When bridges are preferred and one is configured but the mode or the
    engine type does not allow it, [addPlugin] sets the last error, leaves the
    table alone, and returns [true]: its [return -1] is a nonzero [bool]. *)
Lemma addPlugin_bridge_refused e btype ptype filename name label :
  curPluginCount e ≠ maxPluginNumber e →
  preferPluginBridges (fOptions e) = true →
  bridge_configured BINARY_NATIVE e btype = true →
  processMode (fOptions e) ≠ PROCESS_MODE_MULTIPLE_CLIENTS
  ∨ type e ≠ kEngineTypeJack →
  ∃ err, err ≠ ""
    ∧ addPlugin BINARY_NATIVE newPlugin e btype ptype filename name label
      = Some (true, setLastError e err).
Proof.
  intros Hc Hp Hb Hm. unfold addPlugin.
  destruct (Z.eqb_spec (curPluginCount e) (maxPluginNumber e)); [done|].
  rewrite Hp. cbn [andb].
  match goal with |- context [bool_decide (is_Some ?b)] =>
    assert (is_Some b) as Hsome end.
  { unfold bridge_configured in Hb.
    destruct (bool_decide (btype = BINARY_NATIVE) && isNotEmpty _);
      [by eexists|].
    cbn [orb] in Hb. destruct btype; try done; rewrite Hb; by eexists. }
  rewrite (bool_decide_eq_true_2 _ Hsome).
  destruct (bool_decide_reflect
              (processMode (fOptions e) = PROCESS_MODE_MULTIPLE_CLIENTS))
    as [Hmode|Hmode]; cbn [negb].
  - destruct Hm as [Hm|Hm]; [done|].
    rewrite (bool_decide_eq_false_2 _ Hm). cbn [negb].
    by eexists; split; [|reflexivity].
  - by eexists; split; [|reflexivity].
Qed.

End BridgeFacts.

Section BridgeExample.

Import Engine.

(** C2: with bridges preferred, a bridge configured for the binary type and
    a process mode other than multiple clients, [addPlugin] records the error
    but its result is [true], and the plugin count is unchanged. *)
Theorem addPlugin_bridge_refusal_returns_true :
  preferPluginBridges (fOptions demo_bridged) = true
  ∧ bridge_posix32 (fOptions demo_bridged) = "carla-bridge-posix32"
  ∧ processMode (fOptions demo_bridged) = PROCESS_MODE_CONTINUOUS_RACK
  ∧ addPlugin BINARY_POSIX64 demo_ctor demo_bridged
      BINARY_POSIX32 PLUGIN_LADSPA "file" (Some "name") "label"
    = Some (true,
            setLastError demo_bridged
              "Can only use bridged plugins in JACK Multi-Client mode")
  ∧ curPluginCount demo_bridged = 0.
Proof. repeat split; vm_compute; reflexivity. Qed.

End BridgeExample.

(** ** Facts about the rack processor *)

Section RackFacts.

Import Engine.

Lemma dense_plugin_at e i :
  dense e → 0 ≤ i < curPluginCount e →
  ∃ slots slot p pl,
    plugins e = Some slots ∧ slots !! Z.to_nat i = Some slot
    ∧ plugin slot = Some p ∧ heap e !! p = Some pl
    ∧ plugin_at e i = Some pl ∧ p_id pl = i.
Proof.
  intros Hd Hi. destruct (Hd i Hi) as (slots & slot & p & pl & H1 & H2 & H3 & H4 & H5).
  exists slots, slot, p, pl. repeat split; try done.
  unfold plugin_at. rewrite H1. cbn [mbind option_bind]. rewrite H2.
  cbn [mbind option_bind]. rewrite H3. done.
Qed.

(** The loop only computes whether some plugin of the prefix is enabled. *)
Lemma processRack_loop_spec e fuel i processed :
  dense e → 0 ≤ i ≤ curPluginCount e →
  (Z.to_nat (curPluginCount e - i) < fuel)%nat →
  processRack_loop e fuel i processed []
  = Some (processed
          || existsb (enabled_at e) (seqZ i (curPluginCount e - i)), []).
Proof.
  intros Hd. revert i processed.
  induction fuel as [|fuel IH]; intros i processed Hi Hf; [lia|].
  cbn [processRack_loop].
  destruct (Z.ltb_spec i (curPluginCount e)) as [Hlt|Hge].
  - destruct (dense_plugin_at e i Hd ltac:(lia))
      as (slots & slot & p & pl & H1 & H2 & H3 & H4 & H5 & _).
    rewrite H1. cbn [mbind option_bind]. rewrite H2. cbn [mbind option_bind].
    rewrite H3, H4. cbn [mbind option_bind].
    rewrite (seqZ_cons i) by lia. cbn [existsb].
    unfold enabled_at at 1. rewrite H5.
    replace (Z.pred (curPluginCount e - i)) with (curPluginCount e - (i + 1)) by lia.
    replace (Z.succ i) with (i + 1) by lia.
    destruct (p_enabled pl); cbn [negb orb]; rewrite IH by lia;
      [by rewrite orb_true_r|done].
  - replace (curPluginCount e - i) with 0 by lia. cbn. by rewrite orb_false_r.
Qed.

Lemma carla_zeroFloat_ok buf frames :
  0 ≤ frames ≤ Z.of_nat (length buf) →
  ∃ out, carla_zeroFloat buf frames = Some out
       ∧ out = replicate (Z.to_nat frames) 0%Q ++ drop (Z.to_nat frames) buf
       ∧ length out = length buf.
Proof.
  intros H. unfold carla_zeroFloat.
  destruct (Z.ltb_spec (Z.of_nat (length buf)) frames); [lia|].
  eexists. split; [done|]. split; [done|].
  rewrite length_app, length_replicate, length_drop. lia.
Qed.

Lemma zero_at_ok mem buf b frames :
  mem !! buf = Some b → 0 ≤ frames ≤ Z.of_nat (length b) →
  zero_at mem buf frames
  = Some (<[buf := replicate (Z.to_nat frames) 0%Q ++ drop (Z.to_nat frames) b]> mem).
Proof.
  intros Hb Hf. unfold zero_at. rewrite Hb. cbn [mbind option_bind].
  by destruct (carla_zeroFloat_ok b frames Hf) as (out & -> & -> & _).
Qed.

(** A rack with an enabled plugin, as the code has it: the block has a
    result, [process] is called for no plugin, the first [frames] samples of
    both outputs are zero, whatever the inputs hold and whether or not an
    input is also an output, and the other arrays are left as they were. *)
Lemma processRack_silent e mem inBuf outBuf frames b1 b2 :
  table_ok e →
  existsb (enabled_at e) (seqZ 0 (curPluginCount e)) = true →
  mem !! outBuf.1 = Some b1 → mem !! outBuf.2 = Some b2 →
  0 ≤ frames → frames ≤ Z.of_nat (length b1) → frames ≤ Z.of_nat (length b2) →
  ∃ mem' o1 o2,
    processRack e mem inBuf outBuf frames = Some (mem', [])
    ∧ mem' !! outBuf.1 = Some o1 ∧ mem' !! outBuf.2 = Some o2
    ∧ take (Z.to_nat frames) o1 = replicate (Z.to_nat frames) 0%Q
    ∧ take (Z.to_nat frames) o2 = replicate (Z.to_nat frames) 0%Q
    ∧ ∀ q, q ≠ outBuf.1 → q ≠ outBuf.2 → mem' !! q = mem !! q.
Proof.
  intros (_ & Hc & _ & Hd) Hen H1 H2 Hf Hl1 Hl2. unfold processRack.
  rewrite (zero_at_ok mem (outBuf.1) b1 frames) by (done || lia).
  cbn [mbind option_bind].
  set (z1 := replicate (Z.to_nat frames) 0%Q ++ drop (Z.to_nat frames) b1).
  assert (length z1 = length b1) as Hz1.
  { subst z1. rewrite length_app, length_replicate, length_drop. lia. }
  assert (take (Z.to_nat frames) z1 = replicate (Z.to_nat frames) 0%Q) as Ht1.
  { subst z1. apply take_app_length'. by rewrite length_replicate. }
  assert (∃ c2, <[outBuf.1 := z1]> mem !! outBuf.2 = Some c2
                ∧ frames ≤ Z.of_nat (length c2)) as (c2 & Hc2 & Hlc2).
  { destruct (decide (outBuf.1 = outBuf.2)) as [Heq|Hne].
    - exists z1. rewrite <- Heq, lookup_insert_eq. split; [done|lia].
    - exists b2. by rewrite lookup_insert_ne. }
  rewrite (zero_at_ok _ (outBuf.2) c2 frames) by (done || lia).
  cbn [mbind option_bind].
  set (z2 := replicate (Z.to_nat frames) 0%Q ++ drop (Z.to_nat frames) c2).
  assert (take (Z.to_nat frames) z2 = replicate (Z.to_nat frames) 0%Q) as Ht2.
  { subst z2. apply take_app_length'. by rewrite length_replicate. }
  rewrite processRack_loop_spec by (done || lia).
  cbn [mbind option_bind orb]. rewrite Z.sub_0_r, Hen. cbn [negb].
  destruct (decide (outBuf.1 = outBuf.2)) as [Heq|Hne].
  - exists (<[outBuf.2 := z2]> (<[outBuf.1 := z1]> mem)), z2, z2.
    split; [done|]. rewrite Heq, !lookup_insert_eq.
    split; [done|]. split; [done|]. split; [done|]. split; [done|].
    intros q Hq1 Hq2. by rewrite !lookup_insert_ne.
  - exists (<[outBuf.2 := z2]> (<[outBuf.1 := z1]> mem)), z1, z2.
    split; [done|]. rewrite lookup_insert_ne, !lookup_insert_eq by done.
    split; [done|]. split; [done|]. split; [done|]. split; [done|].
    intros q Hq1 Hq2. by rewrite !lookup_insert_ne.
Qed.

End RackFacts.

Section RackExamples.

Import Engine.

Lemma demo_with_a_ok : table_ok (demo_with ["a"]).
Proof.
  assert (curPluginCount (demo_with ["a"]) = 1) as Hc by (vm_compute; reflexivity).
  split; [|split; [|split]].
  - eexists. split; vm_compute; reflexivity.
  - rewrite Hc. vm_compute. split; discriminate.
  - vm_compute; reflexivity.
  - intros i Hi. rewrite Hc in Hi. assert (i = 0) as -> by lia.
    eexists _, _, _, _.
    split; [vm_compute; reflexivity|].
    split; [vm_compute; reflexivity|].
    split; [vm_compute; reflexivity|].
    split; vm_compute; reflexivity.
Defined.

(** C4: with one enabled plugin in the rack and inputs that are not
    silent, the specification has one call of [process], for plugin 0.  The
    block visits the plugin and finds it enabled, calls [process] for no
    plugin, and leaves both outputs at zero: the call is between [#if 0] and
    [#endif], and what is compiled of the loop body only records that a
    plugin was met, which suppresses the copy of the inputs. *)
Theorem processRack_enabled_plugin_not_processed :
  enabled_at (demo_with ["a"]) 0 = true
  ∧ spec_process_calls (demo_with ["a"]) = [0]
  ∧ ∃ mem' calls,
      processRack (demo_with ["a"]) demo_audio
        (1%positive, 2%positive) (3%positive, 4%positive) 2
      = Some (mem', calls)
      ∧ calls = []
      ∧ calls ≠ spec_process_calls (demo_with ["a"])
      ∧ mem' !! 3%positive = Some [0%Q; 0%Q]
      ∧ mem' !! 4%positive = Some [0%Q; 0%Q]
      ∧ mem' !! 1%positive = Some [1%Q; 1%Q]
      ∧ mem' !! 2%positive = Some [(-1)%Q; (-1)%Q].
Proof.
  split; [vm_compute; reflexivity|].
  assert (spec_process_calls (demo_with ["a"]) = [0]) as Hspec
    by (vm_compute; reflexivity).
  split; [exact Hspec|]. rewrite Hspec.
  eexists _, _. split; [vm_compute; reflexivity|].
  split; [reflexivity|]. split; [discriminate|].
  split; [vm_compute; reflexivity|]. split; [vm_compute; reflexivity|].
  split; vm_compute; reflexivity.
Qed.

(** The general lemma at work on the same block. *)
Example processRack_silent_demo :
  ∃ mem' o1 o2,
    processRack (demo_with ["a"]) demo_audio
      (1%positive, 2%positive) (3%positive, 4%positive) 2 = Some (mem', [])
    ∧ mem' !! 3%positive = Some o1 ∧ mem' !! 4%positive = Some o2
    ∧ take 2 o1 = [0%Q; 0%Q] ∧ take 2 o2 = [0%Q; 0%Q].
Proof.
  destruct (processRack_silent (demo_with ["a"]) demo_audio
              (1%positive, 2%positive) (3%positive, 4%positive) 2
              [9%Q; 9%Q] [9%Q; 9%Q] demo_with_a_ok)
    as (mem' & o1 & o2 & He & H1 & H2 & H3 & H4 & _);
    [vm_compute; reflexivity..|lia|cbn; lia|cbn; lia|].
  by exists mem', o1, o2.
Qed.

(** The pass-through of the specification's second scenario: with no plugin
    in the rack, and outputs that are not the inputs, the outputs receive the
    inputs. *)
Example processRack_pass_through :
  ∃ mem',
    processRack demo_engine demo_audio
      (1%positive, 2%positive) (3%positive, 4%positive) 2 = Some (mem', [])
    ∧ mem' !! 3%positive = Some [1%Q; 1%Q]
    ∧ mem' !! 4%positive = Some [(-1)%Q; (-1)%Q].
Proof.
  eexists. split; [vm_compute; reflexivity|]. split; vm_compute; reflexivity.
Qed.

(** When a block is processed in place, the outputs being the inputs, the
    arrays are zeroed before anything is copied: an empty rack is silent
    too. *)
Example processRack_in_place :
  ∃ mem',
    processRack demo_engine demo_audio
      (1%positive, 2%positive) (1%positive, 2%positive) 2 = Some (mem', [])
    ∧ mem' !! 1%positive = Some [0%Q; 0%Q]
    ∧ mem' !! 2%positive = Some [0%Q; 0%Q].
Proof.
  eexists. split; [vm_compute; reflexivity|]. split; vm_compute; reflexivity.
Qed.

End RackExamples.

(** ** Facts about unique plugin names *)

Section NamingFacts.

Import Engine.

Variable STR_MAX : Z.

Lemma truncate_short n s : (String.length s ≤ n)%nat → truncate n s = s.
Proof.
  revert n. induction s as [|c s IH]; intros [|n] H; simpl in *; try done; try lia.
  f_equal. apply IH. lia.
Qed.

Lemma replace_absent before after s :
  before ∉ String.list_ascii_of_string s → replace before after s = s.
Proof.
  induction s as [|c s IH]; [done|]. simpl. intros H.
  apply not_elem_of_cons in H as [Hne Hin].
  rewrite bool_decide_eq_false_2 by done. by rewrite IH.
Qed.

(** A name that no plugin of the prefix has goes through the loop as it is. *)
Lemma getNewUniquePluginName_loop_unused e slots fuel i sname :
  plugins e = Some slots → dense e →
  0 ≤ i ≤ curPluginCount e → curPluginCount e < 2 ^ 16 →
  (Z.to_nat (curPluginCount e - i) < fuel)%nat →
  (∀ j pl, i ≤ j < curPluginCount e → plugin_at e j = Some pl →
     ∃ nm, p_name pl = Some nm ∧ nm ≠ sname) →
  getNewUniquePluginName_loop e slots fuel i sname = Some sname.
Proof.
  intros Hs Hd. revert i.
  induction fuel as [|fuel IH]; intros i Hi Hmax Hf Hnames; [lia|].
  cbn [getNewUniquePluginName_loop].
  destruct (Z.ltb_spec i (curPluginCount e)) as [Hlt|Hge]; [|done].
  destruct (Hd i ltac:(lia)) as (slots' & slot & p & pl & H1 & H2 & H3 & H4 & _).
  assert (slots' = slots) as -> by congruence.
  rewrite H2. cbn [mbind option_bind]. rewrite H3. cbn [mbind option_bind].
  rewrite H4. cbn [mbind option_bind].
  destruct (Hnames i pl ltac:(lia)) as (nm & Hnm & Hne).
  { unfold plugin_at. rewrite H1. cbn [mbind option_bind]. rewrite H2.
    cbn [mbind option_bind]. by rewrite H3. }
  rewrite Hnm, bool_decide_eq_false_2 by done. cbn [negb].
  rewrite Z.mod_small by lia. apply IH; try lia.
  intros j pl' Hj. apply Hnames. lia.
Qed.

(** The part of the naming claim that holds as stated: a name that is not
    empty, not too long, without a colon, and that no plugin has, is returned
    as it is. *)
Lemma getNewUniquePluginName_unused e name :
  table_ok e → curPluginCount e < 2 ^ 16 →
  name ≠ "" →
  Z.of_nat (String.length name) ≤ uint32 (maxClientNameSize STR_MAX - 5 - 1) →
  ":"%char ∉ String.list_ascii_of_string name →
  (∀ j pl, 0 ≤ j < curPluginCount e → plugin_at e j = Some pl →
     ∃ nm, p_name pl = Some nm ∧ nm ≠ name) →
  getNewUniquePluginName STR_MAX e name = Some name.
Proof.
  intros ((slots & Hs & _) & Hc & _ & Hd) Hmax Hne Hlen Hcolon Hnames.
  unfold getNewUniquePluginName. rewrite Hs, bool_decide_eq_false_2 by done.
  rewrite truncate_short by lia. rewrite replace_absent by done.
  apply getNewUniquePluginName_loop_unused; try done; lia.
Qed.

End NamingFacts.

Section NamingExamples.

Import Engine.

(** C5: the scan goes through the plugins once, in slot order, so a name it
    arrives at is not compared with the plugins it has already passed.  With
    plugins named "synth (2)" and "synth", in this order, the name returned
    for "synth" is "synth (2)", the name of the first plugin. *)
Theorem getNewUniquePluginName_collision :
  plugin_names (demo_with ["synth (2)"; "synth"])
  = [Some "synth (2)"; Some "synth"]
  ∧ getNewUniquePluginName 255 (demo_with ["synth (2)"; "synth"]) "synth"
    = Some "synth (2)".
Proof. split; vm_compute; reflexivity. Qed.

(** The scenario of the specification, where the plugins were added in the
    order of their numbers: "synth (3)" first, and so on up to "synth (10)". *)
Example getNewUniquePluginName_scenario :
  getNewUniquePluginName 255 (demo_with ["synth"; "synth (2)"]) "synth"
  = Some "synth (3)"
  ∧ getNewUniquePluginName 255
      (demo_with ["synth"; "synth (2)"; "synth (3)"]) "synth"
    = Some "synth (4)"
  ∧ getNewUniquePluginName 255
      (demo_with ["synth"; "synth (2)"; "synth (3)"; "synth (4)"; "synth (5)";
                  "synth (6)"; "synth (7)"; "synth (8)"]) "synth"
    = Some "synth (9)"
  ∧ getNewUniquePluginName 255
      (demo_with ["synth"; "synth (2)"; "synth (3)"; "synth (4)"; "synth (5)";
                  "synth (6)"; "synth (7)"; "synth (8)"; "synth (9)"]) "synth"
    = Some "synth (10)"
  ∧ getNewUniquePluginName 255
      (demo_with ["synth"; "synth (2)"; "synth (3)"; "synth (4)"; "synth (5)";
                  "synth (6)"; "synth (7)"; "synth (8)"; "synth (9)";
                  "synth (10)"]) "synth"
    = Some "synth (11)".
Proof. repeat split; vm_compute; reflexivity. Qed.

(** The other fixed answers of the function. *)
Example getNewUniquePluginName_fixed :
  getNewUniquePluginName 255 demo_engine "" = Some "(No name)"
  ∧ getNewUniquePluginName 255 demo_engine "a:b" = Some "a.b"
  ∧ getNewUniquePluginName 255 (demo_with ["synth"]) "bass" = Some "bass"
  ∧ getNewUniquePluginName 255 (demo_with ["synth (2)"]) "synth" = Some "synth".
Proof. repeat split; vm_compute; reflexivity. Qed.

End NamingExamples.

(** ** Facts about the plugin table *)

Section RemoveLoop.

Import Engine.

(** The table and the heap before the shift, and the count after it: the
    slots up to [count] point to plugins that carry their index. *)
Variable slots0 : list EnginePluginData.
Variable heap0 : gmap positive CarlaPlugin.
Variable count : Z.

Hypothesis before :
  ∀ j, 0 ≤ j ≤ count →
    ∃ s p pl, slots0 !! Z.to_nat j = Some s ∧ plugin s = Some p
              ∧ heap0 !! p = Some pl ∧ p_id pl = j.

Lemma before_ptr_inj j1 j2 s1 s2 p :
  0 ≤ j1 ≤ count → 0 ≤ j2 ≤ count →
  slots0 !! Z.to_nat j1 = Some s1 → slots0 !! Z.to_nat j2 = Some s2 →
  plugin s1 = Some p → plugin s2 = Some p → j1 = j2.
Proof using before.
  intros H1 H2 Hs1 Hs2 Hp1 Hp2.
  destruct (before j1 H1) as (s1' & p1 & pl1 & ? & ? & ? & ?).
  destruct (before j2 H2) as (s2' & p2 & pl2 & ? & ? & ? & ?).
  simplify_eq. congruence.
Qed.

(** The loop started at [i] on a table whose slots above [i] are still the
    original ones: every slot from [i] to [count - 1] receives the pointer of
    the slot above it with zeroed peaks, that plugin gets the new index, and
    nothing else changes. *)
Lemma doPluginRemove_loop_spec fuel i slots h :
  0 ≤ i ≤ count →
  (Z.to_nat (count - i) < fuel)%nat →
  length slots = length slots0 →
  (∀ j, i < j ≤ count → slots !! Z.to_nat j = slots0 !! Z.to_nat j) →
  (∀ j s p, i < j ≤ count → slots0 !! Z.to_nat j = Some s →
     plugin s = Some p → h !! p = heap0 !! p) →
  ∃ slots' h',
    doPluginRemove_loop fuel i count slots h = Some (slots', h')
    ∧ length slots' = length slots0
    ∧ (∀ n, (n < Z.to_nat i ∨ Z.to_nat count ≤ n)%nat →
         slots' !! n = slots !! n)
    ∧ (∀ j s p pl, i ≤ j < count →
         slots0 !! Z.to_nat (j + 1) = Some s → plugin s = Some p →
         heap0 !! p = Some pl →
         slots' !! Z.to_nat j = Some (mkSlot (Some p) (0%Q, 0%Q) (0%Q, 0%Q))
         ∧ h' !! p = Some (setId pl j))
    ∧ (∀ q, (∀ j s, i < j ≤ count → slots0 !! Z.to_nat j = Some s →
               plugin s ≠ Some q) →
         h' !! q = h !! q).
Proof using before.
  revert i slots h.
  induction fuel as [|fuel IH]; intros i slots h Hi Hf Hlen Hup Hheap; [lia|].
  cbn [doPluginRemove_loop].
  destruct (Z.ltb_spec i count) as [Hlt|Hge].
  2:{ exists slots, h. split; [done|]. split; [done|]. split; [done|].
      split; [intros; lia|done]. }
  destruct (before (i + 1) ltac:(lia)) as (s & p & pl & Hs & Hp & Hpl & Hid).
  rewrite (Hup (i + 1)) by lia. rewrite Hs. cbn [mbind option_bind].
  rewrite Hp. rewrite (Hheap (i + 1) s p) by (done || lia).
  rewrite Hpl. cbn [mbind option_bind].
  assert (Z.to_nat i < length slots)%nat as Hil.
  { rewrite Hlen. apply lookup_lt_Some in Hs. lia. }
  destruct (lookup_lt_is_Some_2 slots _ Hil) as [cur Hcur].
  rewrite Hcur. cbn [mbind option_bind].
  destruct (IH (i + 1)
              (<[Z.to_nat i := mkSlot (Some p) (0%Q, 0%Q) (0%Q, 0%Q)]> slots)
              (<[p := setId pl i]> h))
    as (slots' & h' & Hloop & Hlen' & Hout & Hmoved & Hrest).
  - lia.
  - lia.
  - by rewrite length_insert.
  - intros j Hj. rewrite list_lookup_insert_ne by lia. apply Hup. lia.
  - intros j s' p' Hj Hs' Hp'. rewrite lookup_insert_ne.
    + apply (Hheap j s'); [lia|done|done].
    + intros ->.
      assert (i + 1 = j) by (eapply (before_ptr_inj (i + 1) j); eauto; lia).
      lia.
  - exists slots', h'. split; [done|]. split; [done|]. split; [|split].
    + intros n Hn. rewrite Hout by lia. apply list_lookup_insert_ne. lia.
    + intros j s' p' pl' Hj Hs' Hp' Hpl'.
      destruct (decide (j = i)) as [->|Hne].
      * assert (s' = s) as -> by congruence.
        assert (p' = p) as -> by congruence.
        assert (pl' = pl) as -> by congruence.
        split.
        -- rewrite Hout by lia. by apply list_lookup_insert_eq.
        -- rewrite Hrest; [apply lookup_insert_eq|].
           intros j s2 Hj2 Hs2 Hp2.
           assert (i + 1 = j) by (eapply (before_ptr_inj (i + 1) j); eauto; lia).
           lia.
      * apply (Hmoved j s' p' pl'); [lia|done..].
    + intros q Hq. rewrite Hrest.
      * apply lookup_insert_ne. intros ->. by apply (Hq (i + 1) s); [lia|..].
      * intros j s' Hj. apply Hq. lia.
Qed.

End RemoveLoop.

Section TableFacts.

Import Engine.

Lemma dense_ptr_inj e slots i j si sj p :
  dense e → plugins e = Some slots →
  0 ≤ i < curPluginCount e → 0 ≤ j < curPluginCount e →
  slots !! Z.to_nat i = Some si → slots !! Z.to_nat j = Some sj →
  plugin si = Some p → plugin sj = Some p → i = j.
Proof.
  intros Hd Hs Hi Hj Hsi Hsj Hpi Hpj.
  destruct (Hd i Hi) as (? & ? & ? & ? & ? & ? & ? & ? & ?).
  destruct (Hd j Hj) as (? & ? & ? & ? & ? & ? & ? & ? & ?).
  simplify_eq. congruence.
Qed.

(** Removing a plugin of the prefix: the call succeeds, the table stays as
    [table_ok] wants it with one plugin less, the slots below [id] and their
    plugins are untouched, and every slot from [id] on holds the plugin of the
    slot above it, renumbered, with zeroed peaks. *)
Lemma removePlugin_in_range e id :
  table_ok e → 0 ≤ id < curPluginCount e →
  ∃ e', removePlugin e id = Some (true, e')
    ∧ table_ok e'
    ∧ curPluginCount e' = curPluginCount e - 1
    ∧ maxPluginNumber e' = maxPluginNumber e
    ∧ (∀ i, 0 ≤ i < id → plugin_at e' i = plugin_at e i)
    ∧ (∀ i, id ≤ i < curPluginCount e - 1 →
         ∃ slots slots' slot p pl,
           plugins e = Some slots ∧ plugins e' = Some slots'
           ∧ slots !! Z.to_nat (i + 1) = Some slot ∧ plugin slot = Some p
           ∧ heap e !! p = Some pl
           ∧ slots' !! Z.to_nat i = Some (mkSlot (Some p) (0%Q, 0%Q) (0%Q, 0%Q))
           ∧ heap e' !! p = Some (setId pl i)).
Proof.
  intros ((slots & Hs & Hlen) & Hc & Hmax & Hd) Hid.
  set (count := curPluginCount e - 1).
  assert (∀ j, 0 ≤ j ≤ count →
            ∃ s p pl, slots !! Z.to_nat j = Some s ∧ plugin s = Some p
                      ∧ heap e !! p = Some pl ∧ p_id pl = j) as Hbefore.
  { intros j Hj. destruct (Hd j ltac:(lia)) as (? & s & p & pl & ? & ? & ? & ? & ?).
    simplify_eq. by exists s, p, pl. }
  destruct (Hbefore id ltac:(lia)) as (sid & pid & plid & Hsid & Hpid & Hplid & _).
  destruct (doPluginRemove_loop_spec slots (heap e) count Hbefore
              (S (length slots)) id
              (<[Z.to_nat id := mkSlot None (insPeak sid) (outsPeak sid)]> slots)
              (heap e))
    as (slots' & h' & Hloop & Hlen' & Hout & Hmoved & Hrest).
  { lia. } { lia. } { by rewrite length_insert. }
  { intros j Hj. apply list_lookup_insert_ne. lia. }
  { done. }
  assert (uint32 (curPluginCount e - 1) = count) as Hcount.
  { unfold uint32. apply Z.mod_small. lia. }
  assert (doPluginRemove (set_nextAction e EnginePostActionRemovePlugin id)
          = Some (set_nextAction (set_table
                    (set_nextAction e EnginePostActionRemovePlugin id)
                    (Some slots') count h') EnginePostActionNull id)) as Hdo.
  { unfold doPluginRemove.
    cbn [set_nextAction plugins curPluginCount nextAction_pluginId heap].
    rewrite Hs, Hcount. cbn [mbind option_bind]. rewrite Hsid.
    cbn [mbind option_bind]. rewrite length_insert, Hloop. done. }
  eexists. split.
  { unfold removePlugin. rewrite Hs, Hsid. cbn [mbind option_bind].
    rewrite Hpid, Hplid. cbn [mbind option_bind].
    unfold proccessPendingEvents.
    cbn [set_nextAction nextAction_opcode isRunning].
    rewrite Hdo. destruct (isRunning e); reflexivity. }
  cbn [callback set_table set_nextAction plugins curPluginCount maxPluginNumber heap].
  (* the plugin pointers of the other slots differ from the removed one *)
  assert (∀ j s, 0 ≤ j ≤ count → j ≠ id → slots !! Z.to_nat j = Some s →
            plugin s ≠ Some pid) as Hother.
  { intros j s Hj Hne Hsj Hp. apply Hne.
    eapply (dense_ptr_inj e slots j id); eauto; lia. }
  assert (∀ i, 0 ≤ i < id →
            ∃ s p pl, slots' !! Z.to_nat i = Some s ∧ slots !! Z.to_nat i = Some s
              ∧ plugin s = Some p ∧ heap e !! p = Some pl ∧ p_id pl = i
              ∧ delete pid h' !! p = Some pl) as Hlow.
  { intros i Hi. destruct (Hbefore i ltac:(lia)) as (s & p & pl & Hsi & Hp & Hpl & Hi').
    exists s, p, pl. rewrite Hout by lia.
    rewrite list_lookup_insert_ne by lia. repeat split; try done.
    rewrite lookup_delete_ne.
    - rewrite Hrest; [done|]. intros j s' Hj Hs' Hp'.
      assert (j = i) by (eapply (dense_ptr_inj e slots j i); eauto; lia). lia.
    - intros <-. by apply (Hother i s); [lia|lia|..]. }
  assert (∀ i, id ≤ i < count →
            ∃ s p pl, slots !! Z.to_nat (i + 1) = Some s ∧ plugin s = Some p
              ∧ heap e !! p = Some pl
              ∧ slots' !! Z.to_nat i = Some (mkSlot (Some p) (0%Q, 0%Q) (0%Q, 0%Q))
              ∧ delete pid h' !! p = Some (setId pl i)) as Hhigh.
  { intros i Hi.
    destruct (Hbefore (i + 1) ltac:(lia)) as (s & p & pl & Hsi & Hp & Hpl & _).
    destruct (Hmoved i s p pl ltac:(lia) Hsi Hp Hpl) as [Hs' Hh'].
    exists s, p, pl. repeat split; try done.
    rewrite lookup_delete_ne; [done|].
    intros <-. by apply (Hother (i + 1) s); [lia|lia|..]. }
  split; [|split; [done|split; [done|split]]].
  - split; [|split; [|split]].
    + exists slots'. split; [done|]. cbn. congruence.
    + cbn. lia.
    + done.
    + intros i Hi. cbn in Hi. destruct (decide (i < id)) as [Hlt|Hge].
      * destruct (Hlow i ltac:(lia)) as (s & p & pl & ? & ? & ? & ? & ? & ?).
        by exists slots', s, p, pl.
      * destruct (Hhigh i ltac:(lia)) as (s & p & pl & ? & ? & ? & ? & ?).
        by exists slots', (mkSlot (Some p) (0%Q, 0%Q) (0%Q, 0%Q)), p, (setId pl i).
  - intros i Hi. destruct (Hlow i Hi) as (s & p & pl & H1 & H2 & H3 & H4 & _ & H6).
    unfold plugin_at. cbn [plugins heap callback set_table set_nextAction].
    rewrite Hs. cbn [mbind option_bind].
    rewrite H1, H2. cbn [mbind option_bind]. rewrite H3. cbn [mbind option_bind].
    by rewrite H6, H4.
  - intros i Hi. destruct (Hhigh i ltac:(lia)) as (s & p & pl & ? & ? & ? & ? & ?).
    by exists slots, slots', s, p, pl.
Qed.

End TableFacts.

Section AddFacts.

Import Engine.

(** Operations that leave the table, the counts and the heap alone leave
    the invariant and the plugins of the slots alone. *)
Lemma table_ok_same e e' :
  plugins e' = plugins e → curPluginCount e' = curPluginCount e →
  maxPluginNumber e' = maxPluginNumber e → heap e' = heap e →
  table_ok e → table_ok e'.
Proof.
  intros Hp Hc Hm Hh ((slots & Hs & Hlen) & Hcount & Hmax & Hd).
  split; [|split; [|split]].
  - exists slots. rewrite Hp, Hm. done.
  - rewrite Hc, Hm. done.
  - by rewrite Hm.
  - intros i Hi. rewrite Hc in Hi.
    destruct (Hd i Hi) as (sl & s & p & pl & ? & ? & ? & ? & ?).
    exists sl, s, p, pl. rewrite Hp, Hh. done.
Qed.

Lemma install_ok e pl :
  table_ok e → curPluginCount e ≠ maxPluginNumber e →
  p_id pl = curPluginCount e →
  ∃ e' slots' p,
    install e (curPluginCount e) pl = Some (true, e')
    ∧ table_ok e'
    ∧ curPluginCount e' = curPluginCount e + 1
    ∧ maxPluginNumber e' = maxPluginNumber e
    ∧ (∀ i, 0 ≤ i < curPluginCount e → plugin_at e' i = plugin_at e i)
    ∧ plugins e' = Some slots'
    ∧ slots' !! Z.to_nat (curPluginCount e)
      = Some (mkSlot (Some p) (0%Q, 0%Q) (0%Q, 0%Q))
    ∧ heap e' !! p = Some pl.
Proof.
  intros ((slots & Hs & Hlen) & Hc & Hmax & Hd) Hne Hid.
  set (p := fresh (dom (heap e))).
  assert (heap e !! p = None) as Hfresh.
  { apply not_elem_of_dom. apply is_fresh. }
  assert (Z.to_nat (curPluginCount e) < length slots)%nat as Hlt by lia.
  destruct (lookup_lt_is_Some_2 slots _ Hlt) as [cur Hcur].
  assert (uint32 (curPluginCount e + 1) = curPluginCount e + 1) as Hu.
  { unfold uint32. apply Z.mod_small. lia. }
  eexists _, _, p. split.
  { unfold install. rewrite Hs. cbn [mbind option_bind]. rewrite Hcur.
    cbn [mbind option_bind]. rewrite Hu. reflexivity. }
  cbn [callback set_table plugins curPluginCount maxPluginNumber heap].
  fold p.
  assert (∀ i, 0 ≤ i < curPluginCount e →
            ∃ s q pl', slots !! Z.to_nat i = Some s ∧ plugin s = Some q
              ∧ heap e !! q = Some pl' ∧ p_id pl' = i
              ∧ <[p := pl]> (heap e) !! q = Some pl') as Hold.
  { intros i Hi. destruct (Hd i Hi) as (? & s & q & pl' & ? & ? & ? & Hq & ?).
    simplify_eq. exists s, q, pl'. repeat split; try done.
    rewrite lookup_insert_ne; [done|]. intros <-. congruence. }
  split; [|split; [done|split; [done|split; [|split; [done|split]]]]].
  - split; [|split; [|split]].
    + eexists. split; [done|]. by rewrite length_insert.
    + cbn. lia.
    + done.
    + intros i Hi. cbn in Hi. destruct (decide (i = curPluginCount e)) as [->|Hn].
      * eexists _, _, p, pl. cbn. split; [done|].
        split; [by apply list_lookup_insert_eq|].
        split; [done|]. split; [apply lookup_insert_eq|done].
      * destruct (Hold i ltac:(lia)) as (s & q & pl' & ? & ? & ? & ? & ?).
        eexists _, s, q, pl'. cbn. split; [done|].
        split; [by rewrite list_lookup_insert_ne by lia|done].
  - intros i Hi. destruct (Hold i Hi) as (s & q & pl' & H1 & H2 & H3 & _ & H5).
    unfold plugin_at. cbn [plugins heap callback set_table]. fold p.
    rewrite Hs. cbn [mbind option_bind].
    rewrite list_lookup_insert_ne by lia. rewrite H1. cbn [mbind option_bind].
    rewrite H2. cbn [mbind option_bind]. by rewrite H5, H3.
  - by apply list_lookup_insert_eq.
  - apply lookup_insert_eq.
Qed.

End AddFacts.

Section RunFacts.

Import Engine.

Variable BINARY_NATIVE : BinaryType.
Variable newPlugin : PluginType → Initializer → CtorResult.

(** [addPlugin] always has a result on a sound table and keeps it sound;
    the plugins already there stay where they are, and a plugin that is added
    sits in the first free slot with that index as its id. *)
Lemma addPlugin_table_ok e btype ptype filename name label :
  table_ok e →
  ∃ b e',
    addPlugin BINARY_NATIVE newPlugin e btype ptype filename name label
    = Some (b, e')
    ∧ table_ok e'
    ∧ maxPluginNumber e' = maxPluginNumber e
    ∧ (∀ i, 0 ≤ i < curPluginCount e → plugin_at e' i = plugin_at e i)
    ∧ (curPluginCount e' = curPluginCount e
       ∨ curPluginCount e' = curPluginCount e + 1
         ∧ ∃ slots' p pl,
             plugins e' = Some slots'
             ∧ slots' !! Z.to_nat (curPluginCount e)
               = Some (mkSlot (Some p) (0%Q, 0%Q) (0%Q, 0%Q))
             ∧ heap e' !! p = Some pl
             ∧ p_id pl = curPluginCount e).
Proof.
  intros Hok.
  assert (∀ (b : bool) (e' : CarlaEngine),
            plugins e' = plugins e → curPluginCount e' = curPluginCount e →
            maxPluginNumber e' = maxPluginNumber e → heap e' = heap e →
            ∃ b0 e0, Some (b, e') = Some (b0, e0) ∧ table_ok e0
              ∧ maxPluginNumber e0 = maxPluginNumber e
              ∧ (∀ i, 0 ≤ i < curPluginCount e → plugin_at e0 i = plugin_at e i)
              ∧ (curPluginCount e0 = curPluginCount e
                 ∨ curPluginCount e0 = curPluginCount e + 1
                   ∧ ∃ slots' p pl,
                       plugins e0 = Some slots'
                       ∧ slots' !! Z.to_nat (curPluginCount e)
                         = Some (mkSlot (Some p) (0%Q, 0%Q) (0%Q, 0%Q))
                       ∧ heap e0 !! p = Some pl
                       ∧ p_id pl = curPluginCount e)) as Hframe.
  { intros b e' Hp Hc Hm Hh. exists b, e'. split; [done|].
    split; [by apply (table_ok_same e)|]. split; [done|].
    split; [|by left]. intros i _. unfold plugin_at. by rewrite Hp, Hh. }
  unfold addPlugin.
  destruct (Z.eqb_spec (curPluginCount e) (maxPluginNumber e)) as [Heq|Hne];
    [by apply Hframe|].
  destruct (_ && _).
  { repeat match goal with
    | |- context [if ?c then _ else _] => destruct c
    end; by apply Hframe. }
  assert (∀ pt,
    ∃ b0 e0,
      match newPlugin pt (mkInit (curPluginCount e) filename name label) with
      | CtorOk nm en =>
        install e (curPluginCount e)
          (construct (mkInit (curPluginCount e) filename name label) nm en)
      | CtorFail err => Some (false, setLastError e err)
      end = Some (b0, e0)
      ∧ table_ok e0
      ∧ maxPluginNumber e0 = maxPluginNumber e
      ∧ (∀ i, 0 ≤ i < curPluginCount e → plugin_at e0 i = plugin_at e i)
      ∧ (curPluginCount e0 = curPluginCount e
         ∨ curPluginCount e0 = curPluginCount e + 1
           ∧ ∃ slots' p pl,
               plugins e0 = Some slots'
               ∧ slots' !! Z.to_nat (curPluginCount e)
                 = Some (mkSlot (Some p) (0%Q, 0%Q) (0%Q, 0%Q))
               ∧ heap e0 !! p = Some pl
               ∧ p_id pl = curPluginCount e)) as Hctor.
  { intros pt. destruct (newPlugin pt _) as [nm en|err]; [|by apply Hframe].
    destruct (install_ok e
                (construct (mkInit (curPluginCount e) filename name label) nm en)
                Hok Hne eq_refl)
      as (e' & slots' & p & Hi & Hok' & Hc' & Hm' & Hkeep & Hs' & Hslot & Hheap).
    exists true, e'. split; [done|]. split; [done|]. split; [done|].
    split; [done|]. right. split; [done|].
    eexists slots', p, _. split; [done|]. split; [done|]. split; [done|]. done. }
  destruct ptype; [by apply Hframe|apply Hctor..].
Qed.

Lemma step_table_ok e op :
  table_ok e → in_range e op →
  ∃ r, step BINARY_NATIVE newPlugin e op = Some r ∧ table_ok (r.2).
Proof.
  intros Hok Hin. destruct op as [btype ptype filename name label|id]; cbn [step].
  - destruct (addPlugin_table_ok e btype ptype filename name label Hok)
      as (b & e' & -> & Hok' & _). by exists (b, e').
  - destruct (removePlugin_in_range e id Hok Hin) as (e' & -> & Hok' & _).
    by exists (true, e').
Qed.

(** The density part of the table claim on the sequences that keep to the
    asserted range: whatever additions and in-range removals are made, from a
    sound table, every operation has a result and the table is sound after
    it. *)
Lemma run_table_ok e ops :
  table_ok e → all_in_range BINARY_NATIVE newPlugin e ops →
  ∃ e', run BINARY_NATIVE newPlugin e ops = Some e' ∧ table_ok e'.
Proof.
  revert e. induction ops as [|op ops IH]; intros e Hok Hin; cbn [run].
  - by exists e.
  - destruct Hin as [Hop Hrest].
    destruct (step_table_ok e op Hok Hop) as (r & Hr & Hok').
    rewrite Hr. cbn [mbind option_bind]. apply IH; [done|]. by apply Hrest.
Qed.

End RunFacts.

Section TableExamples.

Import Engine.

Lemma init_table_ok maxRack maxPatchbay maxDefault e clientName :
  0 ≤ maxRack < 2 ^ 32 → 0 ≤ maxPatchbay < 2 ^ 32 → 0 ≤ maxDefault < 2 ^ 32 →
  table_ok (init maxRack maxPatchbay maxDefault e clientName).
Proof.
  intros HR HP HD. unfold init.
  set (max := match processMode (fOptions e) with
              | PROCESS_MODE_CONTINUOUS_RACK => maxRack
              | PROCESS_MODE_PATCHBAY => maxPatchbay
              | PROCESS_MODE_BRIDGE => 1
              | _ => maxDefault
              end).
  assert (0 ≤ max < 2 ^ 32) as Hmax.
  { subst max. destruct (processMode (fOptions e)); lia. }
  split; [|split; [|split]]; cbn.
  - eexists. split; [done|]. rewrite length_replicate. lia.
  - lia.
  - lia.
  - intros i Hi. cbn in Hi. lia.
Qed.

Lemma demo_engine_ok : table_ok demo_engine.
Proof. apply init_table_ok; lia. Qed.

Lemma demo_six_ok : table_ok demo_six.
Proof.
  assert (curPluginCount demo_six = 2) as Hc by (vm_compute; reflexivity).
  split; [|split; [|split]].
  - eexists. split; vm_compute; reflexivity.
  - rewrite Hc. vm_compute. split; discriminate.
  - vm_compute; reflexivity.
  - intros i Hi. rewrite Hc in Hi.
    assert (i = 0 ∨ i = 1) as [-> | ->] by lia;
      eexists _, _, _, _;
      (split; [vm_compute; reflexivity|]);
      (split; [vm_compute; reflexivity|]);
      (split; [vm_compute; reflexivity|]);
      split; vm_compute; reflexivity.
Qed.

(** C1: a removal whose id is not below the count is not refused when the
    slot of that id still holds the pointer an earlier shift left behind.
    After adding A, B, C, removing id 0 twice and adding D, the table is sound
    with two plugins and slot 2 still points to C; [removePlugin] of id 2 then
    succeeds, lowers the count to 1 and deletes C, so that slot 0, the only
    slot of the prefix, points to no plugin. *)
Theorem removePlugin_out_of_range_breaks_density :
  run BINARY_POSIX64 demo_ctor demo_engine
    [add "A"; add "B"; add "C"; RemovePlugin 0; RemovePlugin 0; add "D"]
  = Some demo_six
  ∧ table_ok demo_six
  ∧ curPluginCount demo_six = 2
  ∧ removePlugin demo_six 2 = Some (true, demo_seven)
  ∧ curPluginCount demo_seven = 1
  ∧ plugin_at demo_seven 0 = None
  ∧ ¬ dense demo_seven.
Proof.
  split; [vm_compute; reflexivity|].
  split; [exact demo_six_ok|].
  split; [vm_compute; reflexivity|].
  split; [vm_compute; reflexivity|].
  split; [vm_compute; reflexivity|].
  assert (plugin_at demo_seven 0 = None) as Hnone by (vm_compute; reflexivity).
  split; [exact Hnone|].
  intros Hd.
  destruct (dense_plugin_at demo_seven 0 Hd) as (? & ? & ? & ? & _ & _ & _ & _ & H & _).
  - vm_compute. split; [discriminate|reflexivity].
  - rewrite Hnone in H. discriminate H.
Qed.

(** The general lemmas at work on a concrete sequence whose removal is in
    range, and on a concrete table. *)
Example run_table_ok_demo :
  ∃ e, run BINARY_POSIX64 demo_ctor demo_engine [add "a"; add "b"; RemovePlugin 0]
       = Some e
     ∧ table_ok e.
Proof.
  apply run_table_ok; [exact demo_engine_ok|].
  split; [exact I|]. intros r Hr. vm_compute in Hr. injection Hr as <-.
  split; [exact I|]. intros r Hr. vm_compute in Hr. injection Hr as <-.
  split; [vm_compute; split; [discriminate|reflexivity]|].
  intros r Hr. exact I.
Qed.

Example removePlugin_in_range_demo :
  ∃ e', removePlugin demo_six 0 = Some (true, e')
      ∧ table_ok e'
      ∧ curPluginCount e' = curPluginCount demo_six - 1.
Proof.
  destruct (removePlugin_in_range demo_six 0 demo_six_ok)
    as (e' & He & Hok & Hc & _).
  - vm_compute. split; [discriminate|reflexivity].
  - exists e'. split; [exact He|]. split; [exact Hok|exact Hc].
Qed.

(** The first scenario of the specification: two plugins added, the first
    removed; one plugin is left, in slot 0 with id 0, and it is the second. *)
Example add_add_remove :
  ∃ e, run BINARY_POSIX64 demo_ctor demo_engine [add "a"; add "b"; RemovePlugin 0]
       = Some e
     ∧ curPluginCount e = 1
     ∧ plugin_at e 0 = Some (mkPlugin 0 (Some "b") true).
Proof. eexists. split; [vm_compute; reflexivity|]. split; vm_compute; reflexivity. Qed.

(** The slip behind it: after the shift the vacated last slot keeps its
    pointer, here slot 1 after the removal of id 0 of two plugins. *)
Example shift_leaves_last_slot :
  ∃ e slots s0 s1,
    run BINARY_POSIX64 demo_ctor demo_engine [add "a"; add "b"; RemovePlugin 0]
    = Some e
    ∧ plugins e = Some slots
    ∧ slots !! 0%nat = Some s0 ∧ slots !! 1%nat = Some s1
    ∧ is_Some (plugin s1) ∧ plugin s1 = plugin s0.
Proof.
  eexists _, _, _, _. split; [vm_compute; reflexivity|].
  split; [vm_compute; reflexivity|].
  split; [vm_compute; reflexivity|].
  split; [vm_compute; reflexivity|].
  split; [by eexists|reflexivity].
Qed.

End TableExamples.

(** ** More facts about event ports *)

Section EventPortWrites.

Import EventPort.

Implicit Types (events : list EngineEvent) (mem : gmap positive (list EngineEvent)).
Implicit Types (p : CarlaEngineEventPort).

(** The write loop on an array of exactly [kMax] events: the first Null
    entry at or after the starting index is filled, and a loop that finds
    none returns the array as it is. *)
Lemma write_loop_spec fill events fuel (i : nat) :
  (i ≤ length events)%nat → (length events - i < fuel)%nat →
  write_loop fill events (Z.of_nat (length events)) fuel (Z.of_nat i)
  = Some (match events !! (i + first_null (drop i events))%nat with
          | Some e => <[(i + first_null (drop i events))%nat := fill e]> events
          | None => events
          end).
Proof.
  revert i. induction fuel as [|fuel IH]; intros i Hi Hf; [lia|].
  cbn [write_loop].
  destruct (Z.ltb_spec (Z.of_nat i) (Z.of_nat (length events))) as [Hlt|Hge].
  - rewrite Nat2Z.id.
    destruct (lookup_lt_is_Some_2 events i) as [e He]; [lia|].
    rewrite He. cbn [mbind option_bind]. rewrite (drop_S _ _ _ He).
    cbn [first_null]. destruct (is_null_event e); cbn [negb].
    + by rewrite Nat.add_0_r, He.
    + replace (Z.of_nat i + 1) with (Z.of_nat (S i)) by lia.
      rewrite IH by lia.
      by replace (i + S (first_null (drop (S i) events)))%nat
        with (S i + first_null (drop (S i) events))%nat by lia.
  - rewrite drop_ge by lia. cbn [first_null]. rewrite Nat.add_0_r.
    by rewrite lookup_ge_None_2 by lia.
Qed.

Lemma first_null_app_nulls pre m :
  Forall (λ e, ev_type e ≠ kEngineEventTypeNull) pre →
  first_null (pre ++ replicate m zeroEvent) = length pre.
Proof.
  induction 1 as [|e rest He _ IH]; cbn [app first_null length].
  - by destruct m.
  - unfold is_null_event. rewrite bool_decide_eq_false_2 by done.
    by rewrite IH.
Qed.

(** X1: Both writes on a port whose buffer has no Null entry left leave the
    whole event memory as it is: the event is dropped. *)
Theorem write_on_full_buffer_dropped mem p a events :
  port_ok mem p → fBuffer p = Some a → mem !! a = Some events →
  Forall (λ e, ev_type e ≠ kEngineEventTypeNull) events →
  (∀ time channel type param value,
     writeControlEvent mem p time channel type param value = Some mem)
  ∧ (∀ time channel port data size,
       writeMidiEvent mem p time channel port data size = Some mem).
Proof.
  intros [_ Hbuf] Ha Hm Hall.
  destruct (Hbuf a Ha) as (Hmode & events' & Hm' & Hlen).
  assert (events' = events) as -> by congruence.
  assert (∀ fill, write_loop fill events (kMaxEventCount p)
                    (S (Z.to_nat (kMaxEventCount p))) 0 = Some events) as Hloop.
  { intros fill. rewrite <- Hlen, Nat2Z.id.
    pose proof (write_loop_spec fill events (S (length events)) 0) as H.
    rewrite drop_0, (first_null_full _ Hall) in H. cbn [Nat.add] in H.
    rewrite lookup_ge_None_2 in H by lia. apply H; lia. }
  split.
  - intros. unfold writeControlEvent. rewrite Ha, Hmode, Hm.
    cbn [mbind option_bind]. rewrite Hloop. cbn [mbind option_bind].
    rewrite insert_id by done.
    by repeat match goal with |- context [if ?b then _ else _] => destruct b end.
  - intros. unfold writeMidiEvent. rewrite Ha, Hmode, Hm.
    destruct data as [d|];
      [|by destruct (kIsInput p), (MAX_MIDI_CHANNELS <=? channel)].
    cbn [mbind option_bind]. rewrite Hloop. cbn [mbind option_bind].
    rewrite insert_id by done.
    by repeat match goal with |- context [if ?b then _ else _] => destruct b end.
Qed.

(** One control write on a buffer made of events followed by zeroed
    entries. *)
Lemma writeControlEvent_step mem p a pre m w :
  port_ok mem p → kIsInput p = false → fBuffer p = Some a →
  mem !! a = Some (pre ++ replicate m zeroEvent) →
  Forall (λ e, ev_type e ≠ kEngineEventTypeNull) pre →
  writeControlEvent mem p (w_time w) (w_channel w) (w_type w) (w_param w) (w_value w)
  = Some (if accepted w then
            match m with
            | S m' => <[a := (pre ++ [control_event w]) ++ replicate m' zeroEvent]> mem
            | O => mem
            end
          else mem).
Proof.
  intros [_ Hbuf] Hin Ha Hm Hpre.
  destruct (Hbuf a Ha) as (Hmode & events' & Hm' & Hlen).
  assert (events' = pre ++ replicate m zeroEvent) as -> by congruence.
  unfold writeControlEvent, accepted. rewrite Hin, Ha.
  destruct (bool_decide (w_type w = kEngineControlEventTypeNull)); [done|].
  cbn [negb andb].
  destruct (Z.leb_spec MAX_MIDI_CHANNELS (w_channel w)) as [Hc|Hc].
  { by destruct (Z.ltb_spec (w_channel w) MAX_MIDI_CHANNELS); [lia|]. }
  destruct (Z.ltb_spec (w_channel w) MAX_MIDI_CHANNELS); [|lia].
  rewrite Hmode, Hm. cbn [mbind option_bind].
  rewrite <- Hlen, Nat2Z.id.
  pose proof (write_loop_spec
                (fill_control (w_time w) (w_channel w) (w_type w) (w_param w) (w_value w))
                (pre ++ replicate m zeroEvent)
                (S (length (pre ++ replicate m zeroEvent))) 0) as Hloop.
  rewrite drop_0, first_null_app_nulls in Hloop by done. cbn [Nat.add] in Hloop.
  change (Z.of_nat 0) with 0 in Hloop. rewrite Hloop by lia.
  cbn [mbind option_bind]. destruct m as [|m'].
  - rewrite lookup_ge_None_2 by (rewrite length_app; cbn; lia).
    by rewrite insert_id.
  - rewrite lookup_app_r by lia. rewrite Nat.sub_diag. cbn [replicate lookup list_lookup].
    replace (length pre) with (length pre + 0)%nat at 1 by lia.
    rewrite insert_app_r. cbn [replicate]. f_equal. f_equal.
    by rewrite <- app_assoc.
Qed.

(** X2: A run of control writes on a port whose buffer is all zeroed, as
    [initBuffer] leaves a patchbay output: the calls that pass the tests on
    type and channel are stored in the order of the calls from index 0, up to
    the capacity; the calls beyond it and the calls that fail a test leave no
    trace; the count read from the input side is the number stored, and no
    other buffer changes. *)
Theorem write_all_on_cleared mem p a ws :
  port_ok mem p → kIsInput p = false → fBuffer p = Some a →
  mem !! a = Some (replicate (Z.to_nat (kMaxEventCount p)) zeroEvent) →
  ∃ mem' stored,
    stored = take (Z.to_nat (kMaxEventCount p))
               (control_event <$> filter (λ w, accepted w = true) ws)
    ∧ write_all mem p ws = Some mem'
    ∧ mem' !! a
      = Some (stored ++ replicate (Z.to_nat (kMaxEventCount p) - length stored) zeroEvent)
    ∧ getEventCount mem' (as_input p) = Some (Z.of_nat (length stored))
    ∧ (∀ i ev, stored !! i = Some ev →
         getEvent mem' (as_input p) (Z.of_nat i) = Some ev)
    ∧ (∀ b, b ≠ a → mem' !! b = mem !! b).
Proof.
  intros Hok Hin Ha Hm.
  set (cap := Z.to_nat (kMaxEventCount p)) in *.
  assert (∀ ws0 mem0 pre m,
            port_ok mem0 p → mem0 !! a = Some (pre ++ replicate m zeroEvent) →
            Forall (λ e, ev_type e ≠ kEngineEventTypeNull) pre →
            (length pre + m = cap)%nat →
            ∃ mem',
              write_all mem0 p ws0 = Some mem'
              ∧ port_ok mem' p
              ∧ mem' !! a
                = Some (take cap (pre ++ (control_event <$>
                                            filter (λ w, accepted w = true) ws0))
                        ++ replicate
                             (cap - length (take cap (pre ++ (control_event <$>
                                 filter (λ w, accepted w = true) ws0))))
                             zeroEvent)
              ∧ (∀ b, b ≠ a → mem' !! b = mem0 !! b)) as Hgen.
  { clear mem Hok Hm ws. clearbody cap. intros ws.
    induction ws as [|w ws IH]; intros mem pre m Hok Hm Hpre Hcap.
    - exists mem. split; [done|]. split; [done|]. split; [|done].
      rewrite filter_nil, fmap_nil, app_nil_r. rewrite take_ge by lia.
      rewrite Hm. do 3 f_equal. lia.
    - cbn [write_all].
      rewrite (writeControlEvent_step mem p a pre m w Hok Hin Ha Hm Hpre).
      cbn [mbind option_bind].
      destruct (accepted w) eqn:Hacc.
      2:{ rewrite filter_cons_False by (by rewrite Hacc).
          by apply (IH mem pre m). }
      rewrite filter_cons_True by done. rewrite fmap_cons.
      destruct m as [|m'].
      + destruct (IH mem pre 0%nat Hok Hm Hpre Hcap) as (mem' & Hw & Hok' & Hb & Hfr).
        exists mem'. split; [done|]. split; [done|]. split; [|done].
        rewrite Hb. rewrite !take_app_le by lia. done.
      + destruct (IH (<[a := (pre ++ [control_event w]) ++ replicate m' zeroEvent]> mem)
                    (pre ++ [control_event w]) m') as (mem' & Hw & Hok' & Hb & Hfr).
        * eapply port_ok_insert; [done| |done].
          rewrite !length_app, !length_replicate. cbn. lia.
        * apply lookup_insert_eq.
        * apply Forall_app. split; [done|]. by apply Forall_singleton.
        * rewrite length_app. cbn. lia.
        * exists mem'. split; [done|]. split; [done|]. split.
          -- rewrite Hb. by rewrite <- !app_assoc.
          -- intros b Hne. rewrite Hfr by done. by apply lookup_insert_ne. }
  destruct (Hgen ws mem [] cap Hok Hm ltac:(done) eq_refl)
    as (mem' & Hw & Hok' & Hb & Hfr).
  cbn [app] in Hb.
  set (stored := take cap (control_event <$> filter (λ w, accepted w = true) ws)) in *.
  assert (Forall (λ e, ev_type e ≠ kEngineEventTypeNull) stored) as Hstored.
  { apply Forall_take, Forall_fmap, Forall_forall. by intros w _. }
  assert (length stored ≤ cap)%nat as Hle by (subst stored; rewrite length_take; lia).
  assert (port_ok mem' (as_input p)) as Hokin.
  { destruct Hok' as [? ?]. by split. }
  destruct (getEventCount_ok mem' (as_input p) a _ Hokin eq_refl Ha Hb) as [Hc Hl].
  exists mem', stored. split; [done|]. split; [done|]. split; [done|].
  split; [|split; [|done]].
  - rewrite Hc. by rewrite first_null_app_nulls.
  - intros i ev Hi. unfold getEvent, as_input.
    cbn [kIsInput fBuffer kMaxEventCount kProcessMode negb]. rewrite Ha.
    pose proof (lookup_lt_Some _ _ _ Hi) as Hlt.
    cbn [as_input kMaxEventCount] in Hl.
    destruct (Z.leb_spec (kMaxEventCount p) (Z.of_nat i)); [lia|].
    destruct Hok as [_ Hbuf]. destruct (Hbuf a Ha) as (-> & _).
    rewrite Hb. cbn [mbind option_bind]. rewrite Nat2Z.id.
    by rewrite lookup_app_l by lia.
Qed.

(** X3: When [writeMidiEvent] has written into the buffer of a port that held
    [n] events, the port is an output, the channel is below 16, the size is
    1, 2 or 3, and reading the port as an input gives at index [n] a MIDI
    event with the time, channel, port, three data bytes and size of the
    call. *)
Theorem writeMidiEvent_read_back mem mem' p n time channel port data size :
  0 ≤ size →
  getEventCount mem (as_input p) = Some n →
  writeMidiEvent mem p time channel port data size = Some mem' →
  mem' ≠ mem →
  kIsInput p = false ∧ channel < MAX_MIDI_CHANNELS ∧ 1 ≤ size ≤ 3
  ∧ ∃ e d, data = Some d
    ∧ getEvent mem' (as_input p) n = Some e
    ∧ ev_type e = kEngineEventTypeMidi
    ∧ ev_time e = time
    ∧ ev_channel e = channel
    ∧ midi_port (ev_midi e) = port
    ∧ midi_data (ev_midi e) = d
    ∧ midi_size (ev_midi e) = size.
Proof.
  unfold getEventCount, writeMidiEvent, getEvent, as_input.
  cbn [kIsInput fBuffer kProcessMode kMaxEventCount negb].
  intros Hsize Hc Hw Hne.
  destruct (kIsInput p); [by inversion Hw|].
  destruct (fBuffer p) as [a|]; [|by inversion Hw].
  destruct (Z.leb_spec MAX_MIDI_CHANNELS channel); [by inversion Hw|].
  destruct data as [d|]; [|by inversion Hw].
  destruct (Z.eqb_spec size 0); [by inversion Hw|].
  destruct (rack_or_patchbay (kProcessMode p)); [|by inversion Hw].
  destruct (Z.ltb_spec 3 size); [by inversion Hw|].
  destruct (mem !! a) as [events|] eqn:Hm; [|done].
  cbn [mbind option_bind] in Hc, Hw.
  destruct (write_loop _ events _ _ 0) as [events'|] eqn:Hloop; [|done].
  cbn [mbind option_bind] in Hw. injection Hw as <-.
  assert (events' ≠ events) as Hchg.
  { intros ->. apply Hne. by apply insert_id. }
  destruct (write_loop_changed _ _ _ _ 0 0 _ ltac:(lia) Hloop Hchg)
    as (j & e & Hj & Hje & -> & Hcount).
  rewrite Hcount in Hc. injection Hc as <-.
  replace (0 + (Z.of_nat j - 0)) with (Z.of_nat j) by lia.
  destruct (Z.leb_spec (kMaxEventCount p) (Z.of_nat j)); [lia|].
  rewrite lookup_insert_eq. cbn [mbind option_bind].
  rewrite Nat2Z.id, list_lookup_insert_eq by (by eapply lookup_lt_Some).
  split; [done|]. split; [done|]. split; [lia|].
  eexists _, d. split; [done|]. split; [done|]. by repeat split.
Qed.



(** X5: [initBuffer] empties a patchbay output port, whatever it held: read as
    an input it then has no event, and no other buffer changes.  On a
    patchbay input port it changes nothing. *)
Theorem initBuffer_patchbay mem p a getRackEventBuffer :
  port_ok mem p → kProcessMode p = PROCESS_MODE_PATCHBAY → fBuffer p = Some a →
  (kIsInput p = true →
     initBuffer (Some getRackEventBuffer) p mem = Some (p, mem))
  ∧ (kIsInput p = false →
     ∃ mem', initBuffer (Some getRackEventBuffer) p mem = Some (p, mem')
       ∧ mem' !! a = Some (replicate (Z.to_nat (kMaxEventCount p)) zeroEvent)
       ∧ getEventCount mem' (as_input p) = Some 0
       ∧ ∀ b, b ≠ a → mem' !! b = mem !! b).
Proof.
  intros [Hcap Hbuf] Hmode Ha.
  destruct (Hbuf a Ha) as (Hrp & events & Hm & Hlen).
  rewrite Hmode in Hcap. rewrite bool_decide_eq_false_2 in Hcap by done.
  unfold initBuffer. rewrite Hmode.
  rewrite (bool_decide_eq_false_2 (PROCESS_MODE_PATCHBAY = PROCESS_MODE_CONTINUOUS_RACK))
    by done.
  rewrite (bool_decide_eq_true_2 (PROCESS_MODE_PATCHBAY = PROCESS_MODE_PATCHBAY))
    by done.
  split; intros Hin; rewrite Hin; cbn [negb andb]; [done|].
  rewrite Ha. cbn [mbind option_bind]. rewrite Hm. cbn [mbind option_bind].
  eexists. split; [done|]. rewrite Hcap.
  split; [apply lookup_insert_eq|]. split.
  - unfold getEventCount, as_input.
    cbn [kIsInput fBuffer kProcessMode kMaxEventCount negb].
    rewrite Ha, Hrp, lookup_insert_eq. cbn [mbind option_bind].
    rewrite Hcap. reflexivity.
  - intros b Hb. by apply lookup_insert_ne.
Qed.

Lemma demo_port_ok_full : port_ok demo_mem_full demo_port.
Proof.
  split; [vm_compute; reflexivity|]. intros a Ha.
  assert (a = 1%positive) as ->.
  { vm_compute in Ha. by injection Ha as <-. }
  split; [vm_compute; reflexivity|].
  eexists. split; [apply lookup_insert_eq|]. vm_compute; reflexivity.
Defined.

Lemma write_on_full_buffer_dropped_witness :
  writeControlEvent demo_mem_full demo_port 1 2 kEngineControlEventTypeParameter 7 1
  = Some demo_mem_full
  ∧ writeMidiEvent demo_mem_full demo_port 1 2 0 (Some (144, 60, 100)) 3
    = Some demo_mem_full.
Proof.
  destruct (write_on_full_buffer_dropped demo_mem_full demo_port 1%positive
              (replicate 512 (control_event
                 (mkWrite 0 0 kEngineControlEventTypeParameter 7 0)))
              demo_port_ok_full) as [Hc Hm].
  - vm_compute; reflexivity.
  - apply lookup_insert_eq.
  - apply Forall_replicate. discriminate.
  - split; [apply Hc|apply Hm].
Defined.

Lemma write_all_on_cleared_witness :
  ∃ mem' stored,
    stored = take (Z.to_nat (kMaxEventCount demo_port))
               (control_event <$> filter (λ w, accepted w = true) demo_writes)
    ∧ write_all demo_mem demo_port demo_writes = Some mem'
    ∧ mem' !! 1%positive
      = Some (stored ++ replicate (Z.to_nat (kMaxEventCount demo_port) - length stored)
                          zeroEvent)
    ∧ getEventCount mem' (as_input demo_port) = Some (Z.of_nat (length stored))
    ∧ (∀ i ev, stored !! i = Some ev →
         getEvent mem' (as_input demo_port) (Z.of_nat i) = Some ev)
    ∧ (∀ b, b ≠ 1%positive → mem' !! b = demo_mem !! b).
Proof.
  apply (write_all_on_cleared demo_mem demo_port 1%positive demo_writes
           demo_port_ok); vm_compute; reflexivity.
Defined.

(** The run of the example stores its first and last call, two events. *)
Example write_all_demo :
  length (filter (λ w, accepted w = true) demo_writes) = 2%nat
  ∧ (write_all demo_mem demo_port demo_writes
       ≫= λ mem', getEventCount mem' (as_input demo_port)) = Some 2
  ∧ (write_all demo_mem demo_port demo_writes
       ≫= λ mem', getEvent mem' (as_input demo_port) 1)
    = Some (control_event (mkWrite 3 15 kEngineControlEventTypeMidiProgram 5 0)).
Proof. repeat split; vm_compute; reflexivity. Qed.

Lemma writeMidiEvent_read_back_witness :
  kIsInput demo_port = false ∧ 2 < MAX_MIDI_CHANNELS ∧ 1 ≤ 3 ≤ 3
  ∧ ∃ e d, Some (144, 60, 100) = Some d
    ∧ getEvent demo_mem_midi (as_input demo_port) 0 = Some e
    ∧ ev_type e = kEngineEventTypeMidi
    ∧ ev_time e = 9
    ∧ ev_channel e = 2
    ∧ midi_port (ev_midi e) = 1
    ∧ midi_data (ev_midi e) = d
    ∧ midi_size (ev_midi e) = 3.
Proof.
  apply (writeMidiEvent_read_back demo_mem demo_mem_midi demo_port 0 9 2 1
           (Some (144, 60, 100)) 3).
  - lia.
  - vm_compute; reflexivity.
  - vm_compute; reflexivity.
  - intros H.
    apply (f_equal (λ m : gmap positive (list EngineEvent),
                      is_null_event <$> (m !! 1%positive ≫= (.!! 0%nat)))) in H.
    vm_compute in H. discriminate H.
Defined.


Lemma initBuffer_patchbay_witness :
  ∃ mem', initBuffer (Some (λ _, None)) demo_port demo_mem1 = Some (demo_port, mem')
    ∧ mem' !! 1%positive
      = Some (replicate (Z.to_nat (kMaxEventCount demo_port)) zeroEvent)
    ∧ getEventCount mem' (as_input demo_port) = Some 0
    ∧ ∀ b, b ≠ 1%positive → mem' !! b = demo_mem1 !! b.
Proof.
  apply (proj2 (initBuffer_patchbay demo_mem1 demo_port 1%positive (λ _, None)
                  (writeControlEvent_port_ok demo_mem demo_mem1 demo_port demo_port
                     5 3 kEngineControlEventTypeParameter 7 (1 # 2)
                     ltac:(vm_compute; reflexivity) demo_port_ok)
                  ltac:(vm_compute; reflexivity) ltac:(vm_compute; reflexivity)));
    vm_compute; reflexivity.
Defined.

End EventPortWrites.

(** ** Facts about plugin lookup, peaks and forwarded calls *)

Section LookupFacts.

Import Engine.

(** X6: On a sound table [getPlugin] answers exactly for the ids below the
    count: there it gives a pointer to a live plugin whose id is the one
    asked for, and at or above the count it gives null. *)
Theorem getPlugin_checked e id :
  table_ok e → 0 ≤ id →
  ∃ r, getPlugin e id = Some r
    ∧ (id < curPluginCount e →
       ∃ p pl, r = Some p ∧ heap e !! p = Some pl ∧ p_id pl = id)
    ∧ (curPluginCount e ≤ id → r = None).
Proof.
  intros ((slots & Hs & Hlen) & Hc & Hmax & Hd) Hid.
  unfold getPlugin. rewrite Hs.
  destruct (Z.ltb_spec id (curPluginCount e)) as [Hlt|Hge].
  - destruct (Hd id ltac:(lia)) as (slots' & slot & p & pl & H1 & H2 & H3 & H4 & H5).
    assert (slots' = slots) as -> by congruence.
    rewrite H2. cbn [mbind option_bind]. eexists. split; [done|].
    split; [|lia]. intros _. by exists p, pl.
  - eexists. split; [done|]. split; [lia|done].
Qed.

(** X7: [setPeaks] and the two peak getters: what is set for a slot is read
    back, entry by entry; the plugin pointers, the peaks of the other slots
    and the soundness of the table are not affected; a third entry does not
    exist. *)
Theorem setPeaks_read_back e pluginId inPeaks outPeaks :
  table_ok e → 0 ≤ pluginId < maxPluginNumber e →
  ∃ e', setPeaks e pluginId inPeaks outPeaks = Some e'
    ∧ getInputPeak e' pluginId 0 = Some (inPeaks.1)
    ∧ getInputPeak e' pluginId 1 = Some (inPeaks.2)
    ∧ getOutputPeak e' pluginId 0 = Some (outPeaks.1)
    ∧ getOutputPeak e' pluginId 1 = Some (outPeaks.2)
    ∧ getInputPeak e' pluginId 2 = None
    ∧ (∀ j k, 0 ≤ j → j ≠ pluginId →
         getInputPeak e' j k = getInputPeak e j k
         ∧ getOutputPeak e' j k = getOutputPeak e j k)
    ∧ (∀ j, getPluginUnchecked e' j = getPluginUnchecked e j)
    ∧ table_ok e'.
Proof.
  intros ((slots & Hs & Hlen) & Hc & Hmax & Hd) Hid.
  assert (Z.to_nat pluginId < length slots)%nat as Hlt by lia.
  destruct (lookup_lt_is_Some_2 slots _ Hlt) as [slot Hslot].
  eexists. split.
  { unfold setPeaks. rewrite Hs. cbn [mbind option_bind]. rewrite Hslot. done. }
  unfold getInputPeak, getOutputPeak, getPluginUnchecked.
  cbn [set_table plugins mbind option_bind].
  rewrite list_lookup_insert_eq by done. cbn [mbind option_bind insPeak outsPeak].
  do 5 (split; [done|]). split; [|split].
  - intros j k Hj Hne. rewrite Hs. cbn [mbind option_bind].
    by rewrite list_lookup_insert_ne by lia.
  - intros j. rewrite Hs. cbn [mbind option_bind].
    destruct (decide (Z.to_nat pluginId = Z.to_nat j)) as [<-|Hne].
    + rewrite list_lookup_insert_eq by done. by rewrite Hslot.
    + by rewrite list_lookup_insert_ne.
  - split; [|split; [|split]]; cbn.
    + eexists. split; [done|]. by rewrite length_insert.
    + done.
    + done.
    + intros i Hi. cbn in Hi.
      destruct (Hd i Hi) as (slots' & s & p & pl & H1 & H2 & H3 & H4 & H5).
      assert (slots' = slots) as -> by congruence.
      destruct (decide (Z.to_nat pluginId = Z.to_nat i)) as [Heq|Hne].
      * eexists _, _, p, pl. cbn. split; [done|]. rewrite Heq.
        rewrite list_lookup_insert_eq by (by eapply lookup_lt_Some).
        split; [done|]. cbn. rewrite Heq in Hslot.
        assert (slot = s) as -> by congruence. done.
      * eexists _, s, p, pl. cbn. split; [done|].
        by rewrite list_lookup_insert_ne.
Qed.

(** The loop of the forwarded calls visits the enabled plugins of a dense
    prefix in ascending order. *)
Lemma forward_loop_spec e fuel i calls :
  dense e → 0 ≤ i ≤ curPluginCount e →
  (Z.to_nat (curPluginCount e - i) < fuel)%nat →
  forward_loop e fuel i calls
  = Some (calls ++ filter (λ j, enabled_at e j = true)
                     (seqZ i (curPluginCount e - i))).
Proof.
  intros Hd. revert i calls.
  induction fuel as [|fuel IH]; intros i calls Hi Hf; [lia|].
  cbn [forward_loop].
  destruct (Z.ltb_spec i (curPluginCount e)) as [Hlt|Hge].
  - destruct (dense_plugin_at e i Hd ltac:(lia))
      as (slots & slot & p & pl & H1 & H2 & H3 & H4 & H5 & _).
    rewrite H1. cbn [mbind option_bind]. rewrite H2. cbn [mbind option_bind].
    rewrite H3, H4. cbn [mbind option_bind].
    rewrite (seqZ_cons i) by lia.
    replace (Z.pred (curPluginCount e - i)) with (curPluginCount e - (i + 1)) by lia.
    replace (Z.succ i) with (i + 1) by lia.
    destruct (p_enabled pl) eqn:Hen; rewrite IH by lia.
    + rewrite filter_cons_True by (unfold enabled_at; by rewrite H5).
      by rewrite <- app_assoc.
    + rewrite filter_cons_False; [done|]. unfold enabled_at. rewrite H5, Hen. done.
  - replace (curPluginCount e - i) with 0 by lia. cbn. by rewrite app_nil_r.
Qed.

(** X8: [idle], [bufferSizeChanged] and [sampleRateChanged] on a sound table:
    each calls its plugin method once for every enabled plugin of the prefix,
    by ascending id, with the argument it received, and for no other. *)
Theorem forwarded_to_enabled e :
  table_ok e →
  let enabled := filter (λ j, enabled_at e j = true) (seqZ 0 (curPluginCount e)) in
  idle e = Some enabled
  ∧ (∀ newBufferSize,
       bufferSizeChanged e newBufferSize
       = Some (map (λ i, (i, newBufferSize)) enabled))
  ∧ (∀ newSampleRate,
       sampleRateChanged e newSampleRate
       = Some (map (λ i, (i, newSampleRate)) enabled)).
Proof.
  intros (_ & Hc & _ & Hd). cbv zeta.
  assert (forward_loop e (S (Z.to_nat (curPluginCount e))) 0 []
          = Some (filter (λ j, enabled_at e j = true) (seqZ 0 (curPluginCount e))))
    as Hloop.
  { rewrite forward_loop_spec by (done || lia). by rewrite Z.sub_0_r. }
  unfold idle, bufferSizeChanged, sampleRateChanged. by rewrite Hloop.
Qed.

End LookupFacts.

(** ** Facts about the drivers and the OSC senders *)

Section DriverFacts.

Import Engine.

(** X9: [getDriverCount] and [getDriverName] agree: the indices below the count
    are exactly those with a name, and the names are "JACK" first, when JACK
    is compiled in, followed by the audio APIs in their order. *)
Theorem getDriverName_below_count WANT_JACK RtAudioApis index :
  0 ≤ index < 2 ^ 32 →
  Z.of_nat (length (drivers WANT_JACK RtAudioApis)) < 2 ^ 32 →
  getDriverCount WANT_JACK RtAudioApis
  = Z.of_nat (length (drivers WANT_JACK RtAudioApis))
  ∧ getDriverName WANT_JACK RtAudioApis index
    = drivers WANT_JACK RtAudioApis !! Z.to_nat index
  ∧ (is_Some (getDriverName WANT_JACK RtAudioApis index)
     ↔ index < getDriverCount WANT_JACK RtAudioApis).
Proof.
  intros Hi Hlen.
  assert (getDriverCount WANT_JACK RtAudioApis
          = Z.of_nat (length (drivers WANT_JACK RtAudioApis))) as Hcount.
  { unfold getDriverCount, drivers, uint32 in *.
    destruct WANT_JACK, RtAudioApis as [apis|]; cbn in *;
      rewrite ?(Z.mod_small (0 + 1)) by lia; rewrite ?Z.mod_small by lia; lia. }
  assert (getDriverName WANT_JACK RtAudioApis index
          = drivers WANT_JACK RtAudioApis !! Z.to_nat index) as Hname.
  { unfold getDriverName, drivers, uint32 in *.
    destruct WANT_JACK; cbn [app default].
    - destruct (Z.eqb_spec index 0) as [->|Hne]; [done|].
      rewrite Z.mod_small by lia.
      replace (Z.to_nat index) with (S (Z.to_nat (index - 1))) by lia.
      cbn [lookup list_lookup].
      destruct RtAudioApis as [apis|]; cbn [default].
      + destruct (Z.ltb_spec (index - 1) (Z.of_nat (length apis))); [done|].
        symmetry. apply lookup_ge_None_2. unfold id. lia.
      + done.
    - destruct RtAudioApis as [apis|]; cbn [default].
      + destruct (Z.ltb_spec index (Z.of_nat (length apis))); [done|].
        symmetry. apply lookup_ge_None_2. unfold id. lia.
      + done. }
  split; [done|]. split; [done|].
  rewrite Hname, Hcount, lookup_lt_is_Some. lia.
Qed.

Lemma getDriverName_below_count_witness :
  getDriverCount true (Some ["ALSA"; "PulseAudio"]) = 3
  ∧ getDriverName true (Some ["ALSA"; "PulseAudio"]) 2 = Some "PulseAudio"
  ∧ (is_Some (getDriverName true (Some ["ALSA"; "PulseAudio"]) 3)
     ↔ 3 < getDriverCount true (Some ["ALSA"; "PulseAudio"])).
Proof.
  destruct (getDriverName_below_count true (Some ["ALSA"; "PulseAudio"]) 2)
    as (Hc & Hn & _); [lia|cbn; lia|].
  destruct (getDriverName_below_count true (Some ["ALSA"; "PulseAudio"]) 3)
    as (_ & _ & Hi); [lia|cbn; lia|].
  split; [exact Hc|]. split; [exact Hn|exact Hi].
Defined.

End DriverFacts.

Section OscFacts.

Import Engine Osc.

(** X10: No sender overruns its address buffer, whatever the base path: with a
    target, each request sends exactly one message, addressed to the base
    path followed by a suffix that starts with a slash, and whose type tags
    are those of its arguments, one by one.  Without OSC data or without a
    target nothing is sent. *)
Theorem perform_sends_one d r :
  perform None r = Some []
  ∧ (target d = None → perform (Some d) r = Some [])
  ∧ (is_Some (target d) →
     ∃ m suffix,
       perform (Some d) r = Some [m]
       ∧ osc_address m = path d +:+ suffix
       ∧ String.get 0 suffix = Some "/"%char
       ∧ String.list_ascii_of_string (osc_types m) = tag_of <$> osc_args m).
Proof.
  split; [by destruct r|]. split.
  - intros Ht. destruct r; cbn; unfold send; by rewrite Ht.
  - intros [t Ht].
    destruct r; cbn; unfold send; rewrite Ht;
      match goal with
      | |- context [?a <? ?b] =>
        destruct (Z.ltb_spec a b) as [Hlt|_]; [cbn in Hlt; lia|]
      end;
      eexists _, _; (split; [reflexivity|]); (split; [reflexivity|]);
      split; reflexivity.
Qed.

Lemma perform_sends_one_witness :
  ∃ m suffix,
    perform (Some demo_osc) (NoteOn 0 1 60 100) = Some [m]
    ∧ osc_address m = path demo_osc +:+ suffix
    ∧ String.get 0 suffix = Some "/"%char
    ∧ String.list_ascii_of_string (osc_types m) = tag_of <$> osc_args m.
Proof.
  apply (proj2 (proj2 (perform_sends_one demo_osc (NoteOn 0 1 60 100)))).
  by eexists.
Defined.

(** X11: The peaks that [setPeaks] stored for a plugin are the values that
    [osc_send_peaks] reports for it: four messages, the two inputs and then
    the two outputs, each carrying the plugin id, the port number 1 or 2 and
    the peak; a plugin without audio inputs or outputs has the corresponding
    pair left out. *)
Theorem osc_send_peaks_after_setPeaks e e' d id inPeaks outPeaks ins outs :
  is_Some (target d) →
  setPeaks e id inPeaks outPeaks = Some e' →
  osc_send_peaks (Some d) e' ins outs id
  = Some ((if 0 <? ins then
             [mkMessage (path d +:+ "/set_input_peak_value") "iid"
                [OscInt id; OscInt 1; OscDouble (inPeaks.1)];
              mkMessage (path d +:+ "/set_input_peak_value") "iid"
                [OscInt id; OscInt 2; OscDouble (inPeaks.2)]]
           else [])
          ++ (if 0 <? outs then
                [mkMessage (path d +:+ "/set_output_peak_value") "iid"
                   [OscInt id; OscInt 1; OscDouble (outPeaks.1)];
                 mkMessage (path d +:+ "/set_output_peak_value") "iid"
                   [OscInt id; OscInt 2; OscDouble (outPeaks.2)]]
              else [])).
Proof.
  intros [t Ht] Hset. unfold setPeaks in Hset.
  destruct (plugins e) as [slots|] eqn:Hs; [|done]. cbn [mbind option_bind] in Hset.
  destruct (slots !! Z.to_nat id) as [slot|] eqn:Hslot; [|done].
  cbn [mbind option_bind] in Hset. injection Hset as <-.
  assert (∀ k, getInputPeak
                 (set_table e (Some (<[Z.to_nat id := mkSlot (plugin slot) inPeaks outPeaks]> slots))
                    (curPluginCount e) (heap e)) id k = peak_at inPeaks k) as Hin.
  { intros k. unfold getInputPeak. cbn [set_table plugins mbind option_bind].
    by rewrite list_lookup_insert_eq by (by eapply lookup_lt_Some). }
  assert (∀ k, getOutputPeak
                 (set_table e (Some (<[Z.to_nat id := mkSlot (plugin slot) inPeaks outPeaks]> slots))
                    (curPluginCount e) (heap e)) id k = peak_at outPeaks k) as Hout.
  { intros k. unfold getOutputPeak. cbn [set_table plugins mbind option_bind].
    by rewrite list_lookup_insert_eq by (by eapply lookup_lt_Some). }
  unfold osc_send_peaks, osc_send_control_set_input_peak_value,
    osc_send_control_set_output_peak_value.
  cbn [mbind option_bind]. rewrite Ht, !Hin, !Hout.
  unfold send. rewrite Ht.
  repeat match goal with
  | |- context [Z.of_nat (String.length (path d)) + ?k
                <? Z.of_nat (String.length (path d)) + ?s + 1] =>
    destruct (Z.ltb_spec (Z.of_nat (String.length (path d)) + k)
                (Z.of_nat (String.length (path d)) + s + 1)) as [Hlt|_];
      [cbn in Hlt; lia|]
  end.
  by destruct (0 <? ins), (0 <? outs).
Qed.

End OscFacts.

(** ** Examples of the lookup, the peaks and the forwarded calls *)

Section LookupExamples.

Import Engine Osc.

Lemma getPlugin_checked_witness :
  ∃ r, getPlugin (demo_with ["a"]) 0 = Some r
    ∧ (0 < curPluginCount (demo_with ["a"]) →
       ∃ p pl, r = Some p ∧ heap (demo_with ["a"]) !! p = Some pl ∧ p_id pl = 0)
    ∧ (curPluginCount (demo_with ["a"]) ≤ 0 → r = None).
Proof.
  apply (getPlugin_checked (demo_with ["a"]) 0 demo_with_a_ok). lia.
Defined.

Lemma setPeaks_read_back_witness :
  ∃ e', setPeaks (demo_with ["a"]) 0 (1 # 2, 1 # 4) (3 # 4, 1%Q) = Some e'
    ∧ getInputPeak e' 0 0 = Some (1 # 2)
    ∧ getInputPeak e' 0 1 = Some (1 # 4)
    ∧ getOutputPeak e' 0 0 = Some (3 # 4)
    ∧ getOutputPeak e' 0 1 = Some 1%Q.
Proof.
  destruct (setPeaks_read_back (demo_with ["a"]) 0 (1 # 2, 1 # 4) (3 # 4, 1%Q)
              demo_with_a_ok)
    as (e' & He & H1 & H2 & H3 & H4 & _).
  - vm_compute. split; [discriminate|reflexivity].
  - exists e'. split; [exact He|]. split; [exact H1|]. split; [exact H2|].
    split; [exact H3|exact H4].
Defined.

Lemma forwarded_to_enabled_witness :
  idle (demo_with ["a"])
  = Some (filter (λ j, enabled_at (demo_with ["a"]) j = true)
            (seqZ 0 (curPluginCount (demo_with ["a"])))).
Proof.
  exact (proj1 (forwarded_to_enabled (demo_with ["a"]) demo_with_a_ok)).
Defined.

Example idle_demo : idle (demo_with ["a"; "b"]) = Some [0; 1].
Proof. vm_compute; reflexivity. Qed.

Lemma osc_send_peaks_after_setPeaks_witness :
  osc_send_peaks (Some demo_osc) demo_peaks 2 0 0
  = Some ((if 0 <? 2 then
             [mkMessage (path demo_osc +:+ "/set_input_peak_value") "iid"
                [OscInt 0; OscInt 1; OscDouble (1 # 2)];
              mkMessage (path demo_osc +:+ "/set_input_peak_value") "iid"
                [OscInt 0; OscInt 2; OscDouble (1 # 4)]]
           else [])
          ++ (if 0 <? 0 then
                [mkMessage (path demo_osc +:+ "/set_output_peak_value") "iid"
                   [OscInt 0; OscInt 1; OscDouble (3 # 4)];
                 mkMessage (path demo_osc +:+ "/set_output_peak_value") "iid"
                   [OscInt 0; OscInt 2; OscDouble 1%Q]]
              else [])).
Proof.
  apply (osc_send_peaks_after_setPeaks (demo_with ["a"]) demo_peaks demo_osc 0
           (1 # 2, 1 # 4) (3 # 4, 1%Q) 2 0).
  - by eexists.
  - vm_compute; reflexivity.
Defined.

End LookupExamples.

(** ** More facts about the options *)

Section OptionWrites.

Import Engine.

(** X12: What [setOption] may change: while the engine runs the nine guarded
    options are left exactly as they are, whereas a bridge path is stored
    whether the engine runs or not, without touching the other paths'
    option; and no option ever touches the plugin table, the plugin objects,
    the last error or the callbacks. *)
Theorem setOption_while_running e opt value valueStr :
  let e' := setOption e opt value valueStr in
  (isRunning e = true → gated opt = true → e' = e)
  ∧ (∀ s, stored_path (fOptions e) opt = Some s →
       stored_path (fOptions e') opt = Some valueStr
       ∧ processMode (fOptions e') = processMode (fOptions e)
       ∧ preferPluginBridges (fOptions e') = preferPluginBridges (fOptions e))
  ∧ plugins e' = plugins e
  ∧ curPluginCount e' = curPluginCount e
  ∧ maxPluginNumber e' = maxPluginNumber e
  ∧ heap e' = heap e
  ∧ lastError e' = lastError e
  ∧ callbacks e' = callbacks e
  ∧ isRunning e' = isRunning e.
Proof.
  cbv zeta. split; [|split].
  - intros Hr Hg. destruct opt; try done; unfold setOption; by rewrite Hr.
  - intros s Hs. destruct opt; try done; cbn;
      rewrite ?bool_decide_eq_true_2 by done; done.
  - destruct opt; unfold setOption; destruct (isRunning e) eqn:Hr;
      repeat case_match; cbn; rewrite ?Hr; done.
Qed.

Lemma setOption_while_running_witness :
  setOption demo_running OPTION_PREFER_PLUGIN_BRIDGES 1 "" = demo_running.
Proof.
  apply (proj1 (setOption_while_running demo_running
                  OPTION_PREFER_PLUGIN_BRIDGES 1 "")); reflexivity.
Defined.

(** X13: The numbers [setOption] stores on a stopped engine.  [value] is a C++
    [int]: a negative one is refused for the maximum of parameters only; the
    buffer size, the sample rate and the OSC timeout take it converted to
    unsigned, that is increased by 2^32; each flag is set exactly when the
    value is not 0. *)
Theorem setOption_unsigned_stored e value valueStr :
  isRunning e = false → - 2 ^ 31 ≤ value < 2 ^ 31 →
  let wrapped := if value <? 0 then value + 2 ^ 32 else value in
  let after opt := fOptions (setOption e opt value valueStr) in
  maxParameters (after OPTION_MAX_PARAMETERS)
  = (if value <? 0 then maxParameters (fOptions e) else value)
  ∧ preferredBufferSize (after OPTION_PREFERRED_BUFFER_SIZE) = wrapped
  ∧ preferredSampleRate (after OPTION_PREFERRED_SAMPLE_RATE) = wrapped
  ∧ oscUiTimeout (after OPTION_OSC_UI_TIMEOUT) = wrapped
  ∧ forceStereo (after OPTION_FORCE_STEREO) = negb (value =? 0)
  ∧ useDssiVstChunks (after OPTION_USE_DSSI_VST_CHUNKS) = negb (value =? 0)
  ∧ preferPluginBridges (after OPTION_PREFER_PLUGIN_BRIDGES) = negb (value =? 0)
  ∧ preferUiBridges (after OPTION_PREFER_UI_BRIDGES) = negb (value =? 0).
Proof.
  intros Hr Hv. cbv zeta. unfold setOption. rewrite Hr.
  assert (uint32 value = if value <? 0 then value + 2 ^ 32 else value) as Hw.
  { unfold uint32. destruct (Z.ltb_spec value 0).
    - rewrite <- (Z.mod_small (value + 2 ^ 32) (2 ^ 32)) by lia.
      rewrite <- (Z_mod_plus_full value 1 (2 ^ 32)). f_equal; lia.
    - apply Z.mod_small. lia. }
  split.
  { destruct (Z.ltb_spec value 0) as [Hneg|Hpos]; [done|].
    cbn. rewrite Hw. destruct (Z.ltb_spec value 0); [lia|done]. }
  cbn. rewrite Hw. done.
Qed.

Lemma setOption_unsigned_stored_witness :
  preferredBufferSize
    (fOptions (setOption demo_engine OPTION_PREFERRED_BUFFER_SIZE (-1) ""))
  = 4294967295
  ∧ maxParameters
      (fOptions (setOption demo_engine OPTION_MAX_PARAMETERS (-1) ""))
    = 200.
Proof.
  destruct (setOption_unsigned_stored demo_engine (-1) "")
    as (H1 & H2 & _); [reflexivity|lia|].
  split; [exact H2|exact H1].
Defined.

End OptionWrites.

(** ** Facts about a closed engine *)

Section CloseFacts.

Import Engine.

Variable BINARY_NATIVE : BinaryType.
Variable newPlugin : PluginType → Initializer → CtorResult.
Variable STR_MAX : Z.

(** X14: After [close] the checked entry points fail without reading the table
    that was given up: no plugin can be added (the maximum, now 0, is
    reached), none can be removed, [getPlugin] answers null, the forwarded
    calls reach no plugin, a new name is the placeholder, and removing every
    plugin only runs the idle action.  [getPluginUnchecked] alone reads
    through the null pointer. *)
Theorem closed_engine_refuses e btype ptype filename name label id nm :
  let e' := (close e).2 in
  addPlugin BINARY_NATIVE newPlugin e' btype ptype filename name label
  = Some (false, setLastError e' "Maximum number of plugins reached")
  ∧ removePlugin e' id
    = Some (false,
            setLastError e' "Critical error: no plugins are currently loaded!")
  ∧ getPlugin e' id = Some None
  ∧ idle e' = Some []
  ∧ (∀ n, bufferSizeChanged e' n = Some [])
  ∧ getNewUniquePluginName STR_MAX e' nm = Some "(No name)"
  ∧ removeAllPlugins e' = Some (set_nextAction e' EnginePostActionNull 0)
  ∧ getPluginUnchecked e' id = None.
Proof.
  cbv zeta. split; [done|]. split; [done|]. split; [done|]. split; [done|].
  split; [done|]. split; [done|]. split; [|done].
  unfold removeAllPlugins, waitForProccessEnd. cbn.
  by destruct (isRunning e).
Qed.

End CloseFacts.

(** ** Facts about [removeAllPlugins] *)

Section RemoveAll.

Import Engine.

(** The loop on a table whose slots from [i] to [n - 1] point to live,
    pairwise distinct plugin objects: these slots are cleared, these objects
    deleted, and nothing else changes. *)
Lemma removeAllPlugins_loop_spec n fuel i slots h :
  0 ≤ i →
  (Z.to_nat (n - i) < fuel)%nat →
  (∀ j, i ≤ j < n →
     ∃ s p, slots !! Z.to_nat j = Some s ∧ plugin s = Some p ∧ is_Some (h !! p)) →
  (∀ j k s t p, i ≤ j < n → i ≤ k < n →
     slots !! Z.to_nat j = Some s → slots !! Z.to_nat k = Some t →
     plugin s = Some p → plugin t = Some p → j = k) →
  ∃ slots' h',
    removeAllPlugins_loop fuel i n slots h = Some (slots', h')
    ∧ length slots' = length slots
    ∧ (∀ j, i ≤ j < n → slots' !! Z.to_nat j = Some emptySlot)
    ∧ (∀ j, 0 ≤ j → ¬ (i ≤ j < n) → slots' !! Z.to_nat j = slots !! Z.to_nat j)
    ∧ (∀ j s p, i ≤ j < n → slots !! Z.to_nat j = Some s → plugin s = Some p →
         h' !! p = None)
    ∧ (∀ p, (∀ j s, i ≤ j < n → slots !! Z.to_nat j = Some s → plugin s ≠ Some p) →
         h' !! p = h !! p).
Proof.
  revert i slots h.
  induction fuel as [|fuel IH]; intros i slots h Hi Hf Hlive Hinj; [lia|].
  cbn [removeAllPlugins_loop].
  destruct (Z.ltb_spec i n) as [Hlt|Hge].
  - destruct (Hlive i ltac:(lia)) as (s & p & Hs & Hp & [pl Hpl]).
    rewrite Hs. cbn [mbind option_bind]. rewrite Hp, Hpl. cbn [mbind option_bind].
    destruct (IH (i + 1) (<[Z.to_nat i := emptySlot]> slots) (delete p h))
      as (slots' & h' & Hloop & Hlen & Hempty & Hother & Hdel & Hkeep).
    + lia.
    + lia.
    + intros j Hj. destruct (Hlive j ltac:(lia)) as (s' & p' & Hs' & Hp' & Hpl').
      exists s', p'. rewrite list_lookup_insert_ne by lia.
      split; [done|]. split; [done|].
      rewrite lookup_delete_ne; [done|]. intros ->.
      assert (i = j) by (eapply (Hinj i j s s' p'); try done; lia). lia.
    + intros j k s' t p' Hj Hk. rewrite !list_lookup_insert_ne by lia.
      apply Hinj; lia.
    + exists slots', h'. split; [done|].
      split; [by rewrite Hlen, length_insert|].
      split; [|split; [|split]].
      * intros j Hj. destruct (decide (j = i)) as [->|Hne].
        -- rewrite Hother by lia. apply list_lookup_insert_eq.
           by eapply lookup_lt_Some.
        -- apply Hempty. lia.
      * intros j Hj Hout. rewrite Hother by lia.
        apply list_lookup_insert_ne. lia.
      * intros j s' p' Hj Hs' Hp'. destruct (decide (j = i)) as [->|Hne].
        -- assert (s' = s) as -> by congruence.
           assert (p' = p) as -> by congruence.
           rewrite Hkeep; [apply lookup_delete_eq|].
           intros k t Hk Ht Hpt. rewrite list_lookup_insert_ne in Ht by lia.
           assert (i = k) by (eapply (Hinj i k s t p); try done; lia). lia.
        -- eapply (Hdel j s' p'); [lia| |done].
           by rewrite list_lookup_insert_ne by lia.
      * intros q Hq. rewrite Hkeep.
        -- apply lookup_delete_ne. intros ->. by eapply (Hq i s); [lia|done|].
        -- intros k t Hk Ht. rewrite list_lookup_insert_ne in Ht by lia.
           apply (Hq k t); [lia|done].
  - exists slots, h. split; [done|]. split; [done|].
    split; [intros; lia|]. split; [done|]. split; [intros; lia|done].
Qed.

(** X15: [removeAllPlugins] on a sound table: it has a result, the count is 0
    and the table sound; every slot of the former prefix is cleared, peaks
    included, and its plugin object deleted; the slots above the former
    count and the other objects are left as they were; the pending action is
    cleared; and, unlike [removePlugin], no callback is made. *)
Theorem removeAllPlugins_clears e :
  table_ok e →
  ∃ e' slots',
    removeAllPlugins e = Some e'
    ∧ table_ok e'
    ∧ curPluginCount e' = 0
    ∧ maxPluginNumber e' = maxPluginNumber e
    ∧ nextAction_opcode e' = EnginePostActionNull
    ∧ callbacks e' = callbacks e
    ∧ plugins e' = Some slots'
    ∧ (∀ i, 0 ≤ i < curPluginCount e → slots' !! Z.to_nat i = Some emptySlot)
    ∧ (∀ i p, 0 ≤ i < curPluginCount e →
         getPluginUnchecked e i = Some (Some p) → heap e' !! p = None)
    ∧ (∀ i, curPluginCount e ≤ i →
         getPluginUnchecked e' i = getPluginUnchecked e i)
    ∧ (∀ p, (∀ i, 0 ≤ i < curPluginCount e →
               getPluginUnchecked e i ≠ Some (Some p)) →
         heap e' !! p = heap e !! p).
Proof.
  intros ((slots & Hs & Hlen) & Hc & Hmax & Hd).
  assert (waitForProccessEnd (set_table e (plugins e) 0 (heap e))
          = Some (set_nextAction (set_table e (plugins e) 0 (heap e))
                    EnginePostActionNull 0)) as Hw.
  { unfold waitForProccessEnd. cbn. by destruct (isRunning e). }
  unfold removeAllPlugins. rewrite Hw. cbn [mbind option_bind].
  destruct (Z.ltb_spec 0 (curPluginCount e)) as [Hpos|Hzero].
  - cbn [plugins heap set_nextAction set_table]. rewrite Hs.
    cbn [mbind option_bind].
    destruct (removeAllPlugins_loop_spec (curPluginCount e)
                (S (Z.to_nat (curPluginCount e))) 0 slots (heap e))
      as (slots' & h' & Hloop & Hlen' & Hempty & Hother & Hdel & Hkeep).
    + lia.
    + lia.
    + intros j Hj.
      destruct (Hd j Hj) as (sl & s & p & pl & H1 & H2 & H3 & H4 & H5).
      assert (sl = slots) as -> by congruence. exists s, p.
      split; [done|]. split; [done|]. by eexists.
    + intros j k s t p Hj Hk. by apply (dense_ptr_inj e slots).
    + rewrite Hloop. cbn [mbind option_bind].
      eexists _, slots'. split; [done|].
      split.
      { split; [|split; [|split]]; cbn.
        - exists slots'. split; [done|]. by rewrite Hlen'.
        - lia.
        - done.
        - intros i Hi. cbn in Hi. lia. }
      cbn. do 5 (split; [done|]). split; [done|].
      split; [|split].
      * intros i p Hi Hget. unfold getPluginUnchecked in Hget.
        rewrite Hs in Hget. cbn [mbind option_bind] in Hget.
        destruct (slots !! Z.to_nat i) as [s|] eqn:Hsi; [|done].
        cbn in Hget. eapply (Hdel i s p); [done|done|congruence].
      * intros i Hi. unfold getPluginUnchecked. cbn. rewrite Hs.
        cbn [mbind option_bind]. by rewrite Hother by lia.
      * intros p Hp. apply Hkeep. intros j s Hj Hsj Hpj.
        apply (Hp j Hj). unfold getPluginUnchecked. rewrite Hs.
        cbn [mbind option_bind]. rewrite Hsj. cbn. by rewrite Hpj.
  - assert (curPluginCount e = 0) as Hc0 by lia.
    eexists _, slots. split; [done|].
    split.
    { split; [|split; [|split]]; cbn.
      - by exists slots.
      - lia.
      - done.
      - intros i Hi. cbn in Hi. lia. }
    cbn. do 5 (split; [done|]). split; [intros; lia|].
    split; [intros; lia|]. split; [done|done].
Qed.

Lemma removeAllPlugins_clears_witness :
  ∃ e', removeAllPlugins (demo_with ["a"]) = Some e'
      ∧ table_ok e'
      ∧ curPluginCount e' = 0.
Proof.
  destruct (removeAllPlugins_clears (demo_with ["a"]) demo_with_a_ok)
    as (e' & slots' & He & Hok & Hc & _).
  exists e'. split; [exact He|]. split; [exact Hok|exact Hc].
Defined.

Example removeAllPlugins_demo :
  ∃ e', removeAllPlugins (demo_with ["a"; "b"]) = Some e'
      ∧ plugins e' = plugins demo_engine
      ∧ heap e' = ∅
      ∧ callbacks e' = callbacks (demo_with ["a"; "b"]).
Proof.
  eexists. split; [vm_compute; reflexivity|].
  split; [vm_compute; reflexivity|]. split; vm_compute; reflexivity.
Qed.

End RemoveAll.

(** ** Facts about the pending action *)

Section PendingFacts.

Import Engine.

(** What [doPluginRemove] leaves alone, and the action it clears. *)
Lemma doPluginRemove_frame e e' :
  doPluginRemove e = Some e' →
  fOptions e' = fOptions e ∧ isRunning e' = isRunning e ∧ type e' = type e
  ∧ maxPluginNumber e' = maxPluginNumber e
  ∧ callbacks e' = callbacks e ∧ lastError e' = lastError e
  ∧ nextAction_opcode e' = EnginePostActionNull
  ∧ kData_callback e' = kData_callback e.
Proof.
  unfold doPluginRemove. destruct (plugins e) as [slots|]; [|done].
  cbn [mbind option_bind].
  destruct (slots !! Z.to_nat (nextAction_pluginId e)) as [cur|]; [|done].
  cbn [mbind option_bind].
  destruct (doPluginRemove_loop _ _ _ _ _) as [[slots' h']|]; [|done].
  cbn [mbind option_bind]. by intros [= <-].
Qed.

(** The shift alone, as the audio thread runs it, on a sound table with the
    pending id below the count: the table stays sound with one plugin less.
    The object that was removed is still on the heap. *)
Lemma doPluginRemove_in_range e :
  table_ok e → 0 ≤ nextAction_pluginId e < curPluginCount e →
  ∃ e', doPluginRemove e = Some e' ∧ table_ok e'
      ∧ curPluginCount e' = curPluginCount e - 1.
Proof.
  intros Hok Hin.
  destruct (removePlugin_in_range e (nextAction_pluginId e) Hok Hin)
    as (e2 & He2 & Hok2 & Hc2 & Hm2 & _).
  destruct Hok as ((slots & Hs & Hlen) & Hc & Hmax & Hd).
  destruct (Hd _ Hin) as (sl & slot & p & pl & H1 & H2 & H3 & H4 & H5).
  assert (sl = slots) as -> by congruence.
  assert (doPluginRemove
            (set_nextAction e EnginePostActionRemovePlugin (nextAction_pluginId e))
          = doPluginRemove e) as Heq.
  { unfold doPluginRemove. cbn [set_nextAction set_table plugins curPluginCount
      nextAction_pluginId heap fOptions isRunning type maxPluginNumber lastError
      aboutToClose callbacks procName nextAction_opcode].
    reflexivity. }
  unfold removePlugin in He2. rewrite Hs, H2 in He2.
  cbn [mbind option_bind] in He2. rewrite H3, H4 in He2.
  cbn [mbind option_bind] in He2.
  assert ((if isRunning
                (set_nextAction e EnginePostActionRemovePlugin (nextAction_pluginId e))
           then proccessPendingEvents
                  (set_nextAction e EnginePostActionRemovePlugin (nextAction_pluginId e))
           else doPluginRemove
                  (set_nextAction e EnginePostActionRemovePlugin (nextAction_pluginId e)))
          = doPluginRemove e) as Hrun.
  { rewrite <- Heq. by destruct (isRunning _). }
  rewrite Hrun in He2.
  destruct (doPluginRemove e) as [e'|] eqn:Hdo; [|done].
  cbn [mbind option_bind] in He2. injection He2 as <-.
  exists e'. split; [done|].
  destruct Hok2 as ((slots2 & Hs2 & Hlen2) & Hcount2 & Hmax2 & Hd2).
  cbn [callback set_table plugins curPluginCount maxPluginNumber heap] in *.
  split; [|done].
  split; [by exists slots2|]. split; [done|]. split; [done|].
  intros i Hi. destruct (Hd2 i Hi) as (sl & s & q & ql & G1 & G2 & G3 & G4 & G5).
  cbn [callback set_table plugins curPluginCount maxPluginNumber heap] in *.
  apply lookup_delete_Some in G4 as [_ G4].
  by exists sl, s, q, ql.
Qed.

(** X16: [proccessPendingEvents], which the audio thread runs at the top of each
    block, on a sound table whose pending removal, if there is one, is below
    the count: it has a result, the table stays sound, the count drops by one
    exactly when a removal was pending, the action is cleared, so that
    running it again changes nothing, and no callback is made. *)
Theorem proccessPendingEvents_drains e :
  table_ok e →
  (nextAction_opcode e = EnginePostActionRemovePlugin →
   0 ≤ nextAction_pluginId e < curPluginCount e) →
  ∃ e', proccessPendingEvents e = Some e'
    ∧ table_ok e'
    ∧ nextAction_opcode e' = EnginePostActionNull
    ∧ proccessPendingEvents e' = Some e'
    ∧ callbacks e' = callbacks e
    ∧ curPluginCount e'
      = match nextAction_opcode e with
        | EnginePostActionRemovePlugin => curPluginCount e - 1
        | _ => curPluginCount e
        end
    ∧ (nextAction_opcode e ≠ EnginePostActionRemovePlugin →
       plugins e' = plugins e ∧ heap e' = heap e).
Proof.
  intros Hok Hin. unfold proccessPendingEvents at 1.
  destruct (nextAction_opcode e) eqn:Hop.
  - exists e. split; [done|]. split; [done|]. split; [done|].
    split; [unfold proccessPendingEvents; by rewrite Hop|]. done.
  - exists (doIdle e). split; [done|].
    split; [by apply (table_ok_same e)|]. done.
  - destruct (doPluginRemove_in_range e Hok (Hin eq_refl)) as (e' & He & Hok' & Hc').
    destruct (doPluginRemove_frame e e' He) as (_ & _ & _ & _ & Hcb & _ & Hnull & _).
    exists e'. split; [done|]. split; [done|]. split; [done|].
    split; [unfold proccessPendingEvents; by rewrite Hnull|]. done.
Qed.

End PendingFacts.

Section PendingExamples.

Import Engine.

Lemma proccessPendingEvents_drains_witness :
  ∃ e', proccessPendingEvents demo_pending = Some e'
      ∧ table_ok e'
      ∧ nextAction_opcode e' = EnginePostActionNull
      ∧ proccessPendingEvents e' = Some e'.
Proof.
  destruct (proccessPendingEvents_drains demo_pending)
    as (e' & He & Hok & Hn & Hagain & _).
  - apply (table_ok_same (demo_with ["a"]));
      [vm_compute; reflexivity..|exact demo_with_a_ok].
  - intros _. vm_compute. split; [discriminate|reflexivity].
  - exists e'. split; [exact He|]. split; [exact Hok|].
    split; [exact Hn|exact Hagain].
Defined.

End PendingExamples.

(** ** Adding, removing and the callbacks *)

Section AccountFacts.

Import Engine.

Variable BINARY_NATIVE : BinaryType.
Variable newPlugin : PluginType → Initializer → CtorResult.

Lemma balance_snoc cbs action id :
  balance (cbs ++ [(action, id)])
  = balance cbs + match action with
                  | CALLBACK_PLUGIN_ADDED => 1
                  | CALLBACK_PLUGIN_REMOVED => -1
                  end.
Proof.
  destruct action; induction cbs as [|[[] z] cbs IH];
    cbn [app balance]; lia.
Qed.

(** What a successful [install] is made of. *)
Lemma install_inv e id pl b e' :
  install e id pl = Some (b, e') →
  ∃ slots p,
    plugins e = Some slots
    ∧ is_Some (slots !! Z.to_nat id)
    ∧ heap e !! p = None
    ∧ b = true
    ∧ e' = callback
             (set_table e
                (Some (<[Z.to_nat id := mkSlot (Some p) (0%Q, 0%Q) (0%Q, 0%Q)]> slots))
                (uint32 (curPluginCount e + 1)) (<[p := pl]> (heap e)))
             CALLBACK_PLUGIN_ADDED id.
Proof.
  unfold install. destruct (plugins e) as [slots|]; [|done].
  cbn [mbind option_bind].
  destruct (slots !! Z.to_nat id) as [slot|] eqn:Hslot; [|done].
  cbn [mbind option_bind]. intros [= <- <-].
  exists slots, (fresh (dom (heap e))). split; [done|].
  split; [by eexists|]. split; [|done].
  apply not_elem_of_dom. apply is_fresh.
Qed.

(** With the bridges not preferred, a plugin type and a constructor that
    succeeds, [addPlugin] comes down to [install]. *)
Lemma addPlugin_installs e btype ptype filename name label nm en :
  curPluginCount e ≠ maxPluginNumber e →
  preferPluginBridges (fOptions e) = false →
  ptype ≠ PLUGIN_NONE →
  newPlugin ptype (mkInit (curPluginCount e) filename name label) = CtorOk nm en →
  addPlugin BINARY_NATIVE newPlugin e btype ptype filename name label
  = install e (curPluginCount e) (mkPlugin (curPluginCount e) nm en).
Proof.
  intros Hne Hp Hpt Hctor. unfold addPlugin.
  destruct (Z.eqb_spec (curPluginCount e) (maxPluginNumber e)); [done|].
  rewrite Hp. cbn [andb].
  destruct ptype; [done|..]; by rewrite Hctor.
Qed.

(** [addPlugin] on a sound table either leaves the table, the count and
    the callbacks as they are, or adds one plugin and reports it to the
    registered function, if there is one. *)
Lemma addPlugin_frame e btype ptype filename name label b e' :
  table_ok e →
  addPlugin BINARY_NATIVE newPlugin e btype ptype filename name label
  = Some (b, e') →
  fOptions e' = fOptions e ∧ kData_callback e' = kData_callback e
  ∧ maxPluginNumber e' = maxPluginNumber e
  ∧ (callbacks e' = callbacks e ∧ curPluginCount e' = curPluginCount e
     ∧ plugins e' = plugins e ∧ heap e' = heap e
     ∨ b = true
       ∧ callbacks e'
         = match kData_callback e with
           | Some _ => callbacks e ++ [(CALLBACK_PLUGIN_ADDED, curPluginCount e)]
           | None => callbacks e
           end
       ∧ curPluginCount e' = curPluginCount e + 1
       ∧ lastError e' = lastError e).
Proof.
  intros Hok. unfold addPlugin.
  destruct (Z.eqb_spec (curPluginCount e) (maxPluginNumber e)) as [Heq|Hne].
  { intros [= <- <-]. do 3 (split; [done|]). by left. }
  destruct (_ && _).
  { repeat case_match; intros [= <- <-]; do 3 (split; [done|]); by left. }
  assert (∀ pt,
    match newPlugin pt (mkInit (curPluginCount e) filename name label) with
    | CtorOk nm en =>
      install e (curPluginCount e)
        (construct (mkInit (curPluginCount e) filename name label) nm en)
    | CtorFail err => Some (false, setLastError e err)
    end = Some (b, e') →
    fOptions e' = fOptions e ∧ kData_callback e' = kData_callback e
    ∧ maxPluginNumber e' = maxPluginNumber e
    ∧ (callbacks e' = callbacks e ∧ curPluginCount e' = curPluginCount e
       ∧ plugins e' = plugins e ∧ heap e' = heap e
       ∨ b = true
         ∧ callbacks e'
           = match kData_callback e with
             | Some _ => callbacks e ++ [(CALLBACK_PLUGIN_ADDED, curPluginCount e)]
             | None => callbacks e
             end
         ∧ curPluginCount e' = curPluginCount e + 1
         ∧ lastError e' = lastError e)) as Hctor.
  { intros pt. destruct (newPlugin pt _) as [nm en|err].
    - intros Hi.
      destruct (install_ok e
                  (construct (mkInit (curPluginCount e) filename name label) nm en)
                  Hok Hne eq_refl)
        as (e2 & slots' & p & Hi2 & _ & Hc2 & _).
      rewrite Hi2 in Hi. injection Hi as <- <-.
      destruct (install_inv _ _ _ _ _ Hi2) as (slots & q & _ & _ & _ & _ & He2).
      rewrite He2 in Hc2 |- *. cbn in Hc2 |- *.
      do 3 (split; [done|]). right. done.
    - intros [= <- <-]. do 3 (split; [done|]). by left. }
  destruct ptype; [|apply Hctor..].
  intros [= <- <-]. do 3 (split; [done|]). by left.
Qed.

(** [removePlugin] either fails and leaves the table as it is, or reports
    the removal of the id it was given to the registered function, if there
    is one. *)
Lemma removePlugin_frame e id b e' :
  removePlugin e id = Some (b, e') →
  fOptions e' = fOptions e ∧ kData_callback e' = kData_callback e
  ∧ maxPluginNumber e' = maxPluginNumber e
  ∧ (b = false ∧ callbacks e' = callbacks e ∧ curPluginCount e' = curPluginCount e
     ∧ plugins e' = plugins e ∧ heap e' = heap e
     ∨ b = true
       ∧ callbacks e'
         = match kData_callback e with
           | Some _ => callbacks e ++ [(CALLBACK_PLUGIN_REMOVED, id)]
           | None => callbacks e
           end
       ∧ lastError e' = lastError e).
Proof.
  unfold removePlugin. destruct (plugins e) as [slots|] eqn:Hs.
  2: { intros [= <- <-]. do 3 (split; [done|]). by left. }
  destruct (slots !! Z.to_nat id) as [slot|]; [|done].
  cbn [mbind option_bind].
  destruct (plugin slot) as [p|].
  2: { intros [= <- <-]. do 3 (split; [done|]). by left. }
  destruct (heap e !! p) as [pl|]; [|done]. cbn [mbind option_bind].
  assert ((if isRunning (set_nextAction e EnginePostActionRemovePlugin id)
           then proccessPendingEvents
                  (set_nextAction e EnginePostActionRemovePlugin id)
           else doPluginRemove (set_nextAction e EnginePostActionRemovePlugin id))
          = doPluginRemove (set_nextAction e EnginePostActionRemovePlugin id))
    as ->.
  { by destruct (isRunning _). }
  destruct (doPluginRemove _) as [e1|] eqn:Hdo; [|done].
  cbn [mbind option_bind]. intros [= <- <-].
  destruct (doPluginRemove_frame _ _ Hdo) as (H1 & H2 & H3 & H4 & H5 & H6 & _ & H7).
  cbn in *. do 3 (split; [done|]). right. by rewrite H5, H7.
Qed.

(** One operation of a sequence, with what it does to the count and to the
    callbacks. *)
Lemma step_accounts e op :
  table_ok e → in_range e op →
  ∃ r, step BINARY_NATIVE newPlugin e op = Some r
    ∧ table_ok (r.2)
    ∧ kData_callback (r.2) = kData_callback e
    ∧ (is_Some (kData_callback e) →
       curPluginCount (r.2) - balance (callbacks (r.2))
       = curPluginCount e - balance (callbacks e))
    ∧ (kData_callback e = None → callbacks (r.2) = callbacks e)
    ∧ maxPluginNumber (r.2) = maxPluginNumber e
    ∧ fOptions (r.2) = fOptions e.
Proof.
  intros Hok Hin.
  destruct (step_table_ok BINARY_NATIVE newPlugin e op Hok Hin) as ([b e'] & Hr & Hok').
  exists (b, e'). split; [done|]. split; [done|]. cbn [snd] in *.
  destruct op as [btype ptype filename name label|id]; cbn [step] in Hr.
  - destruct (addPlugin_frame _ _ _ _ _ _ _ _ Hok Hr)
      as (Ho & Hf & Hm & [(Hcb & Hc & _)|(_ & Hcb & Hc & _)]).
    + rewrite Hcb, Hc. done.
    + split; [done|]. rewrite Hcb, Hc.
      split; [|split; [|done]].
      * intros [f Hfe]. rewrite Hfe, balance_snoc. lia.
      * by intros ->.
  - destruct (removePlugin_in_range e id Hok Hin) as (e2 & He2 & _ & Hc2 & _).
    rewrite He2 in Hr. injection Hr as <- <-.
    destruct (removePlugin_frame _ _ _ _ He2)
      as (Ho & Hf & Hm & [(? & _)|(_ & Hcb & _)]); [done|].
    split; [done|]. rewrite Hcb, Hc2.
    split; [|split; [|done]].
    + intros [f Hfe]. rewrite Hfe, balance_snoc. lia.
    + by intros ->.
Qed.

(** X17: The callbacks account for the plugin count when a callback function
    is registered.  Along any sequence of additions and in-range removals
    from a sound table, the count changes by the number of additions reported
    minus the number of removals reported: an addition that is refused, or
    that fails, reports nothing, and every removal is reported.  While no
    function is registered, no callback is made at all, whatever the count
    does. *)
Theorem callbacks_account_for_count e ops :
  table_ok e → all_in_range BINARY_NATIVE newPlugin e ops →
  ∃ e', run BINARY_NATIVE newPlugin e ops = Some e'
    ∧ (is_Some (kData_callback e) →
       curPluginCount e' - balance (callbacks e')
       = curPluginCount e - balance (callbacks e))
    ∧ (kData_callback e = None → callbacks e' = callbacks e)
    ∧ 0 ≤ curPluginCount e' ≤ maxPluginNumber e
    ∧ fOptions e' = fOptions e.
Proof.
  revert e. induction ops as [|op ops IH]; intros e Hok Hin; cbn [run].
  - exists e. split; [done|]. split; [done|]. split; [done|].
    split; [|done]. by destruct Hok as (_ & Hc & _).
  - destruct Hin as [Hop Hrest].
    destruct (step_accounts e op Hok Hop)
      as (r & Hr & Hok' & Hf & Hacc & Hnone & Hm & Ho).
    rewrite Hr. cbn [mbind option_bind].
    destruct (IH (r.2) Hok' (Hrest r Hr)) as (e' & He' & Hacc' & Hnone' & Hc' & Ho').
    exists e'. split; [done|]. rewrite Hf in Hacc', Hnone'.
    split; [|split; [|split; [lia|congruence]]].
    + intros Hreg. rewrite (Hacc' Hreg). by apply Hacc.
    + intros Hreg. rewrite (Hnone' Hreg). by apply Hnone.
Qed.

(** X18: A successful addition: with room in a sound table, the bridges not
    preferred and a constructor that succeeds, [addPlugin] returns true; the
    new plugin is at a fresh address, in the first free slot, with that index
    as its id and zeroed peaks, and [getPlugin] finds it; the plugins already
    there stay where they are; the addition is reported with the new id to
    the registered callback function, and to nobody when none is registered;
    and the last error is not touched. *)
Theorem addPlugin_adds e btype ptype filename name label nm en :
  table_ok e → curPluginCount e ≠ maxPluginNumber e →
  preferPluginBridges (fOptions e) = false →
  ptype ≠ PLUGIN_NONE →
  newPlugin ptype (mkInit (curPluginCount e) filename name label) = CtorOk nm en →
  ∃ e' p,
    addPlugin BINARY_NATIVE newPlugin e btype ptype filename name label
    = Some (true, e')
    ∧ table_ok e'
    ∧ curPluginCount e' = curPluginCount e + 1
    ∧ getPlugin e' (curPluginCount e) = Some (Some p)
    ∧ heap e !! p = None
    ∧ heap e' !! p = Some (mkPlugin (curPluginCount e) nm en)
    ∧ getInputPeak e' (curPluginCount e) 0 = Some 0%Q
    ∧ getInputPeak e' (curPluginCount e) 1 = Some 0%Q
    ∧ getOutputPeak e' (curPluginCount e) 0 = Some 0%Q
    ∧ getOutputPeak e' (curPluginCount e) 1 = Some 0%Q
    ∧ (∀ i, 0 ≤ i < curPluginCount e → plugin_at e' i = plugin_at e i)
    ∧ callbacks e'
      = match kData_callback e with
        | Some _ => callbacks e ++ [(CALLBACK_PLUGIN_ADDED, curPluginCount e)]
        | None => callbacks e
        end
    ∧ lastError e' = lastError e.
Proof.
  intros Hok Hne Hp Hpt Hctor.
  rewrite (addPlugin_installs e btype ptype filename name label nm en) by done.
  destruct (install_ok e (mkPlugin (curPluginCount e) nm en) Hok Hne eq_refl)
    as (e' & slots' & p & Hi & Hok' & Hc' & Hm' & Hkeep & _).
  destruct (install_inv _ _ _ _ _ Hi) as (slots & q & Hs & Hslot & Hq & _ & He').
  exists e', q. split; [done|]. split; [done|]. split; [done|].
  assert (Z.to_nat (curPluginCount e) < length slots)%nat as Hlt
    by (by apply lookup_lt_is_Some).
  rewrite He' in Hc' |- *. cbn in Hc'.
  unfold getPlugin, getInputPeak, getOutputPeak.
  cbn [callback set_table plugins curPluginCount heap lastError callbacks].
  rewrite Hc'.
  destruct (Z.ltb_spec (curPluginCount e) (curPluginCount e + 1)); [|lia].
  cbn [mbind option_bind]. rewrite list_lookup_insert_eq by done.
  cbn [mbind option_bind plugin insPeak outsPeak]. rewrite lookup_insert_eq.
  split; [done|]. split; [done|]. split; [done|].
  do 4 (split; [done|]).
  split; [|done]. intros i Hi'. rewrite <- (Hkeep i Hi'). by rewrite He'.
Qed.


End AccountFacts.

Section AccountExamples.

Import Engine.


Lemma callbacks_account_for_count_witness :
  ∃ e', run BINARY_POSIX64 demo_ctor (demo_with ["a"])
          [add "b"; RemovePlugin 0; add "c"] = Some e'
    ∧ curPluginCount e' - balance (callbacks e')
      = curPluginCount (demo_with ["a"]) - balance (callbacks (demo_with ["a"])).
Proof.
  destruct (callbacks_account_for_count BINARY_POSIX64 demo_ctor (demo_with ["a"])
              [add "b"; RemovePlugin 0; add "c"] demo_with_a_ok)
    as (e' & He & Hacc & _).
  - split; [exact I|]. intros r Hr. vm_compute in Hr. injection Hr as <-.
    split; [vm_compute; split; [discriminate|reflexivity]|].
    intros r Hr. vm_compute in Hr. injection Hr as <-.
    split; [exact I|]. intros r Hr. exact I.
  - exists e'. split; [exact He|]. apply Hacc.
    exists 1%positive. vm_compute; reflexivity.
Defined.

(** Without a registered function the same additions are made and none is
    reported. *)
Example callbacks_unregistered :
  ∃ e', run BINARY_POSIX64 demo_ctor demo_unregistered [add "a"; add "b"] = Some e'
    ∧ curPluginCount e' = 2
    ∧ callbacks e' = [].
Proof.
  eexists. split; [vm_compute; reflexivity|]. split; vm_compute; reflexivity.
Qed.

Example callbacks_demo :
  callbacks (demo_six)
  = [(CALLBACK_PLUGIN_ADDED, 0); (CALLBACK_PLUGIN_ADDED, 1);
     (CALLBACK_PLUGIN_ADDED, 2); (CALLBACK_PLUGIN_REMOVED, 0);
     (CALLBACK_PLUGIN_REMOVED, 0); (CALLBACK_PLUGIN_ADDED, 1)]
  ∧ balance (callbacks demo_six) = curPluginCount demo_six.
Proof. split; vm_compute; reflexivity. Qed.

Lemma addPlugin_adds_witness :
  ∃ e' p,
    addPlugin BINARY_POSIX64 demo_ctor (demo_with ["a"]) BINARY_POSIX64
      PLUGIN_INTERNAL "file" (Some "b") "label" = Some (true, e')
    ∧ table_ok e'
    ∧ getPlugin e' (curPluginCount (demo_with ["a"])) = Some (Some p)
    ∧ heap e' !! p = Some (mkPlugin (curPluginCount (demo_with ["a"])) (Some "b") true).
Proof.
  destruct (addPlugin_adds BINARY_POSIX64 demo_ctor (demo_with ["a"])
              BINARY_POSIX64 PLUGIN_INTERNAL "file" (Some "b") "label"
              (Some "b") true demo_with_a_ok)
    as (e' & p & He & Hok & _ & Hget & _ & Hheap & _).
  - vm_compute. discriminate.
  - vm_compute; reflexivity.
  - discriminate.
  - vm_compute; reflexivity.
  - exists e', p. split; [exact He|]. split; [exact Hok|].
    split; [exact Hget|exact Hheap].
Defined.


End AccountExamples.

(** ** The bridge policy and the fresh table *)

Section PolicyFacts.

Import Engine.

Variable BINARY_NATIVE : BinaryType.
Variable newPlugin : PluginType → Initializer → CtorResult.


(** X21: An engine fresh from [init] has a sound, empty table: [getPlugin]
    answers null for every id, no forwarded call reaches a plugin, and a
    removal within the table fails with the error of the missing plugin and
    changes nothing else. *)
Theorem fresh_engine_has_no_plugin maxRack maxPatchbay maxDefault e0 clientName id :
  0 ≤ maxRack < 2 ^ 32 → 0 ≤ maxPatchbay < 2 ^ 32 → 0 ≤ maxDefault < 2 ^ 32 →
  let e := init maxRack maxPatchbay maxDefault e0 clientName in
  0 ≤ id < maxPluginNumber e →
  table_ok e
  ∧ curPluginCount e = 0
  ∧ getPlugin e id = Some None
  ∧ idle e = Some []
  ∧ removePlugin e id
    = Some (false, setLastError e "Could not find plugin to remove").
Proof.
  intros HR HP HD e Hid.
  split; [by apply init_table_ok|]. split; [done|].
  assert (∃ slots, plugins e = Some slots ∧ slots !! Z.to_nat id = Some emptySlot)
    as (slots & Hs & Hslot).
  { eexists. split; [reflexivity|]. apply lookup_replicate_2.
    subst e. cbn [init maxPluginNumber] in Hid. lia. }
  split.
  { unfold getPlugin. rewrite Hs.
    destruct (Z.ltb_spec id (curPluginCount e)) as [Hlt|_]; [|done].
    subst e. cbn [init curPluginCount] in Hlt. lia. }
  split; [done|].
  unfold removePlugin. rewrite Hs, Hslot. done.
Qed.

End PolicyFacts.

Section PolicyExamples.

Import Engine.


Lemma fresh_engine_has_no_plugin_witness :
  table_ok demo_engine
  ∧ curPluginCount demo_engine = 0
  ∧ getPlugin demo_engine 3 = Some None
  ∧ idle demo_engine = Some []
  ∧ removePlugin demo_engine 3
    = Some (false, setLastError demo_engine "Could not find plugin to remove").
Proof.
  apply (fresh_engine_has_no_plugin 16 999 99
           (mkEngine demo_options false kEngineTypeJack None 0 0 ∅ ""
              EnginePostActionNull 0 false [] "" (Some 1%positive))
           "Carla" 3); [lia|lia|lia|].
  vm_compute. split; [discriminate|reflexivity].
Defined.

End PolicyExamples.

(** ** Facts about the senders of the bridge build *)

Section OscBridgeFacts.

Import Osc.

(** X22: The senders of the bridge build behave as the control senders do: no
    address buffer is overrun, whatever the base path; with a target each
    request sends exactly one message, addressed to the base path followed by
    a suffix that begins with [/bridge_], with the type tags of its arguments;
    without OSC data or without a target nothing is sent. *)
Theorem bridge_perform_sends_one d r :
  OscBridge.perform None r = Some []
  ∧ (target d = None → OscBridge.perform (Some d) r = Some [])
  ∧ (is_Some (target d) →
     ∃ m suffix,
       OscBridge.perform (Some d) r = Some [m]
       ∧ osc_address m = path d +:+ "/bridge_" +:+ suffix
       ∧ String.list_ascii_of_string (osc_types m) = tag_of <$> osc_args m).
Proof.
  split; [by destruct r|]. split.
  - intros Ht. destruct r; cbn; unfold send; by rewrite Ht.
  - intros [t Ht].
    destruct r; cbn; unfold send; rewrite Ht;
      match goal with
      | |- context [?a <? ?b] =>
        destruct (Z.ltb_spec a b) as [Hlt|_]; [cbn in Hlt; lia|]
      end;
      eexists _, _; (split; [reflexivity|]);
      (split; [cbn; reflexivity|reflexivity]).
Qed.

Lemma bridge_perform_sends_one_witness :
  ∃ m suffix,
    OscBridge.perform (Some demo_osc) (OscBridge.Configure "key" "value") = Some [m]
    ∧ osc_address m = path demo_osc +:+ "/bridge_" +:+ suffix
    ∧ String.list_ascii_of_string (osc_types m) = tag_of <$> osc_args m.
Proof.
  apply (proj2 (proj2 (bridge_perform_sends_one demo_osc
                         (OscBridge.Configure "key" "value")))).
  by eexists.
Defined.

End OscBridgeFacts.

(** ** Facts about projects *)

Section ProjectFacts.

Import Engine.

(** X23: [saveProject] on a sound table asks every enabled plugin of the
    prefix for its state, by ascending id, and writes none of it: the text is
    the XML declaration, the document type, the opening tag with the version
    and the closing tag, each followed by a newline, for every engine and
    every file name, and the result is always true. *)
Theorem saveProject_ignores_plugins e filename :
  table_ok e →
  saveProject e filename
  = Some (true,
          ["<?xml version='1.0' encoding='UTF-8'?>" +:+ newline;
           "<!DOCTYPE CARLA-PRESET>" +:+ newline;
           "<CARLA-PRESET VERSION='0.5.0'>" +:+ newline;
           "</CARLA-PRESET>" +:+ newline],
          filter (λ j, enabled_at e j = true) (seqZ 0 (curPluginCount e))).
Proof.
  intros (_ & Hc & _ & Hd).
  unfold saveProject. rewrite forward_loop_spec by (done || lia).
  by rewrite Z.sub_0_r.
Qed.

Lemma saveProject_ignores_plugins_witness :
  saveProject (demo_with ["a"]) "project.carxp"
  = Some (true,
          ["<?xml version='1.0' encoding='UTF-8'?>" +:+ newline;
           "<!DOCTYPE CARLA-PRESET>" +:+ newline;
           "<CARLA-PRESET VERSION='0.5.0'>" +:+ newline;
           "</CARLA-PRESET>" +:+ newline],
          filter (λ j, enabled_at (demo_with ["a"]) j = true)
            (seqZ 0 (curPluginCount (demo_with ["a"])))).
Proof.
  apply (saveProject_ignores_plugins (demo_with ["a"]) "project.carxp"
           demo_with_a_ok).
Defined.

(** The text of the example, as one string, and the one plugin asked. *)
Example saveProject_demo :
  ∃ out, saveProject (demo_with ["a"]) "project.carxp" = Some (true, out, [0])
    ∧ String.length (String.concat "" out) = 110%nat.
Proof. eexists. split; vm_compute; reflexivity. Qed.

End ProjectFacts.
